(** * Media-retrieval bot: queue, responder protocol, format matching, cache

    A shallow embedding of the job pipeline of the bot:
    - [userbot/client.py]  : the shared user session talking to the
      responder bots (send, poll, format matching, upload, recovery);
    - [db/database.py]     : the [videos] cache table;
    - [bot/handlers.py]    : the processing queue and its single worker.

    Python values are modelled as follows.  [str] is a byte string (the
    UTF-8 encoding of the text); [str.lower] folds the ASCII letters, so
    the model is exact on labels whose cased letters are ASCII.  Integers
    are [Z].  A coroutine is a computation in a state-and-exception monad
    over an explicit world (session flags, virtual clock, scripted
    network). *)

From Stdlib Require Import ZArith List Bool Lia String Ascii Arith.
From Stdlib Require Import DecimalString DecimalNat.
Import ListNotations.
Open Scope string_scope.
Open Scope list_scope.
Open Scope Z_scope.

(* ================================================================== *)
(** ** Python string primitives *)

Module Text.
(** [c.lower()] on one ASCII letter. *)
Definition lower_ascii (c : ascii) : ascii :=
  let n := nat_of_ascii c in
  if (Nat.leb 65 n && Nat.leb n 90)%bool then ascii_of_nat (n + 32) else c.

(** [s.lower()] *)
Fixpoint lower (s : string) : string :=
  match s with
  | EmptyString => EmptyString
  | String c r => String (lower_ascii c) (lower r)
  end.

(** [s.startswith(p)] *)
Definition startswith (s p : string) : bool := String.prefix p s.

(** [needle in hay] *)
Fixpoint contains (needle hay : string) : bool :=
  if String.prefix needle hay then true
  else match hay with
       | EmptyString => false
       | String _ r => contains needle r
       end.

(** [any(k in text for k in words)] *)
Definition any_in (words : list string) (text : string) : bool :=
  existsb (fun k => contains k text) words.

Definition is_digit (c : ascii) : bool :=
  let n := nat_of_ascii c in (Nat.leb 48 n && Nat.leb n 57)%bool.

Definition digit_val (c : ascii) : Z := Z.of_nat (nat_of_ascii c) - 48.

(** The longest run of at most [n] digits at the head of [s]. *)
Fixpoint take_digits (n : nat) (s : string) : list ascii :=
  match n, s with
  | S k, String c r => if is_digit c then c :: take_digits k r else []
  | _, _ => []
  end.

(** [int(ds)] for a run of decimal digits. *)
Definition int_of_digits (ds : list ascii) : Z :=
  fold_left (fun acc c => 10 * acc + digit_val c) ds 0.

(** [re.search(r'(\d{3,4})p?', s)] followed by [int(m.group(1))]:
    the leftmost position where three digits start; the group is
    greedy up to four digits. *)
Fixpoint search_resolution (s : string) : option Z :=
  let ds := take_digits 4 s in
  if Nat.leb 3 (List.length ds) then Some (int_of_digits ds)
  else match s with
       | EmptyString => None
       | String _ r => search_resolution r
       end.

(** [s.replace('p', '')] *)
Fixpoint remove_p (s : string) : string :=
  match s with
  | EmptyString => EmptyString
  | String c r => if Ascii.eqb c "p"%char then remove_p r else String c (remove_p r)
  end.

Fixpoint all_digits (s : string) : bool :=
  match s with
  | EmptyString => true
  | String c r => (is_digit c && all_digits r)%bool
  end.

(** [int(s)] on a plain digit string; any other text raises
    [ValueError] ([None] here).  Signs, blanks and underscores, which
    [int] also accepts, do not occur in the callers' arguments. *)
Definition py_int (s : string) : option Z :=
  match s with
  | EmptyString => None
  | _ => if all_digits s then Some (int_of_digits (list_ascii_of_string s)) else None
  end.

(** [s.split(sep)] for a separator of one character: never empty. *)
Fixpoint split (sep : ascii) (s : string) : list string :=
  match s with
  | EmptyString => [EmptyString]
  | String c r =>
      if Ascii.eqb c sep then EmptyString :: split sep r
      else match split sep r with
           | l :: ls => String c l :: ls
           | [] => [String c EmptyString]
           end
  end.

(** The line feed, ['\n']. *)
Definition LF : ascii := "010"%char.

(** [s.split('\n')] *)
Definition split_lines (s : string) : list string := split LF s.

(** [s.split(sep, 1)[1]]: what follows the first [sep]; [None] when
    there is none (an [IndexError]). *)
Fixpoint after_first (sep : ascii) (s : string) : option string :=
  match s with
  | EmptyString => None
  | String c r => if Ascii.eqb c sep then Some r else after_first sep r
  end.

(** The white space of [str.strip], by its UTF-8 bytes: U+0009 to
    U+000D and U+001C to U+0020; U+0085 and U+00A0; U+1680, U+2000 to
    U+200A, U+2028, U+2029, U+202F, U+205F and U+3000. *)
Definition is_space1 (a : ascii) : bool :=
  let a := nat_of_ascii a in
  (Nat.leb 9 a && Nat.leb a 13 || Nat.leb 28 a && Nat.leb a 32)%bool.

Definition is_space2 (a b : ascii) : bool :=
  let a := nat_of_ascii a in
  let b := nat_of_ascii b in
  (Nat.eqb a 194 && (Nat.eqb b 133 || Nat.eqb b 160))%bool.

Definition is_space3 (a b c : ascii) : bool :=
  let a := nat_of_ascii a in
  let b := nat_of_ascii b in
  let c := nat_of_ascii c in
  (Nat.eqb a 225 && Nat.eqb b 154 && Nat.eqb c 128
   || Nat.eqb a 226 && Nat.eqb b 128
      && (Nat.leb 128 c && Nat.leb c 138 || Nat.eqb c 168 || Nat.eqb c 169
          || Nat.eqb c 175)
   || Nat.eqb a 226 && Nat.eqb b 129 && Nat.eqb c 159
   || Nat.eqb a 227 && Nat.eqb b 128 && Nat.eqb c 128)%bool.

(** [s.lstrip()] on the bytes of [s]. *)
Fixpoint lstrip (l : list ascii) : list ascii :=
  match l with
  | [] => []
  | a :: r1 =>
      if is_space1 a then lstrip r1
      else match r1 with
           | [] => l
           | b :: r2 =>
               if is_space2 a b then lstrip r2
               else match r2 with
                    | [] => l
                    | c :: r3 => if is_space3 a b c then lstrip r3 else l
                    end
           end
  end.

(** [s.rstrip()] on the bytes of [s] in reverse. *)
Fixpoint rstrip_rev (l : list ascii) : list ascii :=
  match l with
  | [] => []
  | a :: r1 =>
      if is_space1 a then rstrip_rev r1
      else match r1 with
           | [] => l
           | b :: r2 =>
               if is_space2 b a then rstrip_rev r2
               else match r2 with
                    | [] => l
                    | c :: r3 => if is_space3 c b a then rstrip_rev r3 else l
                    end
           end
  end.

(** [s.strip()] *)
Definition strip (s : string) : string :=
  string_of_list_ascii
    (rev (rstrip_rev (rev (lstrip (list_ascii_of_string s))))).

(** [str(n)] for an integer. *)
Definition str (n : Z) : string :=
  if n <? 0 then String "-" (NilEmpty.string_of_uint (Nat.to_uint (Z.to_nat (- n))))
  else NilEmpty.string_of_uint (Nat.to_uint (Z.to_nat n)).

(** [s.isdigit()] on ASCII text: not empty, decimal digits only.  (Of
    the other digits of Unicode the model knows nothing.) *)
Definition isdigit (s : string) : bool :=
  match s with
  | EmptyString => false
  | _ => all_digits s
  end.

End Text.

(* ================================================================== *)
(** ** Exceptions and results *)

(** The exceptions the code distinguishes.  All of them derive from
    [Exception], so every [except Exception] clause catches them. *)
Inductive exn : Type :=
| AuthKeyDuplicatedError
| FloodWaitError (seconds : Z)
| IntegrityError
| PyError (msg : string).

(** What running a piece of code gives: a value, a raised exception, or
    [Pending] when it has not returned: a loop bounded by fuel was cut
    short, or a task waits on an empty queue (no [except] clause catches
    that one). *)
Inductive res (A : Type) : Type :=
| Ret (a : A)
| Raise (e : exn)
| Pending.
Arguments Ret {A} a.
Arguments Raise {A} e.
Arguments Pending {A}.

(** Sequencing without a world. *)
Definition res_bind {A B} (r : res A) (k : A -> res B) : res B :=
  match r with
  | Ret a => k a
  | Raise e => Raise e
  | Pending => Pending
  end.

(** [for x in l: ... return v]: the body gives [Some v] to return [v]
    from the enclosing function and [None] to go on with the next item. *)
Fixpoint for_first {A B} (body : A -> res (option B)) (l : list A) : res (option B) :=
  match l with
  | [] => Ret None
  | x :: l' =>
      match body x with
      | Ret None => for_first body l'
      | r => r
      end
  end.

(* ================================================================== *)
(** ** Telegram messages as the code reads them *)

(** [button.data]: absent or empty ([hasattr(button, 'data') and
    button.data] is false), bytes that [.decode()] rejects, or bytes
    that decode to the token [s]. *)
Inductive button_data : Type :=
| NoData
| BadBytes
| Token (s : string).

(** An inline keyboard button: [button.text] and [button.data]. *)
Record button : Type := mkButton {
  text : string;
  data : button_data
}.

(** [reply_markup.rows], each row with its [buttons]. *)
Definition keyboard : Type := list (list button).

(** [hasattr(button, 'data') and button.data and hasattr(button, 'text')] *)
Definition has_data (b : button) : bool :=
  match data b with
  | NoData => false
  | _ => true
  end.

(** [button.data.decode() if isinstance(button.data, bytes) else str(button.data)] *)
Definition decode (d : button_data) : res string :=
  match d with
  | Token s => Ret s
  | _ => Raise (PyError "UnicodeDecodeError")
  end.

(** The two Hangul keywords as they stand in the source file, by their
    UTF-8 bytes: U+D5A5 U+C4AC U+D5A8 and U+D59F U+D61E U+D5A2 U+D5A6. *)
Definition kw_sound : string :=
  string_of_list_ascii
    (map ascii_of_nat [237; 150; 165; 236; 146; 172; 237; 150; 168]%nat).

Definition kw_audio_alt : string :=
  string_of_list_ascii
    (map ascii_of_nat [237; 150; 159; 237; 152; 158; 237; 150; 162; 237; 150; 166]%nat).

(** [message.media]: none, a link preview ([MessageMediaWebPage]), or
    a file. *)
Inductive media_kind : Type :=
| MediaNone
| MediaWebPage
| MediaFile.

(** The attributes of a Telethon [Message] the code looks at.
    [document] holds the MIME type of [message.document]. *)
Record message : Type := mkMessage {
  id : Z;
  video : bool;
  photo : bool;
  audio : bool;
  document : option string;
  media : media_kind;
  message_text : string;
  reply_markup : option keyboard
}.

(* ================================================================== *)
(** ** The database file *)

(** A row of the [videos] table; [video_url] is its [url] column, which
    is [UNIQUE]. *)
Record video_row : Type := mkVideo {
  video_url : string;
  channel_message_id : Z;
  platform : string;
  timestamp : Z
}.

(** A row of the [users] table, by its [id] and [total_downloads]. *)
Record user_row : Type := mkUser {
  uid : Z;
  total_downloads : Z
}.

(** The tables the operations below read and write. *)
Record database : Type := mkDatabase {
  videos : list video_row;
  users : list user_row
}.

(** Where the SQLite layer fails during one operation, if it does. *)
Inductive sql_fault : Type :=
| NoFault
| FailConnect
| FailExecute
| FailCommit
| FailClose.

(* ================================================================== *)
(** ** The processing queue's shared state *)

(** A [ProcessingRequest].  [chat_type] is [message.chat.type] of the
    user's message; [loading_message] tells whether the attribute was
    set; [completed] is the [asyncio.Event]. *)
Record ProcessingRequest : Type := mkRequest {
  user_id : Z;
  chat_type : string;
  url : string;
  url_type : string;
  loading_message : bool;
  completed : bool;
  result : option Z;
  error : option string
}.

(** The module-level globals of [bot/handlers.py].  Requests are shared
    objects: [requests] is the store they live in, and the queue, the
    worker and the submitter's handle all refer to a request by its
    position there.  [worker_tasks] holds one entry per task created for
    [process_queue_worker]: [None] while it waits in
    [processing_queue.get()], [Some h] while it holds request [h]. *)
Record globals : Type := mkGlobals {
  requests : list ProcessingRequest;
  processing_queue : list nat;
  current_processing_user : option Z;
  processing_workers_started : bool;
  worker_tasks : list (option nat)
}.

(* ================================================================== *)
(** ** The world a coroutine runs in *)

(** Requests leaving the process: the user session's Telegram calls and
    the bot's own Bot API calls. *)
Inductive call : Type :=
| SendMessage (peer : string) (body : string)
| GetMessages (peer : string) (limit : nat)
| Click (message_id : Z) (callback_data : string)
| SendFile (items : nat)
| DownloadMedia (message_id : Z)
| Connect
| Disconnect
| IsUserAuthorized
| BotReply (body : string)
| BotCopyMessage (message_id : Z)
| BotDelete.

(** What a call hands back. *)
Inductive value : Type :=
| VNone
| VBool (b : bool)
| VMessage (m : message)
| VMessages (l : list message)
| VPath (p : string).

(** The outside's answer to one call: a value, or an exception. *)
Inductive reply : Type :=
| Gives (v : value)
| Fails (e : exn).

(** [script] is what the outside will answer to the next calls, in
    order; [log] is the calls made so far, newest first; [clock] is the
    event loop's time in seconds, advanced by [asyncio.sleep] only;
    [db_faults] is where the next database operations will fail. *)
Record world : Type := mkWorld {
  is_authenticated : bool;
  connected : bool;
  clock : Z;
  script : list reply;
  log : list call;
  db : database;
  db_faults : list sql_fault;
  handlers : globals
}.

(** A coroutine: from a world to its result and the world it leaves. *)
Definition M (A : Type) : Type := world -> res A * world.

(** [return a] *)
Definition ret {A} (a : A) : M A := fun w => (Ret a, w).

(** [raise e] *)
Definition raise {A} (e : exn) : M A := fun w => (Raise e, w).

(** The coroutine does not come back. *)
Definition pending {A} : M A := fun w => (Pending, w).

(** [a = await m; k a] *)
Definition bind {A B} (m : M A) (k : A -> M B) : M B :=
  fun w =>
    match m w with
    | (Ret a, w') => k a w'
    | (Raise e, w') => (Raise e, w')
    | (Pending, w') => (Pending, w')
    end.

(** [try: m  except ... as e: handler e] *)
Definition try_except {A} (m : M A) (handler : exn -> M A) : M A :=
  fun w =>
    match m w with
    | (Raise e, w') => handler e w'
    | r => r
    end.

Declare Scope monad_scope.
Delimit Scope monad_scope with monad.
Notation "x <- m ;; k" := (bind m (fun x => k))
  (at level 61, m at next level, right associativity) : monad_scope.
Notation "m ;;; k" := (bind m (fun _ => k))
  (at level 61, right associativity) : monad_scope.
Open Scope monad_scope.

(** Updates of one field of the world. *)
Definition set_script (s : list reply) (w : world) : world :=
  mkWorld (is_authenticated w) (connected w) (clock w) s (log w) (db w) (db_faults w) (handlers w).

Definition add_log (c : call) (w : world) : world :=
  mkWorld (is_authenticated w) (connected w) (clock w) (script w) (c :: log w)
          (db w) (db_faults w) (handlers w).

Definition set_clock (t : Z) (w : world) : world :=
  mkWorld (is_authenticated w) (connected w) t (script w) (log w) (db w) (db_faults w) (handlers w).

Definition set_authenticated (b : bool) (w : world) : world :=
  mkWorld b (connected w) (clock w) (script w) (log w) (db w) (db_faults w) (handlers w).

Definition set_connected (b : bool) (w : world) : world :=
  mkWorld (is_authenticated w) b (clock w) (script w) (log w) (db w) (db_faults w) (handlers w).

Definition set_db (d : database) (w : world) : world :=
  mkWorld (is_authenticated w) (connected w) (clock w) (script w) (log w) d (db_faults w) (handlers w).

Definition set_db_faults (f : list sql_fault) (w : world) : world :=
  mkWorld (is_authenticated w) (connected w) (clock w) (script w) (log w) (db w) f (handlers w).

Definition set_handlers (g : globals) (w : world) : world :=
  mkWorld (is_authenticated w) (connected w) (clock w) (script w) (log w) (db w)
          (db_faults w) g.

(** One call to the outside: logged, answered by the head of the
    script; with nothing scripted the connection is down. *)
Definition request (c : call) : M value :=
  fun w =>
    match script w with
    | [] => (Raise (PyError "ConnectionError"), add_log c w)
    | Gives v :: rest => (Ret v, add_log c (set_script rest w))
    | Fails e :: rest => (Raise e, add_log c (set_script rest w))
    end.

(** [asyncio.get_event_loop().time()] *)
Definition time : M Z := fun w => (Ret (clock w), w).

(** [await asyncio.sleep(d)] *)
Definition sleep (d : Z) : M unit :=
  fun w => (Ret tt, set_clock (clock w + Z.max 0 d) w).

(** Using a value of the wrong shape raises ([AttributeError],
    [TypeError]). *)
Definition as_message (v : value) : M message :=
  match v with
  | VMessage m => ret m
  | _ => raise (PyError "AttributeError")
  end.

Definition as_messages (v : value) : M (list message) :=
  match v with
  | VMessages l => ret l
  | _ => raise (PyError "TypeError")
  end.

(** [await client.send_message(peer, body)] *)
Definition send_message (peer body : string) : M message :=
  v <- request (SendMessage peer body) ;; as_message v.

(** [await client.get_messages(peer, limit=n)]: at most [n] messages. *)
Definition get_messages (peer : string) (limit : nat) : M (list message) :=
  v <- request (GetMessages peer limit) ;;
  l <- as_messages v ;;
  ret (firstn limit l).

(** The bot user names of [config.Config], a module that is not among
    the sources: they are parameters of everything below. *)
Record config : Type := mkConfig {
  TIKTOK_BOT_USERNAME : string;
  YOUTUBE_BOT_USERNAME : string;
  FACEBOOK_BOT_USERNAME : string;
  TWITTER_BOT_USERNAME : string
}.

Module Userbot.

Section WithConfig.
Variable cfg : config.

Definition keepmedia_bot_username : string := TIKTOK_BOT_USERNAME cfg.
Definition youtube_bot_username : string := YOUTUBE_BOT_USERNAME cfg.
Definition facebook_bot_username : string := FACEBOOK_BOT_USERNAME cfg.
Definition twitter_bot_username : string := TWITTER_BOT_USERNAME cfg.

(** [format_patterns.get(key, [])] *)
Definition format_patterns (key : string) : list string :=
  if String.eqb key "360p" then ["360"; "360p"]
  else if String.eqb key "480p" then ["480"; "480p"]
  else if String.eqb key "720p" then ["720"; "720p"; "hd"]
  else if String.eqb key "mp3" then ["mp3"; "audio"; kw_sound]
  else [].

(** The words of the audio fallback. *)
Definition audio_words : list string := [kw_audio_alt; "audio"; kw_sound; "mp3"].

(** First pass over the buttons: return the data of the first button
    whose lowered text contains a pattern. *)
Definition match_button (patterns : list string) (b : button) : res (option string) :=
  if has_data b then
    let button_text := Text.lower (text b) in
    res_bind (decode (data b)) (fun button_data =>
      if existsb (fun pattern => Text.contains (Text.lower pattern) button_text) patterns
      then Ret (Some button_data)
      else Ret None)
  else Ret None.

(** The audio fallback pass. *)
Definition audio_button (b : button) : res (option string) :=
  if has_data b then
    let button_text := Text.lower (text b) in
    if Text.any_in audio_words button_text
    then res_bind (decode (data b)) (fun button_data => Ret (Some button_data))
    else Ret None
  else Ret None.

(** One step of the closest-resolution pass; the accumulator is
    [(closest_button, closest_diff)], [None] standing for [float('inf')]. *)
Definition closer (target_res : Z) (acc : option button * option Z) (b : button)
  : option button * option Z :=
  if has_data b then
    let button_text := Text.lower (text b) in
    match Text.search_resolution button_text with
    | Some button_res =>
        let diff := Z.abs (button_res - target_res) in
        match snd acc with
        | None => (Some b, Some diff)
        | Some closest_diff =>
            if diff <? closest_diff then (Some b, Some diff) else acc
        end
    | None => acc
    end
  else acc.

(** The nested [for row ... for button] of the closest-resolution pass. *)
Definition closest_scan (target_res : Z) (rows : keyboard) : option button * option Z :=
  fold_left (fun acc row => fold_left (closer target_res) row acc) rows (None, None).

(** The body of [find_matching_format_callback], inside its [try]. *)
Definition find_matching_format_body (reply_markup : option keyboard)
    (desired_format : string) : res (option string) :=
  match reply_markup with
  | None => Ret None
  | Some rows =>
      let patterns := format_patterns (Text.lower desired_format) in
      match patterns with
      | [] => Ret None
      | _ =>
          res_bind (for_first (for_first (match_button patterns)) rows) (fun hit =>
          match hit with
          | Some button_data => Ret (Some button_data)
          | None =>
              if String.eqb (Text.lower desired_format) "mp3" then
                for_first (for_first audio_button) rows
              else
                match Text.py_int (Text.remove_p desired_format) with
                | None => Raise (PyError "ValueError")
                | Some target_res =>
                    match fst (closest_scan target_res rows) with
                    | Some closest_button =>
                        res_bind (decode (data closest_button)) (fun button_data =>
                          Ret (Some button_data))
                    | None => Ret None
                    end
                end
          end)
      end
  end.

(** [find_matching_format_callback(format_message, desired_format)]:
    [except Exception] turns every fault into [None]. *)
Definition find_matching_format_callback (reply_markup : option keyboard)
    (desired_format : string) : option string :=
  match find_matching_format_body reply_markup desired_format with
  | Ret r => r
  | _ => None
  end.



(* ------------------------------------------------------------------ *)
(** *** Watching a conversation for the responder's media *)

(** [message.document and hasattr(message.document, 'mime_type') and
    message.document.mime_type.startswith(p)] *)
Definition mime_startswith (message : message) (p : string) : bool :=
  match document message with
  | Some mime_type => Text.startswith mime_type p
  | None => false
  end.

(** [is_video], [is_photo] and [is_audio] of the polling loops. *)
Definition is_video (message : message) : bool :=
  (video message || mime_startswith message "video/")%bool.

Definition is_photo (message : message) : bool :=
  (photo message || mime_startswith message "image/")%bool.

Definition is_audio (message : message) : bool :=
  (audio message || mime_startswith message "audio/")%bool.

(** What one poll or wait hands back besides [None]: one message, or
    the list of them when [return_all] is set. *)
Inductive found : Type :=
| Single (m : message)
| All (l : list message).

(** [media_messages.sort(key=lambda m: m.id)], a stable sort. *)
Fixpoint insert_by_id (m : message) (l : list message) : list message :=
  match l with
  | [] => [m]
  | y :: l' => if id m <=? id y then m :: y :: l' else y :: insert_by_id m l'
  end.

Fixpoint sort_by_id (l : list message) : list message :=
  match l with
  | [] => []
  | m :: l' => insert_by_id m (sort_by_id l')
  end.

(** The [for message in messages] loop of [_wait_for_video_response]. *)
Fixpoint scan_media (bot_username : string) (sent_message_id : Z)
    (messages media_messages : list message) : list message :=
  match messages with
  | [] => media_messages
  | message :: rest =>
      if sent_message_id <? id message then
        if (String.eqb bot_username youtube_bot_username
            && negb (is_video message || is_audio message))%bool
        then scan_media bot_username sent_message_id rest media_messages
        else if (is_video message || is_photo message || is_audio message)%bool
        then scan_media bot_username sent_message_id rest (media_messages ++ [message])
        else scan_media bot_username sent_message_id rest media_messages
      else scan_media bot_username sent_message_id rest media_messages
  end.

(** [return media_messages] or [return media_messages[-1]]. *)
Definition choose (return_all : bool) (sorted : list message) : M found :=
  if return_all then ret (All sorted)
  else match rev sorted with
       | chosen :: _ => ret (Single chosen)
       | [] => raise (PyError "IndexError")
       end.

(** One pass of the [try] block of [_wait_for_video_response]:
    [Some r] when it returns [r], [None] when it falls through. *)
Definition poll_video (bot_username : string) (sent_message_id : Z)
    (return_all : bool) : M (option found) :=
  messages <- get_messages bot_username 10 ;;
  match scan_media bot_username sent_message_id messages [] with
  | [] => ret None
  | media_messages =>
      r <- choose return_all (sort_by_id media_messages) ;;
      ret (Some r)
  end.

(** The [while] loop of [_wait_for_video_response], one unit of fuel a
    turn. *)
Fixpoint wait_video_loop (fuel : nat) (bot_username : string) (sent_message_id : Z)
    (max_wait_time : Z) (return_all : bool) (start_time : Z) : M (option found) :=
  match fuel with
  | O => pending
  | S fuel' =>
      now <- time ;;
      if now - start_time <? max_wait_time then
        r <- try_except (poll_video bot_username sent_message_id return_all)
                        (fun _ => ret None) ;;
        match r with
        | Some result => ret (Some result)
        | None =>
            sleep 3 ;;;
            wait_video_loop fuel' bot_username sent_message_id max_wait_time
                            return_all start_time
        end
      else ret None
  end.

(** [_wait_for_video_response(bot_username, sent_message_id,
    max_wait_time, return_all)].  Every turn of the loop sleeps three
    seconds, so [max_wait_time] turns and one more are never used up. *)
Definition _wait_for_video_response (bot_username : string) (sent_message_id : Z)
    (max_wait_time : Z) (return_all : bool) : M (option found) :=
  start_time <- time ;;
  wait_video_loop (S (Z.to_nat max_wait_time)) bot_username sent_message_id
                  max_wait_time return_all start_time.

(** The failure vocabulary of the Twitter responder. *)
Definition failure_words : list string :=
  ["no media"; "not found"; "error"; "failed"; "no video"; "no photo"].

(** The [for message in messages] loop of [_wait_for_twitter_response];
    the accumulator is [(media_messages, text_messages)]. *)
Fixpoint scan_twitter (sent_message_id : Z) (messages : list message)
    (acc : list message * list message) : list message * list message :=
  match messages with
  | [] => acc
  | message :: rest =>
      if sent_message_id <? id message then
        match media message with
        | MediaWebPage => scan_twitter sent_message_id rest acc
        | _ =>
            if (is_video message || is_photo message)%bool then
              scan_twitter sent_message_id rest ((fst acc ++ [message])%list, snd acc)
            else if (negb (String.eqb (message_text message) "")
                     && match media message with MediaNone => true | _ => false end)%bool
            then
              let text_content := Text.lower (message_text message) in
              if Text.any_in failure_words text_content
              then scan_twitter sent_message_id rest (fst acc, (snd acc ++ [message])%list)
              else scan_twitter sent_message_id rest acc
            else scan_twitter sent_message_id rest acc
        end
      else scan_twitter sent_message_id rest acc
  end.

(** One pass of the [try] block of [_wait_for_twitter_response]:
    [Some r] when it returns [r] (a find, or [None] on a failure text). *)
Definition poll_twitter (bot_username : string) (sent_message_id : Z)
    (return_all : bool) : M (option (option found)) :=
  messages <- get_messages bot_username 20 ;;
  match scan_twitter sent_message_id messages ([], []) with
  | ([], []) => ret None
  | ([], _ :: _) => ret (Some None)
  | (media_messages, _) =>
      r <- choose return_all (sort_by_id media_messages) ;;
      ret (Some (Some r))
  end.

(** The [while] loop of [_wait_for_twitter_response]. *)
Fixpoint wait_twitter_loop (fuel : nat) (bot_username : string) (sent_message_id : Z)
    (max_wait_time : Z) (return_all : bool) (poll_interval : Z) (start_time : Z)
  : M (option found) :=
  match fuel with
  | O => pending
  | S fuel' =>
      now <- time ;;
      if now - start_time <? max_wait_time then
        r <- try_except (poll_twitter bot_username sent_message_id return_all)
                        (fun _ => ret None) ;;
        match r with
        | Some result => ret result
        | None =>
            sleep poll_interval ;;;
            wait_twitter_loop fuel' bot_username sent_message_id max_wait_time
                              return_all poll_interval start_time
        end
      else ret None
  end.

(** [_wait_for_twitter_response(bot_username, sent_message_id,
    max_wait_time, return_all, poll_interval)].  With a poll interval
    of a second or more the fuel is never used up; with none the loop
    spins without the clock moving, which shows as [Pending]. *)
Definition _wait_for_twitter_response (bot_username : string) (sent_message_id : Z)
    (max_wait_time : Z) (return_all : bool) (poll_interval : Z) : M (option found) :=
  start_time <- time ;;
  wait_twitter_loop (S (Z.to_nat max_wait_time)) bot_username sent_message_id
                    max_wait_time return_all poll_interval start_time.

(* ------------------------------------------------------------------ *)
(** *** Format keyboards *)

(** The message has a keyboard with a button that carries data. *)
Definition has_data_button (message : message) : bool :=
  match reply_markup message with
  | Some rows => existsb (existsb has_data) rows
  | None => false
  end.

(** One pass of the [try] block of [_wait_for_format_message]. *)
Definition poll_format (bot_username : string) (sent_message_id : Z)
  : M (option message) :=
  messages <- get_messages bot_username 10 ;;
  match find (fun message => ((sent_message_id <? id message)
                              && has_data_button message)%bool) messages with
  | Some message => ret (Some message)
  | None => sleep 2 ;;; ret None
  end.

(** The [while] loop of [_wait_for_format_message]; every turn sleeps
    two seconds. *)
Fixpoint wait_format_loop (fuel : nat) (bot_username : string) (sent_message_id : Z)
    (max_wait_time : Z) (start_time : Z) : M (option message) :=
  match fuel with
  | O => pending
  | S fuel' =>
      now <- time ;;
      if now - start_time <? max_wait_time then
        r <- try_except (poll_format bot_username sent_message_id)
                        (fun _ => sleep 2 ;;; ret None) ;;
        match r with
        | Some message => ret (Some message)
        | None => wait_format_loop fuel' bot_username sent_message_id
                                   max_wait_time start_time
        end
      else ret None
  end.

(** [_wait_for_format_message(bot_username, sent_message_id, max_wait_time)] *)
Definition _wait_for_format_message (bot_username : string) (sent_message_id : Z)
    (max_wait_time : Z) : M (option message) :=
  start_time <- time ;;
  wait_format_loop (S (Z.to_nat max_wait_time)) bot_username sent_message_id
                   max_wait_time start_time.

(** A computation that does not touch the world. *)
Definition lift {A} (r : res A) : M A := fun w => (r, w).

(** The button whose decoded data is [callback_data]. *)
Definition click_target (callback_data : string) (b : button) : res (option unit) :=
  if has_data b then
    res_bind (decode (data b)) (fun button_data =>
      if String.eqb button_data callback_data then Ret (Some tt) else Ret None)
  else Ret None.

(** [_click_inline_button(message, callback_data)] *)
Definition _click_inline_button (message : message) (callback_data : string) : M bool :=
  try_except
    (match reply_markup message with
     | None => ret false
     | Some rows =>
         hit <- lift (for_first (for_first (click_target callback_data)) rows) ;;
         match hit with
         | Some _ => request (Click (id message) callback_data) ;;; ret true
         | None => ret false
         end
     end)
    (fun _ => ret false).

(* ------------------------------------------------------------------ *)
(** *** Archiving into the storage channel *)

(** Python truth of a returned value. *)
Definition truthy (v : value) : bool :=
  match v with
  | VNone => false
  | VBool b => b
  | VMessage _ => true
  | VMessages l => negb (Nat.eqb (List.length l) 0)
  | VPath p => negb (String.eqb p "")
  end.

(** [if sent_message: return sent_message.id  else: return None] *)
Definition sent_id (v : value) : M (option Z) :=
  if truthy v then m <- as_message v ;; ret (Some (id m)) else ret None.

Definition has_media (message : message) : bool :=
  match media message with
  | MediaNone => false
  | _ => true
  end.

Definition has_document (message : message) : bool :=
  match document message with
  | Some _ => true
  | None => false
  end.

(** [_upload_to_storage_channel(media_message)] *)
Definition _upload_to_storage_channel (media_message : message) : M (option Z) :=
  try_except
    ((if (has_media media_message || has_document media_message
          || photo media_message || video media_message)%bool
      then ret tt
      else request (DownloadMedia (id media_message)) ;;; ret tt) ;;;
     sent_message <- request (SendFile 1) ;;
     sent_id sent_message)
    (fun _ => ret None).

(** [_upload_media_group_to_storage_channel(media_messages)]: the
    album holds at most ten items; the id of its last message is
    returned. *)
Definition _upload_media_group_to_storage_channel (media_messages : list message)
  : M (option Z) :=
  try_except
    (let media_files := filter has_media media_messages in
     match media_files with
     | [] => ret None
     | _ =>
         let media_files := firstn 10 media_files in
         sent_messages <- request (SendFile (List.length media_files)) ;;
         if truthy sent_messages then
           match sent_messages with
           | VMessages l =>
               match rev l with
               | m :: _ => ret (Some (id m))
               | [] => raise (PyError "IndexError")
               end
           | other => m <- as_message other ;; ret (Some (id m))
           end
         else ret None
     end)
    (fun _ => ret None).

(** [_upload_twitter_to_storage_channel(media_message)] *)
Definition _upload_twitter_to_storage_channel (media_message : message) : M (option Z) :=
  try_except
    (match media media_message with
     | MediaWebPage => ret None
     | _ =>
         if (photo media_message || video media_message
             || has_document media_message)%bool
         then
           sent_message <- request (SendFile 1) ;;
           sent_id sent_message
         else ret None
     end)
    (fun _ => ret None).

(* ------------------------------------------------------------------ *)
(** *** Session state *)

(** [self.is_authenticated] and [self.client.is_connected()], read and
    written. *)
Definition get_is_authenticated : M bool :=
  fun w => (Ret (is_authenticated w), w).

Definition put_is_authenticated (b : bool) : M unit :=
  fun w => (Ret tt, set_authenticated b w).

Definition is_connected : M bool := fun w => (Ret (connected w), w).

Definition put_connected (b : bool) : M unit :=
  fun w => (Ret tt, set_connected b w).

(** [_recover_session()]: disconnect, pause, reconnect, check the
    authorization; a fault is logged and raised again. *)
Definition _recover_session : M unit :=
  try_except
    (c <- is_connected ;;
     (if c then request Disconnect ;;; put_connected false else ret tt) ;;;
     sleep 1 ;;;
     request Connect ;;;
     put_connected true ;;;
     authorized <- request IsUserAuthorized ;;
     if truthy authorized then ret tt else put_is_authenticated false)
    (fun e => raise e).

(** [if storage_message_id: return storage_message_id  else: return None] *)
Definition id_or_none (storage_message_id : option Z) : option Z :=
  match storage_message_id with
  | Some n => if n =? 0 then None else Some n
  | None => None
  end.

(** [for x in l] in a coroutine, the body giving [Some v] to return [v]. *)
Fixpoint for_firstM {A B} (body : A -> M (option B)) (l : list A) : M (option B) :=
  match l with
  | [] => ret None
  | x :: l' =>
      r <- body x ;;
      match r with
      | Some v => ret (Some v)
      | None => for_firstM body l'
      end
  end.

(* ------------------------------------------------------------------ *)
(** *** One job per platform *)

(** [str(e)] as far as the code inspects it. *)
Definition str_of_exn (e : exn) : string :=
  match e with
  | AuthKeyDuplicatedError =>
      "The authorization key (session file) was used under two different IP addresses simultaneously"
  | FloodWaitError _ => "A wait of some seconds is required"
  | IntegrityError => "UNIQUE constraint failed"
  | PyError msg => msg
  end.

(** One turn of the [for attempt in range(max_retries)] loop of
    [process_instagram_url]. *)
Definition instagram_attempt (url : string) (attempt : Z) : M (option (option Z)) :=
  let max_retries := 2 in
  let retry_delay := 10 in
  try_except
    (send_message keepmedia_bot_username "/start" ;;;
     sleep 2 ;;;
     sent_message <- send_message keepmedia_bot_username url ;;
     media_messages <- _wait_for_video_response keepmedia_bot_username
                         (id sent_message) retry_delay true ;;
     match media_messages with
     | Some (All (first :: more)) =>
         match more with
         | _ :: _ =>
             storage_message_id <-
               _upload_media_group_to_storage_channel (first :: more) ;;
             ret (Some (id_or_none storage_message_id))
         | [] =>
             storage_message_id <- _upload_to_storage_channel first ;;
             ret (Some (id_or_none storage_message_id))
         end
     | Some (Single _) => raise (PyError "TypeError")
     | _ =>
         (if attempt <? max_retries - 1 then sleep retry_delay else ret tt) ;;;
         ret None
     end)
    (fun e =>
       match e with
       | FloodWaitError _ => ret (Some None)
       | _ =>
           (if attempt <? max_retries - 1 then sleep retry_delay else ret tt) ;;;
           ret None
       end).

(** [process_instagram_url(url)] *)
Definition process_instagram_url (url : string) : M (option Z) :=
  auth <- get_is_authenticated ;;
  if negb auth then ret None
  else
    r <- for_firstM (instagram_attempt url) [0; 1] ;;
    match r with
    | Some result => ret result
    | None => ret None
    end.

(** [process_tiktok_url(url, max_wait_time)] *)
Definition process_tiktok_url (url : string) (max_wait_time : Z) : M (option Z) :=
  auth <- get_is_authenticated ;;
  if negb auth then ret None
  else
    try_except
      (send_message keepmedia_bot_username "/start" ;;;
       sleep 2 ;;;
       sent_message <- send_message keepmedia_bot_username url ;;
       video_message <- _wait_for_video_response keepmedia_bot_username
                          (id sent_message) max_wait_time false ;;
       match video_message with
       | Some (Single m) =>
           storage_message_id <- _upload_to_storage_channel m ;;
           ret (id_or_none storage_message_id)
       | Some (All _) => raise (PyError "AttributeError")
       | None => ret None
       end)
      (fun _ => ret None).

(** [for m in reversed(media_messages): if is_video: chosen = m; break],
    then the newest message when no video was found. *)
Definition choose_video (media_messages : list message) : option message :=
  match find is_video (rev media_messages) with
  | Some m => Some m
  | None => hd_error (rev media_messages)
  end.

(** The part of [process_facebook_url] that runs again after a session
    recovery: send the URL, wait, choose, upload. *)
Definition facebook_round (url : string) (max_wait_time : Z) : M (option Z) :=
  sent_message <- send_message facebook_bot_username url ;;
  media_messages <- _wait_for_video_response facebook_bot_username
                      (id sent_message) max_wait_time true ;;
  match media_messages with
  | Some (All l) =>
      match choose_video l with
      | Some chosen_message =>
          storage_message_id <- _upload_to_storage_channel chosen_message ;;
          ret (id_or_none storage_message_id)
      | None => ret None
      end
  | Some (Single _) => raise (PyError "TypeError")
  | None => ret None
  end.

(** The body of the two recovery branches: reconnect, then one more
    round, any fault ending the job with [None]. *)
Definition facebook_recover_and_retry (url : string) (max_wait_time : Z) : M (option Z) :=
  try_except
    (_recover_session ;;; facebook_round url max_wait_time)
    (fun _ => ret None).

(** [process_facebook_url(url, max_wait_time)] *)
Definition process_facebook_url (url : string) (max_wait_time : Z) : M (option Z) :=
  auth <- get_is_authenticated ;;
  if negb auth then ret None
  else
    try_except
      (send_message facebook_bot_username "/start" ;;;
       sleep 2 ;;;
       facebook_round url max_wait_time)
      (fun e =>
         match e with
         | AuthKeyDuplicatedError => facebook_recover_and_retry url max_wait_time
         | FloodWaitError _ => ret None
         | _ =>
             let s := Text.lower (str_of_exn e) in
             if (Text.contains "authorization key" s
                 && Text.contains "two different ip" s)%bool
             then facebook_recover_and_retry url max_wait_time
             else ret None
         end).

(** [process_twitter_url(url, callback_data, max_wait_time,
    pre_sent_message_id)] *)
Definition process_twitter_url (url : string) (callback_data : option string)
    (max_wait_time : Z) (pre_sent_message_id : option Z) : M (option Z) :=
  auth <- get_is_authenticated ;;
  if negb auth then ret None
  else
    try_except
      (sent_message_id <-
         match pre_sent_message_id with
         | Some n => ret n
         | None =>
             sent_message <- send_message twitter_bot_username url ;;
             ret (id sent_message)
         end ;;
       clicked <-
         match callback_data with
         | Some cb =>
             if String.eqb cb "" then ret true
             else
               format_message <- _wait_for_format_message twitter_bot_username
                                   sent_message_id 60 ;;
               match format_message with
               | None => ret false
               | Some fm => _click_inline_button fm cb
               end
         | None => ret true
         end ;;
       if negb clicked then ret None
       else
         media_messages <- _wait_for_twitter_response twitter_bot_username
                             sent_message_id max_wait_time true 5 ;;
         match media_messages with
         | Some (All l) =>
             match choose_video l with
             | Some chosen_message =>
                 storage_message_id <-
                   _upload_twitter_to_storage_channel chosen_message ;;
                 ret (id_or_none storage_message_id)
             | None => ret None
             end
         | Some (Single _) => raise (PyError "TypeError")
         | None => ret None
         end)
      (fun _ => ret None).

(** [process_youtube_url(url, callback_data, max_wait_time)] *)
Definition process_youtube_url (url : string) (callback_data : option string)
    (max_wait_time : Z) : M (option Z) :=
  auth <- get_is_authenticated ;;
  if negb auth then ret None
  else
    try_except
      (send_message youtube_bot_username "/start" ;;;
       sleep 2 ;;;
       sent_message <- send_message youtube_bot_username url ;;
       clicked <-
         match callback_data with
         | Some cb =>
             if String.eqb cb "" then ret true
             else
               format_message <- _wait_for_format_message youtube_bot_username
                                   (id sent_message) max_wait_time ;;
               match format_message with
               | None => ret false
               | Some fm => _click_inline_button fm cb
               end
         | None => ret true
         end ;;
       if negb clicked then ret None
       else
         video_message <- _wait_for_video_response youtube_bot_username
                            (id sent_message) 30 false ;;
         match video_message with
         | Some (Single m) =>
             storage_message_id <- _upload_to_storage_channel m ;;
             ret (id_or_none storage_message_id)
         | Some (All _) => raise (PyError "AttributeError")
         | None => ret None
         end)
      (fun _ => ret None).

End WithConfig.

(* ------------------------------------------------------------------ *)
(** *** Captions *)

(** The credit line, as it stands in the source file: the bytes of
    U+6E38 U+B2CC, then the bot's name. *)
Definition credit : string :=
  string_of_list_ascii (map ascii_of_nat [230; 184; 184; 235; 139; 140]%nat)
  ++ " @BittadaBot tomonidan yuklab olindi".

(** ['@' in last_line or 'via' in last_line.lower() or 'by' in
    last_line.lower()] *)
Definition names_a_source (last_line : string) : bool :=
  (Text.contains "@" last_line
   || Text.contains "via" (Text.lower last_line)
   || Text.contains "by" (Text.lower last_line))%bool.

(** [_modify_twitter_caption(original_caption)] *)
Definition _modify_twitter_caption (original_caption : string) : string :=
  if String.eqb original_caption "" then credit
  else
    let lines := Text.split_lines original_caption in
    match lines with
    | [] => String.concat (String Text.LF "") [credit]
    | _ :: _ =>
        let last_line := Text.strip (last lines "") in
        let lines :=
          if names_a_source last_line
          then removelast lines ++ [String Text.LF credit]
          else lines ++ [String Text.LF credit] in
        String.concat (String Text.LF "") lines
    end.

(* ------------------------------------------------------------------ *)
(** *** What the user is choosing from *)

(** A Python [dict] with integer keys, the newest binding first. *)
Definition dict (V : Type) : Type := list (Z * V).

(** [d.get(k)] *)
Definition dict_get {V} (k : Z) (d : dict V) : option V :=
  match find (fun entry => fst entry =? k) d with
  | Some entry => Some (snd entry)
  | None => None
  end.

(** [d[k] = v] *)
Definition dict_set {V} (k : Z) (v : V) (d : dict V) : dict V :=
  (k, v) :: filter (fun entry => negb (fst entry =? k)) d.

(** The attributes of [DownloaderUserbot] that remember requests:
    [youtube_requests] maps a user to [(url, format_message)],
    [twitter_requests] maps a user to [(url, format_message,
    button_map)], where [button_map] maps an index to
    [(callback_data, button_text)]. *)
Record stores : Type := mkStores {
  youtube_requests : dict (string * message);
  twitter_requests : dict (string * message * dict (string * string))
}.

(** [store_youtube_request(user_id, url, format_message)] *)
Definition store_youtube_request (user_id : Z) (url : string) (format_message : message)
    (self : stores) : stores :=
  mkStores (dict_set user_id (url, format_message) (youtube_requests self))
           (twitter_requests self).

(** [get_stored_youtube_request(user_id)] *)
Definition get_stored_youtube_request (user_id : Z) (self : stores)
  : option (string * message) :=
  dict_get user_id (youtube_requests self).

(** The locals of the loop of [store_twitter_request]. *)
Record button_scan : Type := mkScan {
  button_texts : list string;
  button_map : dict (string * string);
  idx : Z
}.

(** The inner [for button in row.buttons] of [store_twitter_request]:
    the locals it leaves, and whether it raised. *)
Fixpoint scan_buttons (buttons : list button) (st : button_scan) : res unit * button_scan :=
  match buttons with
  | [] => (Ret tt, st)
  | button :: rest =>
      if has_data button then
        match decode (data button) with
        | Ret data =>
            scan_buttons rest
              (mkScan (button_texts st ++ [text button])
                      (dict_set (idx st) (data, text button) (button_map st))
                      (idx st + 1))
        | Raise e => (Raise e, st)
        | Pending => (Pending, st)
        end
      else scan_buttons rest st
  end.

(** The outer [for row in format_message.reply_markup.rows]. *)
Fixpoint scan_rows (rows : keyboard) (st : button_scan) : res unit * button_scan :=
  match rows with
  | [] => (Ret tt, st)
  | row :: rest =>
      match scan_buttons row st with
      | (Ret _, st') => scan_rows rest st'
      | stopped => stopped
      end
  end.

(** [store_twitter_request(user_id, url, format_message)]: the button
    texts it returns, and the object with the request stored.  Whether
    the scan of the keyboard raised or not, what it had gathered is
    stored and returned. *)
Definition store_twitter_request (user_id : Z) (url : string) (format_message : message)
    (self : stores) : list string * stores :=
  let st :=
    match reply_markup format_message with
    | None => mkScan [] [] 0
    | Some rows => snd (scan_rows rows (mkScan [] [] 0))
    end in
  (button_texts st,
   mkStores (youtube_requests self)
            (dict_set user_id (url, format_message, button_map st)
                      (twitter_requests self))).

(** [get_stored_twitter_request(user_id)] *)
Definition get_stored_twitter_request (user_id : Z) (self : stores)
  : option (string * message * dict (string * string)) :=
  dict_get user_id (twitter_requests self).

End Userbot.

(* ================================================================== *)
(** ** The cache table ([db/database.py]) *)

Module Database.

(** Where the SQLite layer fails during this operation. *)
Definition next_fault : M sql_fault :=
  fun w =>
    match db_faults w with
    | [] => (Ret NoFault, w)
    | f :: rest => (Ret f, set_db_faults rest w)
    end.

Definition fault_eqb (a b : sql_fault) : bool :=
  match a, b with
  | NoFault, NoFault | FailConnect, FailConnect | FailExecute, FailExecute
  | FailCommit, FailCommit | FailClose, FailClose => true
  | _, _ => false
  end.

Definition fail_when (b : bool) : M unit :=
  if b then raise (PyError "OperationalError") else ret tt.

(** [aiosqlite.connect(...)], [db.execute(...)], [db.commit()] and the
    closing of the connection when the [async with] block is left. *)
Definition connect (f : sql_fault) : M unit := fail_when (fault_eqb f FailConnect).
Definition execute (f : sql_fault) : M unit := fail_when (fault_eqb f FailExecute).
Definition commit (f : sql_fault) : M unit := fail_when (fault_eqb f FailCommit).
Definition close (f : sql_fault) : M unit := fail_when (fault_eqb f FailClose).

(** [async with aiosqlite.connect(...) as db: body] *)
Definition with_connection {A} (f : sql_fault) (body : M A) : M A :=
  connect f ;;;
  a <- body ;;
  close f ;;;
  ret a.

Definition get_db : M database := fun w => (Ret (db w), w).

Definition put_db (d : database) : M unit := fun w => (Ret tt, set_db d w).

(** [SELECT ... FROM videos WHERE url = ?] and [fetchone()] *)
Definition select_video (u : string) (d : database) : option video_row :=
  find (fun r => String.eqb (video_url r) u) (videos d).

(** [INSERT INTO videos (url, channel_message_id, platform)]: the
    [UNIQUE] constraint on [url] rejects a second row for a URL. *)
Definition insert_video (f : sql_fault) (row : video_row) : M unit :=
  execute f ;;;
  d <- get_db ;;
  match select_video (video_url row) d with
  | Some _ => raise IntegrityError
  | None => ret tt
  end.

(** [_update_daily_stats(db, platform)]: it touches the [daily_stats]
    table only, which the model leaves out, and catches its own faults. *)
Definition _update_daily_stats (f : sql_fault) (platform : string) : M unit :=
  try_except (execute f ;;; commit f) (fun _ => ret tt).

(** [add_video(url, channel_message_id, platform)] *)
Definition add_video (u : string) (channel_message_id : Z) (platform : string) : M bool :=
  try_except
    (f <- next_fault ;;
     with_connection f
       (execute f ;;;
        now <- time ;;
        let row := mkVideo u channel_message_id platform now in
        insert_video f row ;;;
        commit f ;;;
        d <- get_db ;;
        put_db (mkDatabase (videos d ++ [row]) (users d)) ;;;
        _update_daily_stats f platform ;;;
        ret true))
    (fun e =>
       match e with
       | IntegrityError => ret false
       | _ => ret false
       end).

(** [get_video(url)] *)
Definition get_video (u : string) : M (option (Z * Z)) :=
  try_except
    (f <- next_fault ;;
     with_connection f
       (execute f ;;;
        execute f ;;;
        d <- get_db ;;
        match select_video u d with
        | Some row => ret (Some (channel_message_id row, timestamp row))
        | None => ret None
        end))
    (fun _ => ret None).

(** [get_video_count()] *)
Definition get_video_count : M Z :=
  try_except
    (f <- next_fault ;;
     with_connection f
       (execute f ;;;
        d <- get_db ;;
        ret (Z.of_nat (List.length (videos d)))))
    (fun _ => ret 0).

(** [get_total_users_count()] *)
Definition get_total_users_count : M Z :=
  try_except
    (f <- next_fault ;;
     with_connection f
       (execute f ;;;
        d <- get_db ;;
        ret (Z.of_nat (List.length (users d)))))
    (fun _ => ret 0).

(** [get_all_users()] *)
Definition get_all_users : M (list Z) :=
  try_except
    (f <- next_fault ;;
     with_connection f
       (execute f ;;;
        d <- get_db ;;
        ret (map uid (users d))))
    (fun _ => ret []).

(** [increment_user_downloads(user_id)] *)
Definition increment_user_downloads (user_id : Z) : M unit :=
  try_except
    (f <- next_fault ;;
     with_connection f
       (execute f ;;;
        commit f ;;;
        d <- get_db ;;
        put_db (mkDatabase (videos d)
                  (map (fun r => if uid r =? user_id
                                 then mkUser (uid r) (total_downloads r + 1)
                                 else r) (users d)))))
    (fun _ => ret tt).

(** [_update_daily_new_users(db)]: like [_update_daily_stats], it
    touches the [daily_stats] table only and catches its own faults. *)
Definition _update_daily_new_users (f : sql_fault) : M unit :=
  try_except (execute f ;;; execute f ;;; commit f) (fun _ => ret tt).

(** [SELECT id FROM users WHERE id = ?] and [fetchone()] *)
Definition select_user (user_id : Z) (d : database) : option user_row :=
  find (fun r => uid r =? user_id) (users d).

(** [add_or_update_user(user_id, username, phone, first_name,
    last_name)]: the columns it updates for a known user are not among
    those of [user_row]; a new row has the default [total_downloads]. *)
Definition add_or_update_user (user_id : Z) : M bool :=
  try_except
    (f <- next_fault ;;
     with_connection f
       (execute f ;;;
        d <- get_db ;;
        match select_user user_id d with
        | Some _ =>
            execute f ;;;
            commit f ;;;
            ret true
        | None =>
            execute f ;;;
            _update_daily_new_users f ;;;
            commit f ;;;
            put_db (mkDatabase (videos d) (users d ++ [mkUser user_id 0])) ;;;
            ret true
        end))
    (fun _ => ret false).

(** [datetime('now', '-{} days'.format(days))] in seconds: a negative
    [days] gives the modifier two signs, which SQLite rejects, and the
    value is [NULL]. *)
Definition days_ago (now days : Z) : option Z :=
  if days <? 0 then None else Some (now - 86400 * days).

(** [timestamp < cutoff], which no row satisfies when [cutoff] is
    [NULL]. *)
Definition older_than (cutoff : option Z) (r : video_row) : bool :=
  match cutoff with
  | Some t => timestamp r <? t
  | None => false
  end.

(** [cleanup_old_records(days)] *)
Definition cleanup_old_records (days : Z) : M Z :=
  try_except
    (f <- next_fault ;;
     with_connection f
       (execute f ;;;
        now <- time ;;
        d <- get_db ;;
        let cutoff := days_ago now days in
        let deleted_count := Z.of_nat (List.length (filter (older_than cutoff) (videos d))) in
        commit f ;;;
        put_db (mkDatabase (filter (fun r => negb (older_than cutoff r)) (videos d))
                           (users d)) ;;;
        ret deleted_count))
    (fun _ => ret 0).

(** [COUNT( * )] of one group of [GROUP BY platform]. *)
Definition count_platform (p : string) (rows : list video_row) : Z :=
  Z.of_nat (List.length (filter (fun r => String.eqb (platform r) p) rows)).

(** [SELECT platform, COUNT( * ) FROM videos GROUP BY platform]: one
    row for each platform that occurs. *)
Definition group_by_platform (rows : list video_row) : list (string * Z) :=
  map (fun p => (p, count_platform p rows)) (nodup string_dec (map platform rows)).

(** [get_platform_stats()]: the [dict] it builds, as the list of its
    items. *)
Definition get_platform_stats : M (list (string * Z)) :=
  try_except
    (f <- next_fault ;;
     with_connection f
       (execute f ;;;
        d <- get_db ;;
        ret (group_by_platform (videos d))))
    (fun _ => ret []).

(** [stats.get(platform)] *)
Definition stats_get (p : string) (stats : list (string * Z)) : option Z :=
  match find (fun item => String.eqb (fst item) p) stats with
  | Some item => Some (snd item)
  | None => None
  end.

End Database.

(* ================================================================== *)
(** ** The mandatory channels ([db/database.py]) *)

Module Channels.

(** A row of the [mandatory_channels] table; [channel_id] is [UNIQUE],
    [is_active] is 1 by default. *)
Record channel_row : Type := mkChannel {
  channel_id : string;
  channel_type : string;
  channel_username : option string;
  channel_title : option string;
  invite_link : option string;
  is_active : bool
}.

(** An operation on the table: what it gives, and the table it leaves. *)
Definition Sql (A : Type) : Type := list channel_row -> res A * list channel_row.

Definition ret {A} (a : A) : Sql A := fun t => (Ret a, t).

Definition raise {A} (e : exn) : Sql A := fun t => (Raise e, t).

Definition bind {A B} (m : Sql A) (k : A -> Sql B) : Sql B :=
  fun t =>
    match m t with
    | (Ret a, t') => k a t'
    | (Raise e, t') => (Raise e, t')
    | (Pending, t') => (Pending, t')
    end.

Definition try_except {A} (m : Sql A) (handler : exn -> Sql A) : Sql A :=
  fun t =>
    match m t with
    | (Raise e, t') => handler e t'
    | r => r
    end.

Declare Scope sql_scope.
Notation "x <- m ;; k" := (bind m (fun x => k))
  (at level 61, m at next level, right associativity) : sql_scope.
Notation "m ;;; k" := (bind m (fun _ => k))
  (at level 61, right associativity) : sql_scope.
#[local] Open Scope sql_scope.

Definition get_table : Sql (list channel_row) := fun t => (Ret t, t).

Definition put_table (t : list channel_row) : Sql unit := fun _ => (Ret tt, t).

Definition fail_when (b : bool) : Sql unit :=
  if b then raise (PyError "OperationalError") else ret tt.

(** The statements of the SQLite layer, failing where [f] says. *)
Definition connect (f : sql_fault) : Sql unit := fail_when (Database.fault_eqb f FailConnect).
Definition execute (f : sql_fault) : Sql unit := fail_when (Database.fault_eqb f FailExecute).
Definition commit (f : sql_fault) : Sql unit := fail_when (Database.fault_eqb f FailCommit).
Definition close (f : sql_fault) : Sql unit := fail_when (Database.fault_eqb f FailClose).

(** [async with aiosqlite.connect(...) as db: body] *)
Definition with_connection {A} (f : sql_fault) (body : Sql A) : Sql A :=
  connect f ;;;
  a <- body ;;
  close f ;;;
  ret a.

(** [WHERE channel_id = ?] *)
Definition has_id (cid : string) (r : channel_row) : bool := String.eqb (channel_id r) cid.

(** [add_mandatory_channel(channel_id, channel_type, channel_username,
    channel_title, invite_link)]: the [UNIQUE] constraint rejects a
    second row for a channel id. *)
Definition add_mandatory_channel (f : sql_fault) (cid ctype : string)
    (username title link : option string) : Sql bool :=
  try_except
    (with_connection f
       (execute f ;;;
        t <- get_table ;;
        (if existsb (has_id cid) t then raise IntegrityError else ret tt) ;;;
        commit f ;;;
        put_table (t ++ [mkChannel cid ctype username title link true]) ;;;
        ret true))
    (fun _ => ret false).

(** [get_mandatory_channels()] *)
Definition get_mandatory_channels (f : sql_fault) : Sql (list channel_row) :=
  try_except
    (with_connection f
       (execute f ;;;
        t <- get_table ;;
        ret (filter is_active t)))
    (fun _ => ret []).

(** [SET is_active = 0] *)
Definition deactivate (r : channel_row) : channel_row :=
  mkChannel (channel_id r) (channel_type r) (channel_username r) (channel_title r)
            (invite_link r) false.

(** [remove_mandatory_channel(channel_id)]: [cursor.rowcount] counts
    the rows of the channel id, active or not. *)
Definition remove_mandatory_channel (f : sql_fault) (cid : string) : Sql bool :=
  try_except
    (with_connection f
       (execute f ;;;
        t <- get_table ;;
        let rowcount := List.length (filter (has_id cid) t) in
        commit f ;;;
        put_table (map (fun r => if has_id cid r then deactivate r else r) t) ;;;
        ret (Nat.ltb 0 rowcount)))
    (fun _ => ret false).

(** [get_mandatory_channels_count()] *)
Definition get_mandatory_channels_count (f : sql_fault) : Sql Z :=
  try_except
    (with_connection f
       (execute f ;;;
        t <- get_table ;;
        ret (Z.of_nat (List.length (filter is_active t)))))
    (fun _ => ret 0).

End Channels.

(* ================================================================== *)
(** ** The processing queue and its worker ([bot/handlers.py]) *)

Module Handlers.

Section WithConfig.
Variable cfg : config.

(** Reading and writing the module's globals. *)
Definition get_globals : M globals := fun w => (Ret (handlers w), w).

Definition put_globals (g : globals) : M unit := fun w => (Ret tt, set_handlers g w).

(** Writing an attribute of the shared request object [h]. *)
Fixpoint update_nth {A} (n : nat) (f : A -> A) (l : list A) : list A :=
  match l, n with
  | [], _ => []
  | x :: l', O => f x :: l'
  | x :: l', S n' => x :: update_nth n' f l'
  end.

Definition update_request (h : nat) (f : ProcessingRequest -> ProcessingRequest) : M unit :=
  g <- get_globals ;;
  put_globals (mkGlobals (update_nth h f (requests g)) (processing_queue g)
                         (current_processing_user g) (processing_workers_started g)
                         (worker_tasks g)).

Definition get_request (h : nat) : M ProcessingRequest :=
  g <- get_globals ;;
  match nth_error (requests g) h with
  | Some req => ret req
  | None => raise (PyError "AttributeError")
  end.

Definition set_result (r : option Z) (q : ProcessingRequest) : ProcessingRequest :=
  mkRequest (user_id q) (chat_type q) (url q) (url_type q) (loading_message q)
            (completed q) r (error q).

Definition set_error (e : string) (q : ProcessingRequest) : ProcessingRequest :=
  mkRequest (user_id q) (chat_type q) (url q) (url_type q) (loading_message q)
            (completed q) (result q) (Some e).

Definition set_completed (q : ProcessingRequest) : ProcessingRequest :=
  mkRequest (user_id q) (chat_type q) (url q) (url_type q) (loading_message q)
            true (result q) (error q).

Definition set_loading_message (q : ProcessingRequest) : ProcessingRequest :=
  mkRequest (user_id q) (chat_type q) (url q) (url_type q) true
            (completed q) (result q) (error q).

Definition set_current_processing_user (u : option Z) : M unit :=
  g <- get_globals ;;
  put_globals (mkGlobals (requests g) (processing_queue g) u
                         (processing_workers_started g) (worker_tasks g)).

Definition set_task (i : nat) (t : option nat) : M unit :=
  g <- get_globals ;;
  put_globals (mkGlobals (requests g) (processing_queue g) (current_processing_user g)
                         (processing_workers_started g)
                         (update_nth i (fun _ => t) (worker_tasks g))).

(** [start_processing_workers()]: the first call creates the one task
    that runs [process_queue_worker]. *)
Definition start_processing_workers : M unit :=
  g <- get_globals ;;
  if negb (processing_workers_started g) then
    put_globals (mkGlobals (requests g) (processing_queue g) (current_processing_user g)
                           true (worker_tasks g ++ [None]))
  else ret tt.

(** Bot API calls of the front end; the texts are abbreviated. *)
Definition reply (body : string) : M unit := request (BotReply body) ;;; ret tt.

Definition is_private (q : ProcessingRequest) : bool := String.eqb (chat_type q) "private".

(** [queue_processing_request(user_id, message, url, url_type, userbot, db)];
    the handle returned is the request object. *)
Definition queue_processing_request (user_id : Z) (chat_type url url_type : string) : M nat :=
  start_processing_workers ;;;
  g <- get_globals ;;
  let h := List.length (requests g) in
  let req := mkRequest user_id chat_type url url_type false false None None in
  put_globals (mkGlobals (requests g ++ [req]) (processing_queue g)
                         (current_processing_user g) (processing_workers_started g)
                         (worker_tasks g)) ;;;
  let queue_size := List.length (processing_queue g) in
  (if is_private req then reply "loading" else reply "loading, with the user's name") ;;;
  update_request h set_loading_message ;;;
  (if (Nat.ltb 0 queue_size && is_private req)%bool then reply "added to the queue"
   else ret tt) ;;;
  g' <- get_globals ;;
  put_globals (mkGlobals (requests g') (processing_queue g' ++ [h])
                         (current_processing_user g') (processing_workers_started g')
                         (worker_tasks g')) ;;;
  ret h.

(** [await processing_queue.get()]: the oldest request; on an empty
    queue the worker waits. *)
Definition queue_get : M nat :=
  g <- get_globals ;;
  match processing_queue g with
  | [] => pending
  | h :: rest =>
      put_globals (mkGlobals (requests g) rest (current_processing_user g)
                             (processing_workers_started g) (worker_tasks g)) ;;;
      ret h
  end.

(** The [if request.url_type == ...] chain. *)
Definition dispatch (req : ProcessingRequest) : M (option Z) :=
  if String.eqb (url_type req) "instagram" then Userbot.process_instagram_url cfg (url req)
  else if String.eqb (url_type req) "tiktok" then Userbot.process_tiktok_url cfg (url req) 60
  else if String.eqb (url_type req) "facebook" then Userbot.process_facebook_url cfg (url req) 60
  else if String.eqb (url_type req) "twitter"
       then Userbot.process_twitter_url cfg (url req) None 60 None
  else ret None.

(** [send_processed_result(request)] *)
Definition send_processed_result (h : nat) : M unit :=
  req <- get_request h ;;
  try_except
    (match result req with
     | Some storage_message_id => request (BotCopyMessage storage_message_id) ;;; ret tt
     | None => raise (PyError "TypeError")
     end)
    (fun _ => reply "processed, but could not be sent").

(** The [if storage_message_id: ... else: ...] of the worker: cache,
    count and deliver the result, or tell the user of the failure. *)
Definition deliver (h : nat) (req : ProcessingRequest) (storage_message_id : option Z)
  : M unit :=
  match Userbot.id_or_none storage_message_id with
  | Some n =>
      Database.add_video (url req) n (url_type req) ;;;
      Database.increment_user_downloads (user_id req) ;;;
      send_processed_result h
  | None => reply "could not be processed"
  end.

(** [if hasattr(request, 'loading_message') and request.loading_message:]
    delete it, a failure being logged only. *)
Definition delete_loading_message (h : nat) : M unit :=
  req' <- get_request h ;;
  if loading_message req'
  then try_except (request BotDelete ;;; ret tt) (fun _ => ret tt)
  else ret tt.

(** The inner [except Exception as e] of the worker. *)
Definition report_error (h : nat) (e : exn) : M unit :=
  update_request h (set_error (Userbot.str_of_exn e)) ;;;
  reply "an error occurred".

(** The inner [try] of [process_queue_worker] with its [except]. *)
Definition worker_process (h : nat) : M unit :=
  try_except
    (req <- get_request h ;;
     storage_message_id <- dispatch req ;;
     update_request h (set_result storage_message_id) ;;;
     deliver h req storage_message_id ;;;
     delete_loading_message h)
    (report_error h).

(** From [processing_queue.get()] to the start of the processing. *)
Definition worker_take : M nat :=
  h <- queue_get ;;
  req <- get_request h ;;
  set_current_processing_user (Some (user_id req)) ;;;
  ret h.

(** The processing of request [h], [request.completed.set()] and the
    clearing of [current_processing_user]. *)
Definition worker_finish (h : nat) : M unit :=
  worker_process h ;;;
  update_request h set_completed ;;;
  set_current_processing_user None.

(** The two halves of one turn of the [while True] loop of worker task
    [i]; other coroutines run between them (and at every [await]). *)
Definition worker_dequeue (i : nat) : M nat :=
  h <- worker_take ;;
  set_task i (Some h) ;;;
  ret h.

(** The rest of the turn, under the outer [except Exception], which
    pauses a second. *)
Definition worker_complete (i h : nat) : M unit :=
  try_except (worker_finish h) (fun _ => sleep 1) ;;;
  set_task i None.

(** [n] turns of [process_queue_worker] with nothing else running. *)
Fixpoint process_queue_worker (n : nat) (i : nat) : M unit :=
  match n with
  | O => ret tt
  | S n' =>
      h <- worker_dequeue i ;;
      worker_complete i h ;;;
      process_queue_worker n' i
  end.

(** What the tail of [handle_text] did with a URL. *)
Inductive handled : Type :=
| SentFromCache (channel_message_id : Z)
| Queued (h : nat)
| FormatMenu
| Rejected.

(** [s in l] *)
Definition one_of (s : string) (l : list string) : bool := existsb (String.eqb s) l.

(** The tail of [handle_text], from the cache lookup on.  The format
    menus of YouTube and Twitter ([show_youtube_formats],
    [show_twitter_formats]) are not part of the model. *)
Definition handle_text (user_id : Z) (chat_type normalized_url url_type : string)
  : M handled :=
  existing_video <-
    (if one_of url_type ["instagram"; "tiktok"; "facebook"; "twitter"]
     then Database.get_video normalized_url
     else ret None) ;;
  match existing_video with
  | Some (channel_message_id, _) =>
      try_except (request (BotCopyMessage channel_message_id) ;;; ret tt)
                 (fun _ => reply "could not fetch the video") ;;;
      ret (SentFromCache channel_message_id)
  | None =>
      if one_of url_type ["instagram"; "tiktok"; "facebook"] then
        h <- queue_processing_request user_id chat_type normalized_url url_type ;;
        ret (Queued h)
      else if one_of url_type ["youtube"; "twitter"] then ret FormatMenu
      else reply "could not be processed" ;;; ret Rejected
  end.

(* ------------------------------------------------------------------ *)
(** *** Interleavings of submitters and worker tasks *)

(** What the scheduler lets happen next: a handler submits a request;
    worker task [i] takes the oldest request; worker task [i] runs the
    request it holds to the end; anything else in the process runs (it
    may change the world, but not the queue's globals). *)
Inductive action : Type :=
| DoSubmit (user_id : Z) (chat_type url url_type : string)
| DoBegin (i : nat)
| DoEnd (i : nat)
| DoOther (f : world -> world).

(** What an observer sees of the queue. *)
Inductive label : Type :=
| Submit (h : nat)
| Begin (h : nat)
| End (h : nat).

(** One action, with the labels it adds to the trace.  An action that
    cannot happen in the state (a task that is not waiting asked to
    take, an empty queue, a task that holds nothing asked to finish)
    leaves everything as it is. *)
Definition run_action (a : action) (st : world * list label) : world * list label :=
  let (w, t) := st in
  match a with
  | DoSubmit user_id chat_type url url_type =>
      match queue_processing_request user_id chat_type url url_type w with
      | (Ret h, w') => (w', (t ++ [Submit h])%list)
      | (_, w') => (w', t)
      end
  | DoBegin i =>
      match nth_error (worker_tasks (handlers w)) i with
      | Some None =>
          match worker_dequeue i w with
          | (Ret h, w') => (w', (t ++ [Begin h])%list)
          | (_, _) => (w, t)
          end
      | _ => (w, t)
      end
  | DoEnd i =>
      match nth_error (worker_tasks (handlers w)) i with
      | Some (Some h) => (snd (worker_complete i h w), (t ++ [End h])%list)
      | _ => (w, t)
      end
  | DoOther f => (set_handlers (handlers w) (f w), t)
  end.

Definition run_schedule (s : list action) (w : world) : world * list label :=
  fold_left (fun st a => run_action a st) s (w, []).

(** The state of [bot/handlers.py] when the module is loaded. *)
Definition initial_globals : globals := mkGlobals [] [] None false [].

End WithConfig.

(* ------------------------------------------------------------------ *)
(** *** Choosing a format *)

Section Formats.
Variable cfg : config.

(** The Bot API calls that show a text to the user
    ([callback_query.answer], [message.edit_text], [message.reply]) are
    logged alike, their texts abbreviated. *)
Definition edit_text (body : string) : M unit := request (BotReply body) ;;; ret tt.

(** [message.bot.copy_message(chat_id, from_chat_id=STORAGE_CHANNEL_ID,
    message_id)] *)
Definition copy_message (message_id : Z) : M unit :=
  request (BotCopyMessage message_id) ;;; ret tt.

(** [safe_answer_callback_query(callback_query, text, show_alert)] *)
Definition safe_answer_callback_query (body : string) : M unit :=
  try_except (request (BotReply body) ;;; ret tt) (fun _ => ret tt).

(** The loop of [show_twitter_formats] that mirrors the responder's
    buttons, three to a row; it leaves [(mirrored_buttons, row)]. *)
Fixpoint mirror_rows (button_texts : list string) (idx : Z) (row : list button)
    (mirrored_buttons : keyboard) : keyboard * list button :=
  match button_texts with
  | [] => (mirrored_buttons, row)
  | text :: rest =>
      let row := row ++ [mkButton text (Token ("tw_" ++ Text.str idx)%string)] in
      if Nat.eqb (List.length row) 3
      then mirror_rows rest (idx + 1) [] (mirrored_buttons ++ [row])
      else mirror_rows rest (idx + 1) row mirrored_buttons
  end.

(** The keyboard [show_twitter_formats] shows for [button_texts]. *)
Definition mirrored_keyboard (button_texts : list string) : keyboard :=
  let (mirrored_buttons, row) := mirror_rows button_texts 0 [] [] in
  match row with
  | [] => mirrored_buttons
  | _ :: _ => mirrored_buttons ++ [row]
  end.

(** The part of [handle_twitter_format_callback] that follows the
    lookup of the chosen button: answer from the cache, or let the user
    session click the button and fetch the media. *)
Definition twitter_selection (url callback_data button_text : string) (user_id : Z)
  : M unit :=
  let cache_key := (url ++ "#" ++ Text.strip button_text)%string in
  existing_video <- Database.get_video cache_key ;;
  match existing_video with
  | Some (channel_message_id, _) =>
      try_except (edit_text "sending from the cache") (fun _ => ret tt) ;;;
      try_except (copy_message channel_message_id)
                 (fun _ => reply "could not be sent from the cache")
  | None =>
      try_except (edit_text "downloading the format") (fun _ => ret tt) ;;;
      storage_message_id <-
        Userbot.process_twitter_url cfg url (Some callback_data) 90 None ;;
      match Userbot.id_or_none storage_message_id with
      | Some n =>
          Database.add_video cache_key n "twitter" ;;;
          Database.increment_user_downloads user_id ;;;
          try_except (edit_text "downloaded") (fun _ => ret tt) ;;;
          try_except (copy_message n) (fun _ => reply "the file could not be sent")
      | None => edit_text "the format could not be downloaded"
      end
  end.

(** [handle_twitter_format_callback(callback_query, userbot, db)], for
    the callback data [data] of user [user_id]; [self] is the userbot. *)
Definition handle_twitter_format_callback (self : Userbot.stores) (data : string)
    (user_id : Z) : M unit :=
  try_except
    (match Text.after_first "_" data with
     | None => raise (PyError "IndexError")
     | Some idx_str =>
         if negb (Text.isdigit idx_str)
         then safe_answer_callback_query "wrong format choice"
         else
           match Text.py_int idx_str with
           | None => raise (PyError "ValueError")
           | Some idx =>
               safe_answer_callback_query "format chosen" ;;;
               match Userbot.get_stored_twitter_request user_id self with
               | None => edit_text "session expired"
               | Some (url, _, button_map) =>
                   match Userbot.dict_get idx button_map with
                   | None => edit_text "the chosen format was not found"
                   | Some (callback_data, button_text) =>
                       twitter_selection url callback_data button_text user_id
                   end
               end
           end
     end)
    (fun _ => try_except (edit_text "unexpected error") (fun _ => ret tt)).

(** The delivery of a cached YouTube file: in a group the copy is tried
    a second time. *)
Definition send_cached (chat_type : string) (channel_message_id : Z) : M unit :=
  try_except
    (if String.eqb chat_type "private" then copy_message channel_message_id
     else try_except (copy_message channel_message_id)
                     (fun _ => copy_message channel_message_id))
    (fun _ => reply "found in the cache, but could not be sent").

(** [handle_youtube_format_callback(callback_query, userbot, db)] *)
Definition handle_youtube_format_callback (self : Userbot.stores) (data : string)
    (user_id : Z) (chat_type : string) : M unit :=
  match nth_error (Text.split "_" data) 1 with
  | None => raise (PyError "IndexError")
  | Some selected_format =>
      safe_answer_callback_query "format chosen" ;;;
      match Userbot.get_stored_youtube_request user_id self with
      | None => edit_text "session expired"
      | Some (url, format_message) =>
          let cache_key := (url ++ "#" ++ selected_format)%string in
          existing_video <- Database.get_video cache_key ;;
          match existing_video with
          | Some (channel_message_id, _) =>
              edit_text "found in the cache" ;;;
              send_cached chat_type channel_message_id
          | None =>
              try_except
                (edit_text "downloading" ;;;
                 match Userbot.find_matching_format_callback
                         (reply_markup format_message) selected_format with
                 | None => edit_text "the format was not found"
                 | Some target_callback_data =>
                     if String.eqb target_callback_data ""
                     then edit_text "the format was not found"
                     else
                       storage_message_id <-
                         Userbot.process_youtube_url cfg url (Some target_callback_data) 60 ;;
                       match Userbot.id_or_none storage_message_id with
                       | Some n =>
                           Database.add_video cache_key n "youtube" ;;;
                           Database.increment_user_downloads user_id ;;;
                           edit_text "downloaded" ;;;
                           try_except (copy_message n)
                                      (fun _ => reply "downloaded, but could not be sent")
                       | None => edit_text "the download failed"
                       end
                 end)
                (fun _ => edit_text "unexpected error")
          end
      end
  end.

(** What [show_twitter_formats] has of the responder's format message:
    the button texts [store_twitter_request] returns, and the userbot
    it leaves; no message, or one without a keyboard, stores nothing. *)
Definition offered (self : Userbot.stores) (user_id : Z) (url : string)
    (format_message : option message) : list string * Userbot.stores :=
  match format_message with
  | Some fm =>
      match reply_markup fm with
      | Some _ => Userbot.store_twitter_request user_id url fm self
      | None => ([], self)
      end
  | None => ([], self)
  end.

(** [show_twitter_formats(message, url, userbot, db)] for the message
    of user [user_id].  The userbot is left as [snd (offered ...)] of
    the format message; the keyboard sent with the last reply is
    [mirrored_keyboard button_texts]. *)
Definition show_twitter_formats (self : Userbot.stores) (user_id : Z) (url : string)
  : M unit :=
  try_except
    (sent_msg <- send_message (Userbot.twitter_bot_username cfg) url ;;
     format_message <-
       Userbot._wait_for_format_message (Userbot.twitter_bot_username cfg) (id sent_msg) 8 ;;
     let button_texts := fst (offered self user_id url format_message) in
     match button_texts with
     | [] =>
         storage_message_id <-
           Userbot.process_twitter_url cfg url None 90 (Some (id sent_msg)) ;;
         match Userbot.id_or_none storage_message_id with
         | Some n =>
             try_except
               (Database.add_video url n "twitter" ;;;
                Database.increment_user_downloads user_id)
               (fun _ => ret tt) ;;;
             try_except (copy_message n) (fun _ => reply "the file could not be sent")
         | None => reply "no media could be fetched"
         end
     | _ :: _ => reply "choose the format"
     end)
    (fun _ => reply "the formats could not be shown").

End Formats.

(** The requests submitted, begun and ended in a trace, in order. *)
Definition submitted (t : list label) : list nat :=
  flat_map (fun l => match l with Submit h => [h] | _ => [] end) t.

Definition begun (t : list label) : list nat :=
  flat_map (fun l => match l with Begin h => [h] | _ => [] end) t.

Definition ended (t : list label) : list nat :=
  flat_map (fun l => match l with End h => [h] | _ => [] end) t.

(** The requests held by worker tasks. *)
Definition running (g : globals) : list nat :=
  flat_map (fun task => match task with Some h => [h] | None => [] end) (worker_tasks g).

(** [x] occurs in [t] and [y] occurs later. *)
Definition precedes {A} (x y : A) (t : list A) : Prop :=
  exists t1 t2 t3, t = (t1 ++ x :: t2 ++ y :: t3)%list.

End Handlers.

(* ================================================================== *)
(** ** The format negotiator seen as offers *)

(** A format offer: the label shown and the token that selects it. *)
Record FormatOffer : Type := mkOffer {
  label : string;
  token : string
}.

Definition offer_of (b : button) : list FormatOffer :=
  match data b with
  | Token s => [mkOffer (text b) s]
  | _ => []
  end.

(** The offers of a keyboard, row by row. *)
Definition offers (rows : keyboard) : list FormatOffer :=
  flat_map offer_of (List.concat rows).

(** No button carries bytes that do not decode. *)
Definition good_data (b : button) : bool :=
  match data b with
  | BadBytes => false
  | _ => true
  end.

Definition decodable (rows : keyboard) : bool :=
  forallb good_data (List.concat rows).

(** The label contains, whatever the case, a keyword of the format. *)
Definition keyword_hit (desired : string) (o : FormatOffer) : bool :=
  existsb (fun k => Text.contains (Text.lower k) (Text.lower (label o)))
          (Userbot.format_patterns desired).

(** The label contains an audio word. *)
Definition audio_hit (o : FormatOffer) : bool :=
  Text.any_in Userbot.audio_words (Text.lower (label o)).

(** The three or four digit number read off the label. *)
Definition label_number (o : FormatOffer) : option Z :=
  Text.search_resolution (Text.lower (label o)).

(** What the closest-resolution pass holds after the buttons [seen]. *)
Definition closest_inv (target : Z) (seen : list button)
    (acc : option button * option Z) : Prop :=
  match acc with
  | (None, None) =>
      forall b, In b seen -> has_data b = true ->
                Text.search_resolution (Text.lower (text b)) = None
  | (Some b, Some d) =>
      In b seen /\ has_data b = true /\
      (exists n, Text.search_resolution (Text.lower (text b)) = Some n
                 /\ d = Z.abs (n - target)) /\
      (forall b' n', In b' seen -> has_data b' = true ->
                     Text.search_resolution (Text.lower (text b')) = Some n' ->
                     d <= Z.abs (n' - target))
  | _ => False
  end.

(* ================================================================== *)
(** ** Polling seen from outside *)

(** The messages a wait handed back. *)
Definition found_messages (f : Userbot.found) : list message :=
  match f with
  | Userbot.Single m => [m]
  | Userbot.All l => l
  end.

(** The scripted answer holds no media message that
    [_wait_for_video_response] would take for [bot_username] above the
    watermark (an answer that is no message list holds none). *)
Definition quiet_video (cfg : config) (bot_username : string) (sent_message_id : Z)
    (r : reply) : Prop :=
  match r with
  | Gives (VMessages l) =>
      Userbot.scan_media cfg bot_username sent_message_id (firstn 10 l) [] = []
  | _ => True
  end.

(** The same for [_wait_for_twitter_response]. *)
Definition quiet_twitter (sent_message_id : Z) (r : reply) : Prop :=
  match r with
  | Gives (VMessages l) =>
      fst (Userbot.scan_twitter sent_message_id (firstn 20 l) ([], [])) = []
  | _ => True
  end.

(** The message is newer than the watermark. *)
Definition above (sent_message_id : Z) (m : message) : Prop := sent_message_id < id m.

(* ================================================================== *)
(** ** What a coroutine leaves alone, and whether it ends *)

(** Running [m] takes every world to one related to it by [R]. *)
Definition keeps (R : world -> world -> Prop) {A} (m : M A) : Prop :=
  forall w, R w (snd (m w)).

(** Running [m] comes to an end in every world: it returns or raises. *)
Definition settles {A} (m : M A) : Prop :=
  forall w, fst (m w) <> Pending.

(** The session flag is the one before. *)
Definition same_session (w w' : world) : Prop := is_authenticated w' = is_authenticated w.

(** The database file and the faults ahead are the ones before. *)
Definition same_cache (w w' : world) : Prop :=
  db w' = db w /\ db_faults w' = db_faults w.

(** The rows of the cache table are the ones before. *)
Definition same_videos (w w' : world) : Prop := videos (db w') = videos (db w).

(** The queue, the worker tasks and the number of requests are the ones
    before. *)
Definition same_queue (w w' : world) : Prop :=
  processing_queue (handlers w') = processing_queue (handlers w)
  /\ worker_tasks (handlers w') = worker_tasks (handlers w)
  /\ processing_workers_started (handlers w') = processing_workers_started (handlers w)
  /\ List.length (requests (handlers w')) = List.length (requests (handlers w)).

(* ================================================================== *)
(** ** Traces of the queue *)

(** What holds of the globals [g] after every trace [t] of the queue:
    the requests submitted are those begun followed by those waiting,
    in order; the requests begun are those ended followed by the one
    being processed, if any; there is at most one worker task, and none
    before the first submission; the handles submitted are distinct
    requests of the store. *)
Definition queue_invariant (g : globals) (t : list Handlers.label) : Prop :=
  Handlers.submitted t = Handlers.begun t ++ processing_queue g
  /\ Handlers.begun t = Handlers.ended t ++ Handlers.running g
  /\ (List.length (worker_tasks g) <= 1)%nat
  /\ (processing_workers_started g = false -> worker_tasks g = [])
  /\ Forall (fun h => (h < List.length (requests g))%nat) (Handlers.submitted t)
  /\ NoDup (Handlers.submitted t).

(** In the trace every request submitted before another has ended
    before the other begins. *)
Definition fifo_order (t : list Handlers.label) : Prop :=
  forall a b,
    Handlers.precedes (Handlers.Submit a) (Handlers.Submit b) t ->
    In (Handlers.Begin b) t ->
    Handlers.precedes (Handlers.End a) (Handlers.Begin b) t.

(* ================================================================== *)
(** ** The cache seen from outside *)

(** Where the next database operation will fail. *)
Definition pending_fault (w : world) : sql_fault := hd NoFault (db_faults w).

(** The row the worker adds to the cache for request [req], given what
    the job returned and the world [w1] the job left: one row when the
    job returned a message id (not zero), the URL has no row yet and the
    insert gets as far as its commit; none otherwise. *)
Definition cached_rows (req : ProcessingRequest) (outcome : res (option Z)) (w1 : world)
  : list video_row :=
  match outcome with
  | Ret storage_message_id =>
      match Userbot.id_or_none storage_message_id with
      | Some n =>
          match Database.select_video (url req) (db w1), pending_fault w1 with
          | None, NoFault | None, FailClose =>
              [mkVideo (url req) n (url_type req) (clock w1)]
          | _, _ => []
          end
      | None => []
      end
  | _ => []
  end.

(** The calls of the log that went out through the user session, to a
    responder or the storage channel (the others are the bot's own). *)
Definition is_session_call (c : call) : bool :=
  match c with
  | BotReply _ | BotCopyMessage _ | BotDelete => false
  | _ => true
  end.

Definition session_calls (l : list call) : list call := filter is_session_call l.

(* ================================================================== *)
(** ** A deployment to run examples in *)

Definition example_config : config :=
  mkConfig "KeepMediaBot" "SaveYoutubeBot" "FacebookAsBot" "twittervid_bot".

Definition empty_database : database := mkDatabase [] [].

(** A process that has just started, its session authenticated, with
    the answers [s] scripted. *)
Definition fresh_world (s : list reply) : world :=
  mkWorld true true 0 s [] empty_database [] Handlers.initial_globals.

(** A video message with the given id. *)
Definition video_message (n : Z) : message :=
  mkMessage n true false false (Some "video/mp4") MediaFile "" None.

(** A plain text message with the given id. *)
Definition text_message (n : Z) (body : string) : message :=
  mkMessage n false false false None MediaNone body None.

(** The keyboard of the example: labels 360, 480 and 720. *)
Definition three_offers (t360 t480 t720 : string) : list button :=
  [mkButton "360" (Token t360); mkButton "480" (Token t480); mkButton "720" (Token t720)].

(** The answers of a reconnect as [_recover_session] asks for them:
    the disconnect (when connected), the connect, the authorization. *)
Definition reconnect_answers (was_connected : bool) (authorized : bool)
    (rest : list reply) : list reply :=
  (if was_connected then [Gives VNone] else []) ++
  Gives VNone :: Gives (VBool authorized) :: rest.

(** The world after a Facebook job in which the first send met the
    identity conflict, the reconnect went through with the session
    still authorized, and the retried send met the conflict again. *)
Definition after_two_faults : world :=
  snd (Userbot.process_facebook_url example_config "https://fb.watch/x" 60
         (fresh_world [Fails AuthKeyDuplicatedError; Gives VNone; Gives VNone;
                       Gives (VBool true); Fails AuthKeyDuplicatedError])).

(** Two users submit, the worker takes and finishes the first request
    and takes the second. *)
Definition two_submissions : list Handlers.action :=
  [Handlers.DoSubmit 1 "private" "https://instagram.com/p/a" "instagram";
   Handlers.DoSubmit 2 "private" "https://tiktok.com/v/b" "tiktok";
   Handlers.DoBegin 0; Handlers.DoEnd 0; Handlers.DoBegin 0].

(** What the Bot API raises when the user has blocked the bot. *)
Definition forbidden : exn := PyError "Forbidden: bot was blocked by the user".

(** Two requests wait in the queue.  The responder is rate limiting the
    session; the first user has blocked the bot, so both notices to that
    user fail; the second user's notice and the removal of the loading
    message go through. *)
Definition blocked_user_world : world :=
  mkWorld true true 0
    [Fails (FloodWaitError 30); Fails forbidden; Fails forbidden;
     Fails (FloodWaitError 30); Gives VNone; Gives VNone]
    [] empty_database []
    (mkGlobals
       [mkRequest 7 "private" "https://instagram.com/p/a" "instagram" true false None None;
        mkRequest 8 "private" "https://instagram.com/p/b" "instagram" true false None None]
       [0%nat; 1%nat] None true [None]).

(** The worker holds an Instagram request; the responder answers with
    one video, the upload to the storage channel gives message 500, and
    the delivery to the user goes through. *)
Definition success_world : world :=
  mkWorld true true 0
    [Gives (VMessage (text_message 9 "/start"));
     Gives (VMessage (text_message 10 "https://instagram.com/p/a"));
     Gives (VMessages [video_message 11]);
     Gives (VMessage (video_message 500));
     Gives VNone; Gives VNone]
    [] empty_database []
    (mkGlobals
       [mkRequest 7 "private" "https://instagram.com/p/a" "instagram" true false None None]
       [] (Some 7) true [Some 0%nat]).

(** A world whose cache holds one row. *)
Definition cached_world : world :=
  mkWorld true true 100 [] []
    (mkDatabase [mkVideo "https://instagram.com/p/a" 500 "instagram" 2] [mkUser 7 1])
    [] Handlers.initial_globals.

(* ================================================================== *)
(** ** What one poll of a responder holds *)

(** The test [_wait_for_video_response] puts a listed message to: newer
    than the watermark, a video or an audio when the responder is the
    YouTube one, and a video, a photo or an audio in any case. *)
Definition wanted_media (cfg : config) (bot_username : string) (sent_message_id : Z)
    (m : message) : bool :=
  ((sent_message_id <? id m)
   && negb (String.eqb bot_username (Userbot.youtube_bot_username cfg)
            && negb (Userbot.is_video m || Userbot.is_audio m))
   && (Userbot.is_video m || Userbot.is_photo m || Userbot.is_audio m))%bool.

(** [isinstance(message.media, MessageMediaWebPage)] *)
Definition is_link_preview (m : message) : bool :=
  match media m with
  | MediaWebPage => true
  | _ => false
  end.

(** The test of [_wait_for_twitter_response] for a media message. *)
Definition wanted_tweet (sent_message_id : Z) (m : message) : bool :=
  ((sent_message_id <? id m) && negb (is_link_preview m)
   && (Userbot.is_video m || Userbot.is_photo m))%bool.

(** The test of [_wait_for_twitter_response] for a text that tells of
    a failure. *)
Definition failure_notice (sent_message_id : Z) (m : message) : bool :=
  ((sent_message_id <? id m) && negb (is_link_preview m)
   && negb (Userbot.is_video m || Userbot.is_photo m)
   && negb (String.eqb (message_text m) "")
   && match media m with MediaNone => true | _ => false end
   && Text.any_in Userbot.failure_words (Text.lower (message_text m)))%bool.

(** The messages of a scripted answer as a poll with the given limit
    reads them. *)
Definition listed (limit : nat) (r : reply) : list message :=
  match r with
  | Gives (VMessages l) => firstn limit l
  | _ => []
  end.

(** The messages are in ascending order of their ids: none has a
    greater id than a message after it. *)
Fixpoint ascending (l : list message) : Prop :=
  match l with
  | [] => True
  | x :: l' => (forall y, In y l' -> id x <= id y) /\ ascending l'
  end.

(** What a poll hands back of the media messages [ms] it found, sorted:
    all of them, or the last one. *)
Definition pick (return_all : bool) (ms : list message) : option Userbot.found :=
  match ms with
  | [] => None
  | m :: ms' => Some (if return_all then Userbot.All ms else Userbot.Single (last ms' m))
  end.

(** The scripted answer holds no message that
    [_wait_for_format_message] would take above the watermark. *)
Definition quiet_format (sent_message_id : Z) (r : reply) : Prop :=
  find (fun m => ((sent_message_id <? id m) && Userbot.has_data_button m)%bool)
       (listed 10 r) = None.

(* ================================================================== *)
(** ** Jobs seen from outside *)

(** Whenever [m] returns a message id, the id is not zero and the last
    call that went out is the upload to the storage channel. *)
Definition archives (m : M (option Z)) : Prop :=
  forall w n w',
    m w = (Ret (Some n), w') ->
    n <> 0 /\ exists items older, log w' = SendFile items :: older.

(** An upload that returns an id has just sent the file. *)
Definition uploads (u : M (option Z)) : Prop :=
  forall w n w',
    u w = (Ret (Some n), w') -> exists items older, log w' = SendFile items :: older.

(* ================================================================== *)
(** ** The worker seen from outside *)

(** [total_downloads = total_downloads + 1] on the rows of user [u]. *)
Definition bump (u : Z) (r : user_row) : user_row :=
  if uid r =? u then mkUser (uid r) (total_downloads r + 1) else r.

(** The database file is the one before. *)
Definition same_db (w w' : world) : Prop := db w' = db w.

(** The [users] table is the one before. *)
Definition same_users (w w' : world) : Prop := users (db w') = users (db w).

(** No call went out and no global changed. *)
Definition silent (w w' : world) : Prop :=
  log w' = log w /\ script w' = script w /\ handlers w' = handlers w.

(** The calls made before are still the older part of the log. *)
Definition log_grows (w w' : world) : Prop := exists later, log w' = later ++ log w.

(** [current_processing_user] names the user of every request a worker
    task holds. *)
Definition tracks_request (g : globals) : Prop :=
  forall h, In h (Handlers.running g) ->
            exists req, nth_error (requests g) h = Some req
                        /\ current_processing_user g = Some (user_id req).

(** The notices [queue_processing_request] sends before it queues the
    request: the loading message, and the queue position in a private
    chat when requests are waiting. *)
Definition notices (chat_type : string) (g : globals) : list call :=
  BotReply (if String.eqb chat_type "private" then "loading"
            else "loading, with the user's name")
  :: (if (Nat.ltb 0 (List.length (processing_queue g)) && String.eqb chat_type "private")%bool
      then [BotReply "added to the queue"] else []).

(** The answer is a value, not an exception. *)
Definition gives (r : reply) : bool :=
  match r with
  | Gives _ => true
  | Fails _ => false
  end.

(* ================================================================== *)
(** ** Format choices seen from outside *)

(** The buttons a keyboard offers, as [(callback_data, text)], up to
    the first one whose data cannot be read. *)
Fixpoint readable (buttons : list button) : list (string * string) :=
  match buttons with
  | [] => []
  | b :: rest =>
      match data b with
      | NoData => readable rest
      | BadBytes => []
      | Token cb => (cb, text b) :: readable rest
      end
  end.

(** The choices a message offers. *)
Definition choices (m : message) : list (string * string) :=
  match reply_markup m with
  | None => []
  | Some rows => readable (List.concat rows)
  end.

(** The buttons shown for [texts], numbered from [i]. *)
Fixpoint numbered (i : nat) (texts : list string) : list button :=
  match texts with
  | [] => []
  | t :: rest =>
      mkButton t (Token ("tw_" ++ Text.str (Z.of_nat i))%string) :: numbered (S i) rest
  end.

(** The locals of the loop hold exactly the choices [l]. *)
Definition holds (st : Userbot.button_scan) (l : list (string * string)) : Prop :=
  Userbot.button_texts st = map snd l
  /\ Userbot.idx st = Z.of_nat (List.length l)
  /\ forall k, Userbot.dict_get k (Userbot.button_map st)
               = if k <? 0 then None else nth_error l (Z.to_nat k).

(** None of the buttons has data that cannot be decoded. *)
Definition all_read (buttons : list button) : bool :=
  forallb (fun b => match data b with BadBytes => false | _ => true end) buttons.

(* ================================================================== *)
(** ** Selections seen from outside *)

(** A call of the bot's own, through the Bot API. *)
Definition bot_call (c : call) : bool :=
  match c with
  | BotReply _ | BotCopyMessage _ | BotDelete => true
  | _ => false
  end.

(** From [w] to [w'] the calls [calls] were made, newest first, and
    the database is as before. *)
Definition adds (calls : list call) (w w' : world) : Prop :=
  log w' = calls ++ log w /\ db w' = db w /\ db_faults w' = db_faults w.

(** From [w] to [w'] at most one row was added to [videos], for [key]
    on [platform] with a message id that is not 0, and at most one
    download was counted, for [user]. *)
Definition cached_as (key platform : string) (user : Z) (w w' : world) : Prop :=
  (videos (db w') = videos (db w)
   \/ exists n ts, n <> 0
                   /\ videos (db w') = videos (db w) ++ [mkVideo key n platform ts])
  /\ (users (db w') = users (db w)
      \/ users (db w') = map (bump user) (users (db w))).

(** A call that asks nothing of a responder: neither a message sent to
    it nor a click on one of its buttons. *)
Definition passive (c : call) : bool :=
  match c with
  | SendMessage _ _ | Click _ _ => false
  | _ => true
  end.

(** From [w] to [w'] only passive calls were made. *)
Definition passively (w w' : world) : Prop :=
  exists calls, log w' = calls ++ log w /\ forallb passive calls = true.

(* ================================================================== *)
(** ** Statistics seen from outside *)

(** The sum of a list of counts. *)
Definition total (counts : list Z) : Z := fold_right Z.add 0 counts.

(* ================================================================== *)
(** ** More of the deployment *)

(** The responder's answer to a tweet it cannot fetch. *)
Definition failure_answer : list message := [text_message 6 "Sorry, media not found"].

(** The responder's format message for a tweet: two qualities. *)
Definition twitter_offers : message :=
  mkMessage 12 false false false None MediaNone "Choose the quality"
    (Some [[mkButton "HD" (Token "q_hd"); mkButton "SD" (Token "q_sd")]]).

(** The userbot after user 7 was shown the formats of a tweet. *)
Definition after_twitter_offer : Userbot.stores :=
  snd (Userbot.store_twitter_request 7 "https://x.com/a/status/1" twitter_offers
         (Userbot.mkStores [] [])).

(** The userbot after user 7 was shown the formats of a YouTube video. *)
Definition after_youtube_offer : Userbot.stores :=
  Userbot.store_youtube_request 7 "https://youtu.be/a"
    (mkMessage 13 false false false None MediaNone "Choose the format"
       (Some [three_offers "f_360" "f_480" "f_720"]))
    (Userbot.mkStores [] []).

(** A world whose cache holds the SD format of the tweet and the 720p
    format of the video. *)
Definition format_cached_world : world :=
  mkWorld true true 100 [Gives VNone; Gives VNone; Gives VNone] []
    (mkDatabase [mkVideo "https://x.com/a/status/1#SD" 501 "twitter" 3;
                 mkVideo "https://youtu.be/a#720p" 502 "youtube" 4] [mkUser 7 1])
    [] Handlers.initial_globals.

(** The world of [success_world] with a database that fails on every
    statement. *)
Definition failing_cache_world : world :=
  set_db_faults [FailExecute; FailExecute] success_world.

(* ================================================================== *)
(** * Properties *)

(* ------------------------------------------------------------------ *)
(** ** Format negotiation *)

Section Negotiator.

Import Userbot.

Lemma for_first_concat {A B} (f : A -> res (option B)) (rows : list (list A)) :
  for_first (for_first f) rows = for_first f (List.concat rows).
Proof.
  induction rows as [|row rows IH]; simpl; [reflexivity|].
  rewrite IH. clear IH.
  induction row as [|x row IHrow]; simpl.
  - destruct (for_first f (List.concat rows)) as [[?|]| |]; reflexivity.
  - destruct (f x) as [[?|]| |]; auto.
Qed.

Lemma fold_closer_concat target (rows : keyboard) acc :
  fold_left (fun acc row => fold_left (closer target) row acc) rows acc
  = fold_left (closer target) (List.concat rows) acc.
Proof.
  revert acc. induction rows as [|row rows IH]; intros acc; simpl; [reflexivity|].
  rewrite fold_left_app. apply IH.
Qed.

Lemma find_app_first {A} (f : A -> bool) (l1 l2 : list A) :
  find f (l1 ++ l2) = match find f l1 with Some x => Some x | None => find f l2 end.
Proof.
  induction l1 as [|x l1 IH]; simpl; [reflexivity|].
  destruct (f x); [reflexivity|apply IH].
Qed.

Lemma match_button_offer patterns (b : button) :
  good_data b = true ->
  match_button patterns b
  = Ret (option_map token
           (find (fun o => existsb (fun k => Text.contains (Text.lower k)
                                               (Text.lower (label o))) patterns)
                 (offer_of b))).
Proof.
  unfold good_data, match_button, has_data, offer_of.
  destruct (data b) as [| |s]; intros Hb; try discriminate; cbn [find option_map decode res_bind].
  - reflexivity.
  - cbn [label]. destruct (existsb _ patterns); reflexivity.
Qed.

Lemma audio_button_offer (b : button) :
  good_data b = true ->
  audio_button b = Ret (option_map token (find audio_hit (offer_of b))).
Proof.
  unfold good_data, audio_button, has_data, offer_of, audio_hit.
  destruct (data b) as [| |s]; intros Hb; try discriminate; cbn [find option_map decode res_bind].
  - reflexivity.
  - cbn [label]. destruct (Text.any_in audio_words (Text.lower (text b))); reflexivity.
Qed.

(** A pass with early return over decodable buttons is a [find] over
    the offers. *)
Lemma for_first_offers (body : button -> res (option string)) (hit : FormatOffer -> bool)
    (bs : list button) :
  (forall b, good_data b = true ->
             body b = Ret (option_map token (find hit (offer_of b)))) ->
  forallb good_data bs = true ->
  for_first body bs = Ret (option_map token (find hit (flat_map offer_of bs))).
Proof.
  intros Hbody. induction bs as [|b bs IH]; intros Hd; [reflexivity|].
  cbn [forallb] in Hd. apply andb_prop in Hd. destruct Hd as [Hb Hbs].
  cbn [for_first flat_map]. rewrite find_app_first, (Hbody b Hb).
  destruct (find hit (offer_of b)); cbn [option_map]; [reflexivity|].
  apply IH, Hbs.
Qed.

Lemma closer_keeps_inv target seen acc b :
  closest_inv target seen acc ->
  closest_inv target (seen ++ [b]) (closer target acc b).
Proof.
  unfold closer. intros Hinv.
  destruct (has_data b) eqn:Hb.
  - destruct (Text.search_resolution (Text.lower (text b))) as [n|] eqn:Hn.
    + destruct acc as [[c|] [d|]]; simpl in Hinv |- *; try contradiction.
      * destruct Hinv as (Hin & Hc & (m & Hm & Hd) & Hmin).
        destruct (Z.abs (n - target) <? d) eqn:Hlt; simpl.
        -- apply Z.ltb_lt in Hlt.
           repeat split; [apply in_or_app; right; left; reflexivity | assumption
                         | exists n; split; [assumption|reflexivity] | ].
           intros b' n' Hin' Hb' Hn'. apply in_app_or in Hin'.
           destruct Hin' as [Hin'|[<-|[]]].
           ++ specialize (Hmin b' n' Hin' Hb' Hn'). lia.
           ++ rewrite Hn in Hn'. injection Hn' as <-. lia.
        -- apply Z.ltb_ge in Hlt.
           repeat split; [apply in_or_app; left; assumption | assumption
                         | exists m; split; assumption | ].
           intros b' n' Hin' Hb' Hn'. apply in_app_or in Hin'.
           destruct Hin' as [Hin'|[<-|[]]].
           ++ apply (Hmin b' n' Hin' Hb' Hn').
           ++ rewrite Hn in Hn'. injection Hn' as <-. exact Hlt.
      * repeat split; [apply in_or_app; right; left; reflexivity | assumption
                      | exists n; split; [assumption|reflexivity] | ].
        intros b' n' Hin' Hb' Hn'. apply in_app_or in Hin'.
        destruct Hin' as [Hin'|[<-|[]]].
        -- rewrite (Hinv b' Hin' Hb') in Hn'. discriminate.
        -- rewrite Hn in Hn'. injection Hn' as <-. lia.
    + destruct acc as [[c|] [d|]]; simpl in Hinv |- *; try contradiction.
      * destruct Hinv as (Hin & Hc & Hex & Hmin).
        repeat split; [apply in_or_app; left; assumption | assumption | assumption | ].
        intros b' n' Hin' Hb' Hn'. apply in_app_or in Hin'.
        destruct Hin' as [Hin'|[<-|[]]].
        -- apply (Hmin b' n' Hin' Hb' Hn').
        -- rewrite Hn in Hn'. discriminate.
      * intros b' Hin' Hb'. apply in_app_or in Hin'.
        destruct Hin' as [Hin'|[<-|[]]]; [apply (Hinv b' Hin' Hb')|assumption].
  - destruct acc as [[c|] [d|]]; simpl in Hinv |- *; try contradiction.
    + destruct Hinv as (Hin & Hc & Hex & Hmin).
      repeat split; [apply in_or_app; left; assumption | assumption | assumption | ].
      intros b' n' Hin' Hb' Hn'. apply in_app_or in Hin'.
      destruct Hin' as [Hin'|[<-|[]]].
      * apply (Hmin b' n' Hin' Hb' Hn').
      * rewrite Hb in Hb'. discriminate.
    + intros b' Hin' Hb'. apply in_app_or in Hin'.
      destruct Hin' as [Hin'|[<-|[]]]; [apply (Hinv b' Hin' Hb')|].
      rewrite Hb in Hb'. discriminate.
Qed.

Lemma closest_fold_inv target bs : forall seen acc,
  closest_inv target seen acc ->
  closest_inv target (seen ++ bs) (fold_left (closer target) bs acc).
Proof.
  induction bs as [|b bs IH]; intros seen acc Hinv; simpl.
  - rewrite app_nil_r. exact Hinv.
  - replace (seen ++ b :: bs) with ((seen ++ [b]) ++ bs)
      by (rewrite <- app_assoc; reflexivity).
    apply IH, closer_keeps_inv, Hinv.
Qed.

Lemma closest_scan_inv target (rows : keyboard) :
  closest_inv target (List.concat rows) (closest_scan target rows).
Proof.
  unfold closest_scan. rewrite fold_closer_concat.
  apply (closest_fold_inv target (List.concat rows) [] (None, None)).
  intros b [].
Qed.

Lemma offer_of_button (b : button) (bs : list button) s :
  In b bs -> data b = Token s -> In (mkOffer (text b) s) (flat_map offer_of bs).
Proof.
  intros Hin Hd. apply in_flat_map. exists b. split; [assumption|].
  unfold offer_of. rewrite Hd. left. reflexivity.
Qed.

Lemma button_of_offer (o : FormatOffer) (bs : list button) :
  In o (flat_map offer_of bs) ->
  exists b, In b bs /\ has_data b = true /\ text b = label o /\ data b = Token (token o).
Proof.
  intros Hin. apply in_flat_map in Hin. destruct Hin as (b & Hb & Ho).
  exists b. unfold offer_of in Ho. unfold has_data.
  destruct (data b) as [| |s]; simpl in Ho; try contradiction.
  destruct Ho as [<-|[]]. simpl. auto.
Qed.

(** The body of the matcher on a decodable keyboard, pass by pass. *)
Lemma find_matching_format_body_passes (rows : keyboard) (desired : string) :
  Text.lower desired = desired ->
  format_patterns desired <> [] ->
  decodable rows = true ->
  find_matching_format_body (Some rows) desired =
  match find (keyword_hit desired) (offers rows) with
  | Some o => Ret (Some (token o))
  | None =>
      if String.eqb desired "mp3"
      then Ret (option_map token (find audio_hit (offers rows)))
      else match Text.py_int (Text.remove_p desired) with
           | None => Raise (PyError "ValueError")
           | Some target =>
               match fst (closest_scan target rows) with
               | Some b => res_bind (decode (data b)) (fun d => Ret (Some d))
               | None => Ret None
               end
           end
  end.
Proof.
  intros Hlow Hpat Hdec. unfold find_matching_format_body. rewrite Hlow.
  destruct (format_patterns desired) as [|p ps] eqn:Ep; [congruence|].
  rewrite for_first_concat.
  rewrite (for_first_offers (match_button (p :: ps))
             (fun o => existsb (fun k => Text.contains (Text.lower k)
                                           (Text.lower (label o))) (p :: ps))
             (List.concat rows) (match_button_offer (p :: ps)) Hdec).
  unfold keyword_hit, offers. rewrite Ep. cbn [res_bind].
  destruct (find _ (flat_map offer_of (List.concat rows))) as [o|]; cbn [option_map];
    [reflexivity|].
  destruct (String.eqb desired "mp3"); [|reflexivity].
  rewrite for_first_concat.
  apply (for_first_offers audio_button audio_hit (List.concat rows) audio_button_offer Hdec).
Qed.

(** The closest-resolution pass in terms of offers. *)
Lemma closest_pass_offers (rows : keyboard) (target : Z) :
  decodable rows = true ->
  match match fst (closest_scan target rows) with
        | Some b => res_bind (decode (data b)) (fun d => Ret (Some d))
        | None => Ret None
        end with
  | Ret (Some t) =>
      exists o n, In o (offers rows) /\ token o = t /\ label_number o = Some n /\
        forall o' n', In o' (offers rows) -> label_number o' = Some n' ->
                      Z.abs (n - target) <= Z.abs (n' - target)
  | Ret None => forall o, In o (offers rows) -> label_number o = None
  | _ => False
  end.
Proof.
  intros Hdec. pose proof (closest_scan_inv target rows) as Hinv.
  destruct (closest_scan target rows) as [[b|] [d|]]; simpl in Hinv; try contradiction;
    cbn [fst].
  - destruct Hinv as (Hin & Hb & (n & Hn & Hd) & Hmin).
    unfold decodable in Hdec. rewrite forallb_forall in Hdec.
    specialize (Hdec b Hin). unfold good_data in Hdec. unfold has_data in Hb.
    destruct (data b) as [| |s] eqn:Edata; try discriminate. cbn [decode res_bind].
    exists (mkOffer (text b) s), n. repeat split.
    + apply offer_of_button; assumption.
    + exact Hn.
    + intros o' n' Ho' Hn'. apply button_of_offer in Ho'.
      destruct Ho' as (b' & Hin' & Hb' & Htext & _).
      unfold label_number in Hn'. rewrite <- Htext in Hn'.
      specialize (Hmin b' n' Hin' Hb' Hn'). lia.
  - intros o Ho. apply button_of_offer in Ho.
    destruct Ho as (b' & Hin' & Hb' & Htext & _).
    unfold label_number. rewrite <- Htext. apply (Hinv b' Hin' Hb').
Qed.



Example closest_pass_picks_nearest :
  find_matching_format_callback
    (Some [[mkButton "1080p" (Token "a"); mkButton "240p" (Token "b")]]) "480p" = Some "b".
Proof. reflexivity. Qed.

Example undecodable_button_gives_none :
  find_matching_format_callback
    (Some [[mkButton "360" BadBytes; mkButton "720" (Token "c")]]) "720p" = None.
Proof. reflexivity. Qed.

(** C5, as stated: with offers 360, 480 and 720 the matcher does not
    answer 480p with the 480 offer and 500p with the 360 offer; 500p is
    not a format it knows. *)
Lemma closest_match_500p_counterexample :
  ~ (find_matching_format_callback (Some [three_offers "t360" "t480" "t720"]) "480p"
       = Some "t480"
     /\ find_matching_format_callback (Some [three_offers "t360" "t480" "t720"]) "500p"
       = Some "t360").
Proof.
  intros [_ H]. vm_compute in H. discriminate H.
Qed.

(** C5, amended.  With offers labeled 360, 480 and 720, in whatever
    rows, the desired format 480p selects the token of the 480 offer
    (keyword match), and the desired format 500p, which is none of the
    known formats, selects nothing. *)
Theorem three_offers_selection (rows : keyboard) (t360 t480 t720 : string) :
  List.concat rows = three_offers t360 t480 t720 ->
  find_matching_format_callback (Some rows) "480p" = Some t480
  /\ find_matching_format_callback (Some rows) "500p" = None.
Proof.
  intros Hrows. split.
  - unfold find_matching_format_callback.
    rewrite find_matching_format_body_passes.
    + unfold offers. rewrite Hrows. reflexivity.
    + reflexivity.
    + discriminate.
    + unfold decodable. rewrite Hrows. reflexivity.
  - reflexivity.
Qed.

Lemma three_offers_selection_witness :
  find_matching_format_callback
    (Some [[mkButton "360" (Token "t360"); mkButton "480" (Token "t480")];
           [mkButton "720" (Token "t720")]]) "480p" = Some "t480"
  /\ find_matching_format_callback
       (Some [[mkButton "360" (Token "t360"); mkButton "480" (Token "t480")];
              [mkButton "720" (Token "t720")]]) "500p" = None.
Proof.
  apply (three_offers_selection
           [[mkButton "360" (Token "t360"); mkButton "480" (Token "t480")];
            [mkButton "720" (Token "t720")]] "t360" "t480" "t720").
  reflexivity.
Defined.

End Negotiator.

(* ------------------------------------------------------------------ *)
(** ** Running coroutines *)

Section Running.

Lemma bind_Ret {A B} (m : M A) (k : A -> M B) (w w' : world) (a : A) :
  m w = (Ret a, w') -> bind m k w = k a w'.
Proof. unfold bind. intros ->. reflexivity. Qed.

Lemma bind_Raise {A B} (m : M A) (k : A -> M B) (w w' : world) (e : exn) :
  m w = (Raise e, w') -> bind m k w = (Raise e, w').
Proof. unfold bind. intros ->. reflexivity. Qed.

Lemma bind_Pending {A B} (m : M A) (k : A -> M B) (w w' : world) :
  m w = (Pending, w') -> bind m k w = (Pending, w').
Proof. unfold bind. intros ->. reflexivity. Qed.

Lemma try_except_Ret {A} (m : M A) (h : exn -> M A) (w w' : world) (a : A) :
  m w = (Ret a, w') -> try_except m h w = (Ret a, w').
Proof. unfold try_except. intros ->. reflexivity. Qed.

Lemma try_except_Raise {A} (m : M A) (h : exn -> M A) (w w' : world) (e : exn) :
  m w = (Raise e, w') -> try_except m h w = h e w'.
Proof. unfold try_except. intros ->. reflexivity. Qed.

Lemma try_except_Pending {A} (m : M A) (h : exn -> M A) (w w' : world) :
  m w = (Pending, w') -> try_except m h w = (Pending, w').
Proof. unfold try_except. intros ->. reflexivity. Qed.

End Running.

(* ------------------------------------------------------------------ *)
(** ** Polling a conversation *)

Section Polling.

Import Userbot.
Variable cfg : config.

Lemma insert_by_id_in m l x : In x (insert_by_id m l) <-> x = m \/ In x l.
Proof.
  induction l as [|y l IH]; simpl.
  - intuition congruence.
  - destruct (id m <=? id y); simpl; [intuition congruence|].
    rewrite IH. intuition congruence.
Qed.

Lemma sort_by_id_in l x : In x (sort_by_id l) <-> In x l.
Proof.
  induction l as [|m l IH]; simpl; [tauto|].
  rewrite insert_by_id_in, IH. intuition congruence.
Qed.

Lemma sort_by_id_nonempty l : l <> [] -> sort_by_id l <> [].
Proof.
  destruct l as [|m l]; [congruence|]. intros _ H.
  assert (Hin : In m (sort_by_id (m :: l))) by (apply sort_by_id_in; left; reflexivity).
  rewrite H in Hin. exact Hin.
Qed.

Lemma sort_by_id_Forall (P : message -> Prop) l : Forall P l -> Forall P (sort_by_id l).
Proof.
  rewrite !Forall_forall. intros H x Hx. apply H, sort_by_id_in, Hx.
Qed.

Lemma scan_media_above bot wm msgs : forall acc,
  Forall (above wm) acc -> Forall (above wm) (scan_media cfg bot wm msgs acc).
Proof.
  induction msgs as [|m msgs IH]; intros acc Hacc; simpl; [assumption|].
  destruct (wm <? id m) eqn:Hm; [|apply IH, Hacc].
  destruct (_ && _)%bool; [apply IH, Hacc|].
  destruct (_ || _)%bool; [|apply IH, Hacc].
  apply IH, Forall_app. split; [assumption|].
  constructor; [apply Z.ltb_lt, Hm|constructor].
Qed.

Lemma scan_media_filter bot wm msgs : forall acc,
  scan_media cfg bot wm msgs acc
  = scan_media cfg bot wm (filter (fun m => wm <? id m) msgs) acc.
Proof.
  induction msgs as [|m msgs IH]; intros acc; simpl; [reflexivity|].
  destruct (wm <? id m) eqn:Hm; simpl; rewrite ?Hm.
  - destruct (_ && _)%bool; [apply IH|].
    destruct (_ || _)%bool; apply IH.
  - apply IH.
Qed.

Lemma scan_twitter_above wm msgs : forall acc,
  Forall (above wm) (fst acc) -> Forall (above wm) (fst (scan_twitter wm msgs acc)).
Proof.
  induction msgs as [|m msgs IH]; intros acc Hacc; cbn [scan_twitter]; [assumption|].
  destruct (wm <? id m) eqn:Hm; [|apply IH, Hacc].
  assert (Hpush : Forall (above wm) (fst (fst acc ++ [m], snd acc))).
  { cbn [fst]. apply Forall_app. split; [assumption|].
    constructor; [apply Z.ltb_lt, Hm|constructor]. }
  destruct (media m); try (apply IH, Hacc);
    (destruct (is_video m || is_photo m)%bool; [apply IH, Hpush|];
     destruct (_ && _)%bool; [|apply IH, Hacc];
     destruct (Text.any_in failure_words _); apply IH; assumption).
Qed.

Lemma scan_twitter_filter wm msgs : forall acc,
  scan_twitter wm msgs acc = scan_twitter wm (filter (fun m => wm <? id m) msgs) acc.
Proof.
  induction msgs as [|m msgs IH]; intros acc; cbn [scan_twitter filter]; [reflexivity|].
  destruct (wm <? id m) eqn:Hm; cbn [scan_twitter]; rewrite ?Hm; [|apply IH].
  destruct (media m); try apply IH;
    (destruct (is_video m || is_photo m)%bool; [apply IH|];
     destruct (_ && _)%bool; [|apply IH];
     destruct (Text.any_in failure_words _); apply IH).
Qed.

(** [choose] on a sorted non-empty list returns, with messages of the list. *)
Lemma choose_returns return_all (l : list message) (w : world) :
  l <> [] ->
  exists f, choose return_all l w = (Ret f, w)
            /\ forall x, In x (found_messages f) -> In x l.
Proof.
  intros Hl. unfold choose. destruct return_all.
  - exists (All l). split; [reflexivity|]. simpl. auto.
  - destruct (rev l) as [|m r] eqn:Er.
    + exfalso. apply Hl. rewrite <- (rev_involutive l), Er. reflexivity.
    + exists (Single m). split; [reflexivity|]. simpl. intros x [<-|[]].
      apply in_rev. rewrite Er. left. reflexivity.
Qed.

(** One guarded poll of [_wait_for_video_response]: it always returns,
    takes no time, uses up one scripted answer, finds nothing in a quiet
    answer, and finds only messages above the watermark. *)
Lemma poll_video_spec bot wm return_all (w : world) :
  exists r w1,
    try_except (poll_video cfg bot wm return_all) (fun _ => ret None) w = (Ret r, w1)
    /\ clock w1 = clock w
    /\ script w1 = tl (script w)
    /\ (Forall (quiet_video cfg bot wm) (script w) -> r = None)
    /\ (forall f, r = Some f -> Forall (above wm) (found_messages f)).
Proof.
  unfold try_except, poll_video, get_messages, bind, request.
  destruct (script w) as [|[v|e] rest] eqn:Hs.
  - exists None. eexists. split; [reflexivity|]. cbn. rewrite Hs.
    repeat split; try reflexivity; discriminate.
  - destruct v as [|b|m|l|p];
      try (exists None; eexists; (split; [reflexivity|]); cbn; rewrite ?Hs;
           repeat split; try reflexivity; discriminate).
    cbn [as_messages ret].
    destruct (scan_media cfg bot wm (firstn 10 l) []) as [|m ms] eqn:Hscan.
    + exists None. eexists. split; [reflexivity|]. cbn.
      repeat split; try reflexivity; discriminate.
    + destruct (choose_returns return_all (sort_by_id (m :: ms))
                  (add_log (GetMessages bot 10) (set_script rest w))) as (f & Hf & Hin).
      { apply sort_by_id_nonempty. discriminate. }
      rewrite Hf. exists (Some f). eexists. split; [reflexivity|]. cbn.
      repeat split; try reflexivity.
      * intros Hq. inversion Hq as [|? ? Hq1 _]; subst. unfold quiet_video in Hq1.
        rewrite Hscan in Hq1. discriminate.
      * intros f' [= <-]. apply Forall_forall. intros x Hx.
        apply Hin in Hx. apply (proj1 (sort_by_id_in _ _)) in Hx.
        pose proof (scan_media_above bot wm (firstn 10 l) [] (Forall_nil _)) as Hall.
        rewrite Hscan in Hall. rewrite Forall_forall in Hall. apply Hall, Hx.
  - exists None. eexists. split; [reflexivity|]. cbn.
    repeat split; try reflexivity; discriminate.
Qed.

Lemma Forall_tl {A} (P : A -> Prop) (l : list A) : Forall P l -> Forall P (tl l).
Proof. intros H. destruct H; [constructor|assumption]. Qed.

(** The loop of [_wait_for_video_response] with fuel for the time left. *)
Lemma wait_video_loop_spec bot wm T return_all start : forall fuel w,
  Z.max 0 (T - (clock w - start)) < Z.of_nat fuel ->
  exists r w',
    wait_video_loop cfg fuel bot wm T return_all start w = (Ret r, w')
    /\ (Forall (quiet_video cfg bot wm) (script w) ->
        r = None /\ clock w <= clock w' <= Z.max (clock w) (start + T + 2))
    /\ (forall f, r = Some f -> Forall (above wm) (found_messages f)).
Proof.
  induction fuel as [|fuel IH]; intros w Hfuel; [simpl in Hfuel; lia|].
  cbn [wait_video_loop].
  rewrite (bind_Ret time _ w w (clock w) eq_refl).
  destruct (clock w - start <? T) eqn:Hnow.
  - apply Z.ltb_lt in Hnow.
    destruct (poll_video_spec bot wm return_all w) as (r & w1 & Hp & Hc & Hs & Hq & Ha).
    rewrite (bind_Ret _ _ w w1 r Hp).
    destruct r as [f|].
    + exists (Some f), w1. split; [reflexivity|]. split.
      * intros Hquiet. specialize (Hq Hquiet). discriminate.
      * exact Ha.
    + rewrite (bind_Ret (sleep 3) _ w1 (set_clock (clock w1 + Z.max 0 3) w1) tt eq_refl).
      destruct (IH (set_clock (clock w1 + Z.max 0 3) w1)) as (r & w' & Hl & Hquiet' & Ha').
      { cbn [clock set_clock]. lia. }
      exists r, w'. split; [exact Hl|]. split; [|exact Ha'].
      intros Hquiet.
      destruct Hquiet' as [-> Hclock].
      { cbn [script set_clock]. rewrite Hs. apply Forall_tl, Hquiet. }
      cbn [clock set_clock] in Hclock. split; [reflexivity|]. lia.
  - apply Z.ltb_ge in Hnow. exists None, w. split; [reflexivity|]. split.
    + intros _. split; [reflexivity|]. lia.
    + discriminate.
Qed.

(** [_wait_for_video_response] always returns; on a quiet script it
    returns [None] less than [max_wait_time] and three seconds after it
    was called; what it finds is above the watermark. *)
Lemma wait_for_video_response_spec bot wm T return_all (w : world) :
  exists r w',
    _wait_for_video_response cfg bot wm T return_all w = (Ret r, w')
    /\ (Forall (quiet_video cfg bot wm) (script w) ->
        r = None /\ 0 <= clock w' - clock w < Z.max 0 T + 3)
    /\ (forall f, r = Some f -> Forall (above wm) (found_messages f)).
Proof.
  unfold _wait_for_video_response.
  rewrite (bind_Ret time _ w w (clock w) eq_refl).
  destruct (wait_video_loop_spec bot wm T return_all (clock w) (S (Z.to_nat T)) w)
    as (r & w' & Hl & Hq & Ha); [lia|].
  exists r, w'. split; [exact Hl|]. split; [|exact Ha].
  intros Hquiet. destruct (Hq Hquiet) as [-> Hclock]. split; [reflexivity|]. lia.
Qed.

(** One guarded poll of [_wait_for_twitter_response]. *)
Lemma poll_twitter_spec bot wm return_all (w : world) :
  exists r w1,
    try_except (poll_twitter bot wm return_all) (fun _ => ret None) w = (Ret r, w1)
    /\ clock w1 = clock w
    /\ script w1 = tl (script w)
    /\ (Forall (quiet_twitter wm) (script w) -> r = None \/ r = Some None)
    /\ (forall f, r = Some (Some f) -> Forall (above wm) (found_messages f)).
Proof.
  unfold try_except, poll_twitter, get_messages, bind, request.
  destruct (script w) as [|[v|e] rest] eqn:Hs.
  - exists None. eexists. split; [reflexivity|]. cbn. rewrite Hs.
    repeat split; try reflexivity; try discriminate. auto.
  - destruct v as [|b|m|l|p];
      try (exists None; eexists; (split; [reflexivity|]); cbn; rewrite ?Hs;
           repeat split; try reflexivity; try discriminate; auto).
    cbn [as_messages ret].
    pose proof (scan_twitter_above wm (firstn 20 l) ([], []) (Forall_nil _)) as Hall.
    destruct (scan_twitter wm (firstn 20 l) ([], [])) as [[|m ms] texts] eqn:Hscan.
    + destruct texts as [|x texts].
      * exists None. eexists. split; [reflexivity|]. cbn.
        repeat split; try reflexivity; try discriminate. auto.
      * exists (Some None). eexists. split; [reflexivity|]. cbn.
        repeat split; try reflexivity; try discriminate. auto.
    + destruct (choose_returns return_all (sort_by_id (m :: ms))
                  (add_log (GetMessages bot 20) (set_script rest w))) as (f & Hf & Hin).
      { apply sort_by_id_nonempty. discriminate. }
      rewrite Hf. exists (Some (Some f)). eexists. split; [reflexivity|]. cbn.
      repeat split; try reflexivity.
      * intros Hq. inversion Hq as [|? ? Hq1 _]; subst. unfold quiet_twitter in Hq1.
        rewrite Hscan in Hq1. discriminate.
      * intros f' [= <-]. apply Forall_forall. intros x Hx.
        apply Hin in Hx. apply (proj1 (sort_by_id_in _ _)) in Hx.
        cbn [fst] in Hall. rewrite Forall_forall in Hall. apply Hall, Hx.
  - exists None. eexists. split; [reflexivity|]. cbn.
    repeat split; try reflexivity; try discriminate. auto.
Qed.

(** The loop of [_wait_for_twitter_response] with fuel for the time
    left, for a poll interval of a second or more. *)
Lemma wait_twitter_loop_spec bot wm T return_all poll_interval start :
  1 <= poll_interval ->
  forall fuel w,
  Z.max 0 (T - (clock w - start)) < Z.of_nat fuel ->
  exists r w',
    wait_twitter_loop fuel bot wm T return_all poll_interval start w = (Ret r, w')
    /\ (Forall (quiet_twitter wm) (script w) ->
        r = None
        /\ clock w <= clock w' <= Z.max (clock w) (start + T - 1 + poll_interval))
    /\ (forall f, r = Some f -> Forall (above wm) (found_messages f)).
Proof.
  intros Hint.
  induction fuel as [|fuel IH]; intros w Hfuel; [simpl in Hfuel; lia|].
  cbn [wait_twitter_loop].
  rewrite (bind_Ret time _ w w (clock w) eq_refl).
  destruct (clock w - start <? T) eqn:Hnow.
  - apply Z.ltb_lt in Hnow.
    destruct (poll_twitter_spec bot wm return_all w) as (r & w1 & Hp & Hc & Hs & Hq & Ha).
    rewrite (bind_Ret _ _ w w1 r Hp).
    destruct r as [r|].
    + exists r, w1. split; [reflexivity|]. split.
      * intros Hquiet. destruct (Hq Hquiet) as [H|H]; [discriminate|].
        injection H as ->. split; [reflexivity|]. lia.
      * intros f ->. apply Ha. reflexivity.
    + rewrite (bind_Ret (sleep poll_interval) _ w1
                 (set_clock (clock w1 + Z.max 0 poll_interval) w1) tt eq_refl).
      destruct (IH (set_clock (clock w1 + Z.max 0 poll_interval) w1))
        as (r & w' & Hl & Hquiet' & Ha').
      { cbn [clock set_clock]. lia. }
      exists r, w'. split; [exact Hl|]. split; [|exact Ha'].
      intros Hquiet.
      destruct Hquiet' as [-> Hclock].
      { cbn [script set_clock]. rewrite Hs. apply Forall_tl, Hquiet. }
      cbn [clock set_clock] in Hclock. split; [reflexivity|]. lia.
  - apply Z.ltb_ge in Hnow. exists None, w. split; [reflexivity|]. split.
    + intros _. split; [reflexivity|]. lia.
    + discriminate.
Qed.

Lemma wait_for_twitter_response_spec bot wm T return_all poll_interval (w : world) :
  1 <= poll_interval ->
  exists r w',
    _wait_for_twitter_response bot wm T return_all poll_interval w = (Ret r, w')
    /\ (Forall (quiet_twitter wm) (script w) ->
        r = None /\ 0 <= clock w' - clock w < Z.max 0 T + poll_interval)
    /\ (forall f, r = Some f -> Forall (above wm) (found_messages f)).
Proof.
  intros Hint. unfold _wait_for_twitter_response.
  rewrite (bind_Ret time _ w w (clock w) eq_refl).
  destruct (wait_twitter_loop_spec bot wm T return_all poll_interval (clock w) Hint
              (S (Z.to_nat T)) w) as (r & w' & Hl & Hq & Ha); [lia|].
  exists r, w'. split; [exact Hl|]. split; [|exact Ha].
  intros Hquiet. destruct (Hq Hquiet) as [-> Hclock]. split; [reflexivity|]. lia.
Qed.

(** Whatever the poll interval, the Twitter wait raises nothing and
    finds only messages above the watermark. *)
Lemma wait_twitter_loop_safe bot wm T return_all poll_interval start : forall fuel w,
  match fst (wait_twitter_loop fuel bot wm T return_all poll_interval start w) with
  | Ret (Some f) => Forall (above wm) (found_messages f)
  | Ret None => True
  | Raise _ => False
  | Pending => True
  end.
Proof.
  induction fuel as [|fuel IH]; intros w; [exact I|].
  cbn [wait_twitter_loop].
  rewrite (bind_Ret time _ w w (clock w) eq_refl).
  destruct (clock w - start <? T); [|exact I].
  destruct (poll_twitter_spec bot wm return_all w) as (r & w1 & Hp & _ & _ & _ & Ha).
  rewrite (bind_Ret _ _ w w1 r Hp).
  destruct r as [[f|]|]; cbn [ret fst].
  - apply Ha. reflexivity.
  - exact I.
  - rewrite (bind_Ret (sleep poll_interval) _ w1
               (set_clock (clock w1 + Z.max 0 poll_interval) w1) tt eq_refl).
    apply IH.
Qed.


(** C8.  Every message a wait hands back is newer than the watermark,
    and a scan of the listed messages gives the same with the messages
    at or below the watermark left out. *)
Theorem responses_above_watermark (bot : string) (wm T : Z) (return_all : bool)
    (poll_interval : Z) (w : world) (msgs media_messages : list message)
    (acc : list message * list message) :
  match fst (_wait_for_video_response cfg bot wm T return_all w) with
  | Ret (Some f) => Forall (above wm) (found_messages f)
  | _ => True
  end
  /\ match fst (_wait_for_twitter_response bot wm T return_all poll_interval w) with
     | Ret (Some f) => Forall (above wm) (found_messages f)
     | _ => True
     end
  /\ scan_media cfg bot wm msgs media_messages
     = scan_media cfg bot wm (filter (fun m => wm <? id m) msgs) media_messages
  /\ scan_twitter wm msgs acc
     = scan_twitter wm (filter (fun m => wm <? id m) msgs) acc.
Proof.
  split; [|split; [|split]].
  - destruct (wait_for_video_response_spec bot wm T return_all w) as (r & w' & Hr & _ & Ha).
    rewrite Hr. cbn [fst]. destruct r as [f|]; [|exact I]. apply Ha. reflexivity.
  - unfold _wait_for_twitter_response.
    rewrite (bind_Ret time _ w w (clock w) eq_refl).
    pose proof (wait_twitter_loop_safe bot wm T return_all poll_interval (clock w)
                  (S (Z.to_nat T)) w) as Hsafe.
    destruct (fst (wait_twitter_loop _ _ _ _ _ _ _ _)) as [[f|]| |]; auto.
  - apply scan_media_filter.
  - apply scan_twitter_filter.
Qed.

End Polling.


Example wait_ends_at_nine :
  clock (snd (Userbot._wait_for_video_response example_config "KeepMediaBot" 5 7 true
                (fresh_world [Gives (VMessages [text_message 6 "wait"; video_message 4])])))
  = 9.
Proof. reflexivity. Qed.

Example wait_finds_video_above_watermark :
  fst (Userbot._wait_for_video_response example_config "KeepMediaBot" 5 7 false
         (fresh_world [Gives (VMessages [video_message 8; text_message 6 "wait";
                                         video_message 4])]))
  = Ret (Some (Userbot.Single (video_message 8))).
Proof. reflexivity. Qed.

(* ------------------------------------------------------------------ *)
(** ** What a coroutine leaves alone *)

Create HintDb keeps_db.

Section Frame.

Import Userbot.
Variable cfg : config.
Variable R : world -> world -> Prop.
Hypothesis R_refl : forall w, R w w.
Hypothesis R_trans : forall w1 w2 w3, R w1 w2 -> R w2 w3 -> R w1 w3.
Hypothesis R_script : forall s w, R w (set_script s w).
Hypothesis R_log : forall c w, R w (add_log c w).
Hypothesis R_clock : forall t w, R w (set_clock t w).
Hypothesis R_connected : forall b w, R w (set_connected b w).
Hypothesis R_authenticated : forall b w, R w (set_authenticated b w).
Hypothesis R_db : forall d w, R w (set_db d w).
Hypothesis R_db_faults : forall f w, R w (set_db_faults f w).

Lemma keeps_ret {A} (a : A) : keeps R (ret a).
Proof. intros w. apply R_refl. Qed.

Lemma keeps_raise {A} (e : exn) : keeps R (@raise A e).
Proof. intros w. apply R_refl. Qed.

Lemma keeps_pending {A} : keeps R (@pending A).
Proof. intros w. apply R_refl. Qed.

Lemma keeps_lift {A} (r : res A) : keeps R (lift r).
Proof. intros w. apply R_refl. Qed.

Lemma keeps_bind {A B} (m : M A) (k : A -> M B) :
  keeps R m -> (forall a, keeps R (k a)) -> keeps R (bind m k).
Proof.
  intros Hm Hk w. unfold bind. specialize (Hm w).
  destruct (m w) as [[a|e|] w1]; cbn [snd] in *; try assumption.
  eapply R_trans; [exact Hm|apply Hk].
Qed.

Lemma keeps_try_except {A} (m : M A) (h : exn -> M A) :
  keeps R m -> (forall e, keeps R (h e)) -> keeps R (try_except m h).
Proof.
  intros Hm Hh w. unfold try_except. specialize (Hm w).
  destruct (m w) as [[a|e|] w1]; cbn [snd] in *; try assumption.
  eapply R_trans; [exact Hm|apply Hh].
Qed.

Lemma keeps_request (c : call) : keeps R (request c).
Proof.
  intros w. unfold request.
  destruct (script w) as [|[v|e] rest]; cbn [snd]; try apply R_log;
    (eapply R_trans; [apply (R_script rest)|apply R_log]).
Qed.

Lemma keeps_time : keeps R time.
Proof. intros w. apply R_refl. Qed.

Lemma keeps_sleep (d : Z) : keeps R (sleep d).
Proof. intros w. apply R_clock. Qed.

Lemma keeps_as_message (v : value) : keeps R (as_message v).
Proof. destruct v; first [apply keeps_ret|apply keeps_raise]. Qed.

Lemma keeps_as_messages (v : value) : keeps R (as_messages v).
Proof. destruct v; first [apply keeps_ret|apply keeps_raise]. Qed.

Lemma keeps_get_is_authenticated : keeps R get_is_authenticated.
Proof. intros w. apply R_refl. Qed.

Lemma keeps_put_is_authenticated (b : bool) : keeps R (put_is_authenticated b).
Proof. intros w. apply R_authenticated. Qed.

Lemma keeps_is_connected : keeps R is_connected.
Proof. intros w. apply R_refl. Qed.

Lemma keeps_put_connected (b : bool) : keeps R (put_connected b).
Proof. intros w. apply R_connected. Qed.

Lemma keeps_for_firstM {A B} (body : A -> M (option B)) (l : list A) :
  (forall x, keeps R (body x)) -> keeps R (for_firstM body l).
Proof.
  intros Hbody. induction l as [|x l IH]; cbn [for_firstM]; [apply keeps_ret|].
  apply keeps_bind; [apply Hbody|]. intros [v|]; [apply keeps_ret|apply IH].
Qed.

(** Takes a goal [keeps R m] apart along the structure of [m]. *)
Ltac keeps_step :=
  match goal with
  | |- keeps _ (bind _ _) => apply keeps_bind; [|intros ?]
  | |- keeps _ (try_except _ _) => apply keeps_try_except; [|intros ?]
  | |- keeps _ (ret _) => apply keeps_ret
  | |- keeps _ (raise _) => apply keeps_raise
  | |- keeps _ pending => apply keeps_pending
  | |- keeps _ (lift _) => apply keeps_lift
  | |- keeps _ (request _) => apply keeps_request
  | |- keeps _ time => apply keeps_time
  | |- keeps _ (sleep _) => apply keeps_sleep
  | |- keeps _ (as_message _) => apply keeps_as_message
  | |- keeps _ (as_messages _) => apply keeps_as_messages
  | |- keeps _ get_is_authenticated => apply keeps_get_is_authenticated
  | |- keeps _ (put_is_authenticated _) => apply keeps_put_is_authenticated
  | |- keeps _ is_connected => apply keeps_is_connected
  | |- keeps _ (put_connected _) => apply keeps_put_connected
  | |- keeps _ (for_firstM _ _) => apply keeps_for_firstM; intros ?
  | |- keeps _ (match ?x with _ => _ end) => destruct x
  | |- keeps _ (if ?b then _ else _) => destruct b
  | |- keeps _ _ => solve [auto with keeps_db]
  end.

Ltac keeps_auto := repeat keeps_step.

Lemma keeps_send_message peer body : keeps R (send_message peer body).
Proof. unfold send_message. keeps_auto. Qed.

Lemma keeps_get_messages peer limit : keeps R (get_messages peer limit).
Proof. unfold get_messages. keeps_auto. Qed.

Lemma keeps_choose return_all l : keeps R (choose return_all l).
Proof. unfold choose. keeps_auto. Qed.

#[local] Hint Resolve keeps_send_message keeps_get_messages keeps_choose : keeps_db.

Lemma keeps_poll_video bot wm return_all : keeps R (poll_video cfg bot wm return_all).
Proof. unfold poll_video. keeps_auto. Qed.

Lemma keeps_wait_video_loop bot wm T return_all start fuel :
  keeps R (wait_video_loop cfg fuel bot wm T return_all start).
Proof.
  pose proof keeps_poll_video.
  induction fuel as [|fuel IH]; cbn [wait_video_loop]; keeps_auto.
Qed.

Lemma keeps_wait_for_video_response bot wm T return_all :
  keeps R (_wait_for_video_response cfg bot wm T return_all).
Proof.
  pose proof keeps_wait_video_loop. unfold _wait_for_video_response. keeps_auto.
Qed.

Lemma keeps_poll_twitter bot wm return_all : keeps R (poll_twitter bot wm return_all).
Proof.
  unfold poll_twitter. keeps_step; [keeps_auto|].
  destruct (scan_twitter _ _ _) as [[|m ms] [|t ts]]; keeps_auto.
Qed.

Lemma keeps_wait_twitter_loop bot wm T return_all poll_interval start fuel :
  keeps R (wait_twitter_loop fuel bot wm T return_all poll_interval start).
Proof.
  pose proof keeps_poll_twitter.
  induction fuel as [|fuel IH]; cbn [wait_twitter_loop]; keeps_auto.
Qed.

Lemma keeps_wait_for_twitter_response bot wm T return_all poll_interval :
  keeps R (_wait_for_twitter_response bot wm T return_all poll_interval).
Proof.
  pose proof keeps_wait_twitter_loop. unfold _wait_for_twitter_response. keeps_auto.
Qed.

Lemma keeps_poll_format bot wm : keeps R (poll_format bot wm).
Proof. unfold poll_format. keeps_auto. Qed.

Lemma keeps_wait_format_loop bot wm T start fuel :
  keeps R (wait_format_loop fuel bot wm T start).
Proof.
  pose proof keeps_poll_format.
  induction fuel as [|fuel IH]; cbn [wait_format_loop]; keeps_auto.
Qed.

Lemma keeps_wait_for_format_message bot wm T :
  keeps R (_wait_for_format_message bot wm T).
Proof.
  pose proof keeps_wait_format_loop. unfold _wait_for_format_message. keeps_auto.
Qed.

Lemma keeps_click_inline_button m cb : keeps R (_click_inline_button m cb).
Proof. unfold _click_inline_button. keeps_auto. Qed.

Lemma keeps_sent_id v : keeps R (sent_id v).
Proof. unfold sent_id. keeps_auto. Qed.

#[local] Hint Resolve keeps_sent_id keeps_wait_for_video_response
  keeps_wait_for_twitter_response keeps_wait_for_format_message
  keeps_click_inline_button : keeps_db.

Lemma keeps_upload_to_storage_channel m : keeps R (_upload_to_storage_channel m).
Proof. unfold _upload_to_storage_channel. keeps_auto. Qed.

Lemma keeps_upload_media_group_to_storage_channel l :
  keeps R (_upload_media_group_to_storage_channel l).
Proof. unfold _upload_media_group_to_storage_channel. keeps_auto. Qed.

Lemma keeps_upload_twitter_to_storage_channel m :
  keeps R (_upload_twitter_to_storage_channel m).
Proof. unfold _upload_twitter_to_storage_channel. keeps_auto. Qed.

#[local] Hint Resolve keeps_upload_to_storage_channel
  keeps_upload_media_group_to_storage_channel
  keeps_upload_twitter_to_storage_channel : keeps_db.

Lemma keeps_recover_session : keeps R _recover_session.
Proof. unfold _recover_session. keeps_auto. Qed.

Lemma keeps_instagram_attempt url attempt : keeps R (instagram_attempt cfg url attempt).
Proof. unfold instagram_attempt. keeps_auto. Qed.

#[local] Hint Resolve keeps_recover_session keeps_instagram_attempt : keeps_db.

Lemma keeps_process_instagram_url url : keeps R (process_instagram_url cfg url).
Proof. unfold process_instagram_url. keeps_auto. Qed.

Lemma keeps_process_tiktok_url url T : keeps R (process_tiktok_url cfg url T).
Proof. unfold process_tiktok_url. keeps_auto. Qed.

Lemma keeps_facebook_round url T : keeps R (facebook_round cfg url T).
Proof. unfold facebook_round. keeps_auto. Qed.

#[local] Hint Resolve keeps_facebook_round : keeps_db.

Lemma keeps_facebook_recover_and_retry url T :
  keeps R (facebook_recover_and_retry cfg url T).
Proof. unfold facebook_recover_and_retry. keeps_auto. Qed.

#[local] Hint Resolve keeps_facebook_recover_and_retry : keeps_db.

Lemma keeps_process_facebook_url url T : keeps R (process_facebook_url cfg url T).
Proof. unfold process_facebook_url. keeps_auto. Qed.

Lemma keeps_process_twitter_url url cb T pre :
  keeps R (process_twitter_url cfg url cb T pre).
Proof. unfold process_twitter_url. keeps_auto. Qed.

Lemma keeps_process_youtube_url url cb T : keeps R (process_youtube_url cfg url cb T).
Proof. unfold process_youtube_url. keeps_auto. Qed.

Lemma keeps_next_fault : keeps R Database.next_fault.
Proof.
  intros w. unfold Database.next_fault.
  destruct (db_faults w); cbn [snd]; [apply R_refl|apply R_db_faults].
Qed.

Lemma keeps_fail_when b : keeps R (Database.fail_when b).
Proof. unfold Database.fail_when. keeps_auto. Qed.

Lemma keeps_get_db : keeps R Database.get_db.
Proof. intros w. apply R_refl. Qed.

Lemma keeps_put_db d : keeps R (Database.put_db d).
Proof. intros w. apply R_db. Qed.

#[local] Hint Resolve keeps_next_fault keeps_fail_when keeps_get_db keeps_put_db : keeps_db.

Lemma keeps_insert_video f row : keeps R (Database.insert_video f row).
Proof. unfold Database.insert_video, Database.execute. keeps_auto. Qed.

Lemma keeps_update_daily_stats f platform : keeps R (Database._update_daily_stats f platform).
Proof.
  unfold Database._update_daily_stats, Database.execute, Database.commit. keeps_auto.
Qed.

#[local] Hint Resolve keeps_insert_video keeps_update_daily_stats : keeps_db.

Lemma keeps_add_video u mid platform : keeps R (Database.add_video u mid platform).
Proof.
  unfold Database.add_video, Database.with_connection, Database.connect,
    Database.execute, Database.commit, Database.close.
  keeps_auto.
Qed.

Lemma keeps_get_video u : keeps R (Database.get_video u).
Proof.
  unfold Database.get_video, Database.with_connection, Database.connect,
    Database.execute, Database.close.
  keeps_auto.
Qed.

Lemma keeps_increment_user_downloads u : keeps R (Database.increment_user_downloads u).
Proof.
  unfold Database.increment_user_downloads, Database.with_connection, Database.connect,
    Database.execute, Database.commit, Database.close.
  keeps_auto.
Qed.

End Frame.

#[global] Hint Resolve keeps_ret keeps_raise keeps_pending keeps_request keeps_sleep
  keeps_process_instagram_url keeps_process_tiktok_url keeps_process_facebook_url
  keeps_process_twitter_url keeps_add_video keeps_get_video
  keeps_increment_user_downloads : keeps_db.

(** Takes a goal [keeps R m] apart with the closure properties of [R]
    among the hypotheses. *)
Ltac frame_step :=
  match goal with
  | |- keeps _ (bind _ _) => apply keeps_bind; [assumption| |intros ?]
  | |- keeps _ (try_except _ _) => apply keeps_try_except; [assumption| |intros ?]
  | |- keeps _ (match ?x with _ => _ end) => destruct x
  | |- keeps _ (if ?b then _ else _) => destruct b
  | |- keeps _ _ => solve [auto with keeps_db]
  end.

Ltac frame_auto := repeat frame_step.

Section FrameWorker.

Variable cfg : config.
Variable R : world -> world -> Prop.
Hypothesis R_refl : forall w, R w w.
Hypothesis R_trans : forall w1 w2 w3, R w1 w2 -> R w2 w3 -> R w1 w3.
Hypothesis R_script : forall s w, R w (set_script s w).
Hypothesis R_log : forall c w, R w (add_log c w).
Hypothesis R_clock : forall t w, R w (set_clock t w).
Hypothesis R_connected : forall b w, R w (set_connected b w).
Hypothesis R_authenticated : forall b w, R w (set_authenticated b w).
Hypothesis R_add_video : forall u mid platform, keeps R (Database.add_video u mid platform).
Hypothesis R_increment : forall u, keeps R (Database.increment_user_downloads u).
Hypothesis R_update_request : forall h f, keeps R (Handlers.update_request h f).
Hypothesis R_set_current : forall u, keeps R (Handlers.set_current_processing_user u).

Lemma keeps_get_request h : keeps R (Handlers.get_request h).
Proof.
  unfold Handlers.get_request. apply keeps_bind; [assumption|intros w; apply R_refl|].
  intros g. frame_auto.
Qed.

Lemma keeps_reply body : keeps R (Handlers.reply body).
Proof. unfold Handlers.reply. frame_auto. Qed.

Lemma keeps_dispatch req : keeps R (Handlers.dispatch cfg req).
Proof. unfold Handlers.dispatch. frame_auto. Qed.

Lemma keeps_send_processed_result h : keeps R (Handlers.send_processed_result h).
Proof.
  pose proof keeps_get_request. pose proof keeps_reply.
  unfold Handlers.send_processed_result. frame_auto.
Qed.

(** What follows the insert into the cache. *)
Lemma keeps_after_add_video h (req : ProcessingRequest) :
  keeps R (Database.increment_user_downloads (user_id req) ;;;
           Handlers.send_processed_result h).
Proof. pose proof keeps_send_processed_result. frame_auto. Qed.

Lemma keeps_deliver h req sid : keeps R (Handlers.deliver h req sid).
Proof.
  pose proof keeps_send_processed_result. pose proof keeps_reply.
  unfold Handlers.deliver. frame_auto.
Qed.

Lemma keeps_delete_loading_message h : keeps R (Handlers.delete_loading_message h).
Proof. pose proof keeps_get_request. unfold Handlers.delete_loading_message. frame_auto. Qed.

Lemma keeps_report_error h e : keeps R (Handlers.report_error h e).
Proof. pose proof keeps_reply. unfold Handlers.report_error. frame_auto. Qed.

Lemma keeps_worker_process h : keeps R (Handlers.worker_process cfg h).
Proof.
  pose proof keeps_get_request. pose proof keeps_dispatch. pose proof keeps_deliver.
  pose proof keeps_delete_loading_message. pose proof keeps_report_error.
  unfold Handlers.worker_process. frame_auto.
Qed.

Lemma keeps_worker_finish h : keeps R (Handlers.worker_finish cfg h).
Proof.
  pose proof keeps_worker_process. unfold Handlers.worker_finish. frame_auto.
Qed.

End FrameWorker.

(* ------------------------------------------------------------------ *)
(** ** Rate limits *)

Section RateLimit.

Import Userbot.
Variable cfg : config.



End RateLimit.


(* ------------------------------------------------------------------ *)
(** ** Session recovery *)

Section Recovery.

Import Userbot.
Variable cfg : config.

Lemma try_except_bind_Ret {A B} (m : M A) (k : A -> M B) (h : exn -> M B)
    (w w' : world) (a : A) :
  m w = (Ret a, w') -> try_except (bind m k) h w = try_except (k a) h w'.
Proof. unfold try_except, bind. intros ->. reflexivity. Qed.

Lemma facebook_retry_keeps_session url T :
  keeps same_session (try_except (facebook_round cfg url T) (fun _ => ret None)).
Proof.
  apply keeps_try_except; try (intros; apply keeps_ret); unfold same_session;
    try solve [intros; reflexivity | intros; congruence].
  apply keeps_facebook_round; intros; solve [reflexivity | congruence].
Qed.

(** A Facebook job whose first send meets the identity conflict goes
    into the recovery. *)
Lemma facebook_fault_recovers url T (w : world) (rest : list reply) :
  is_authenticated w = true ->
  script w = Fails AuthKeyDuplicatedError :: rest ->
  process_facebook_url cfg url T w
  = facebook_recover_and_retry cfg url T
      (add_log (SendMessage (facebook_bot_username cfg) "/start") (set_script rest w)).
Proof.
  intros Hauth Hs. destruct w as [auth conn clk scr lg d f g].
  cbn [is_authenticated script] in *. subst. reflexivity.
Qed.

(** A reconnect that goes through: the session flag is kept when the
    authorization is confirmed and cleared when it is not. *)
Lemma recover_session_reconnects (w : world) (authorized : bool) (rest : list reply) :
  script w = reconnect_answers (connected w) authorized rest ->
  exists w', _recover_session w = (Ret tt, w')
             /\ is_authenticated w' = (is_authenticated w && authorized)%bool
             /\ script w' = rest.
Proof.
  intros Hs. destruct w as [auth conn clk scr lg d f g].
  cbn [script connected is_authenticated] in *. subst.
  destruct conn, authorized, auth; vm_compute; eexists; repeat split; reflexivity.
Qed.

Lemma facebook_after_reconnect url T (w : world) (authorized : bool) (rest : list reply) :
  is_authenticated w = true ->
  script w = Fails AuthKeyDuplicatedError :: reconnect_answers (connected w) authorized rest ->
  is_authenticated (snd (process_facebook_url cfg url T w)) = authorized.
Proof.
  intros Hauth Hs.
  rewrite (facebook_fault_recovers url T w _ Hauth Hs).
  set (w1 := add_log _ (set_script _ w)).
  destruct (recover_session_reconnects w1 authorized rest) as (w2 & Hrec & Hauth2 & _).
  { reflexivity. }
  unfold facebook_recover_and_retry.
  rewrite (try_except_bind_Ret _ _ _ w1 w2 tt Hrec).
  rewrite (facebook_retry_keeps_session url T w2), Hauth2.
  subst w1. cbn [is_authenticated add_log set_script]. rewrite Hauth. reflexivity.
Qed.



End Recovery.


Example recovered_job_succeeds :
  fst (Userbot.process_facebook_url example_config "https://fb.watch/x" 60
         (fresh_world (Fails AuthKeyDuplicatedError ::
                       reconnect_answers true true
                         [Gives (VMessage (text_message 10 "https://fb.watch/x"));
                          Gives (VMessages [video_message 11]);
                          Gives (VMessage (video_message 500))])))
  = Ret (Some 500).
Proof. reflexivity. Qed.

Example two_faults_leave_session_marked :
  is_authenticated after_two_faults = true.
Proof. reflexivity. Qed.

(* ------------------------------------------------------------------ *)
(** ** The cache table *)

Section Cache.

Import Database.

Ltac run_db w :=
  let fs := fresh "fs" in
  let f := fresh "f" in
  destruct w as [auth conn clk scr lg d fs g];
  unfold pending_fault; cbn [db db_faults hd];
  destruct fs as [|f fs]; [|destruct f].

Lemma add_video_returns u mid platform (w : world) :
  exists b w', add_video u mid platform w = (Ret b, w').
Proof.
  run_db w; cbv -[select_video app]; try destruct (select_video u d); eauto.
Qed.


End Cache.


Example first_writer_wins :
  fst (Database.get_video "https://instagram.com/p/a"
         (snd (Database.add_video "https://instagram.com/p/a" 777 "instagram" cached_world)))
  = Ret (Some (500, 2)).
Proof. reflexivity. Qed.

Example insert_then_lookup :
  fst (Database.get_video "https://tiktok.com/v/b"
         (snd (Database.add_video "https://tiktok.com/v/b" 501 "tiktok" cached_world)))
  = Ret (Some (501, 100)).
Proof. reflexivity. Qed.

Example lookup_fault_gives_none :
  fst (Database.get_video "https://instagram.com/p/a" (set_db_faults [FailConnect] cached_world))
  = Ret None.
Proof. reflexivity. Qed.

(* ------------------------------------------------------------------ *)
(** ** Coroutines that come to an end *)

Section Settling.

Import Userbot.
Variable cfg : config.

Lemma settles_ret {A} (a : A) : settles (ret a).
Proof. intros w. discriminate. Qed.

Lemma settles_raise {A} (e : exn) : settles (@raise A e).
Proof. intros w. discriminate. Qed.

Lemma settles_bind {A B} (m : M A) (k : A -> M B) :
  settles m -> (forall a, settles (k a)) -> settles (bind m k).
Proof.
  intros Hm Hk w. unfold bind. specialize (Hm w).
  destruct (m w) as [[a|e|] w1]; cbn [fst] in *; [apply Hk|discriminate|congruence].
Qed.

Lemma settles_try_except {A} (m : M A) (h : exn -> M A) :
  settles m -> (forall e, settles (h e)) -> settles (try_except m h).
Proof.
  intros Hm Hh w. unfold try_except. specialize (Hm w).
  destruct (m w) as [[a|e|] w1]; cbn [fst] in *; [discriminate|apply Hh|congruence].
Qed.

(** A settled body under a handler that returns always returns. *)
Lemma try_except_returns {A} (m : M A) (h : exn -> M A) (w : world) :
  settles m -> (forall e w1, exists a w2, h e w1 = (Ret a, w2)) ->
  exists a w', try_except m h w = (Ret a, w').
Proof.
  intros Hm Hh. unfold try_except. specialize (Hm w).
  destruct (m w) as [[a|e|] w1]; cbn [fst] in *; [eauto|apply Hh|congruence].
Qed.

Lemma settles_request (c : call) : settles (request c).
Proof.
  intros w. unfold request. destruct (script w) as [|[v|e] rest]; discriminate.
Qed.

Lemma settles_time : settles time.
Proof. intros w. discriminate. Qed.

Lemma settles_sleep (d : Z) : settles (sleep d).
Proof. intros w. discriminate. Qed.

Lemma settles_as_message (v : value) : settles (as_message v).
Proof. destruct v; first [apply settles_ret|apply settles_raise]. Qed.

Lemma settles_as_messages (v : value) : settles (as_messages v).
Proof. destruct v; first [apply settles_ret|apply settles_raise]. Qed.

Lemma settles_get_is_authenticated : settles get_is_authenticated.
Proof. intros w. discriminate. Qed.

Lemma settles_put_is_authenticated (b : bool) : settles (put_is_authenticated b).
Proof. intros w. discriminate. Qed.

Lemma settles_is_connected : settles is_connected.
Proof. intros w. discriminate. Qed.

Lemma settles_put_connected (b : bool) : settles (put_connected b).
Proof. intros w. discriminate. Qed.

Lemma settles_for_firstM {A B} (body : A -> M (option B)) (l : list A) :
  (forall x, settles (body x)) -> settles (for_firstM body l).
Proof.
  intros Hbody. induction l as [|x l IH]; cbn [for_firstM]; [apply settles_ret|].
  apply settles_bind; [apply Hbody|]. intros [v|]; [apply settles_ret|apply IH].
Qed.

Lemma settles_wait_for_video_response bot wm T return_all :
  settles (_wait_for_video_response cfg bot wm T return_all).
Proof.
  intros w.
  destruct (wait_for_video_response_spec cfg bot wm T return_all w) as (r & w' & Hr & _).
  rewrite Hr. discriminate.
Qed.

Lemma settles_wait_for_twitter_response bot wm T return_all poll_interval :
  1 <= poll_interval ->
  settles (_wait_for_twitter_response bot wm T return_all poll_interval).
Proof.
  intros Hint w.
  destruct (wait_for_twitter_response_spec bot wm T return_all poll_interval w Hint)
    as (r & w' & Hr & _).
  rewrite Hr. discriminate.
Qed.

Create HintDb settles_db.

#[local] Hint Resolve settles_wait_for_video_response : settles_db.
#[local] Hint Extern 1 (settles (_wait_for_twitter_response _ _ _ _ _)) =>
  apply settles_wait_for_twitter_response; lia : settles_db.

(** Takes a goal [settles m] apart along the structure of [m]. *)
Ltac settles_step :=
  match goal with
  | |- settles (bind _ _) => apply settles_bind; [|intros ?]
  | |- settles (try_except _ _) => apply settles_try_except; [|intros ?]
  | |- settles (ret _) => apply settles_ret
  | |- settles (raise _) => apply settles_raise
  | |- settles (request _) => apply settles_request
  | |- settles time => apply settles_time
  | |- settles (sleep _) => apply settles_sleep
  | |- settles (as_message _) => apply settles_as_message
  | |- settles (as_messages _) => apply settles_as_messages
  | |- settles get_is_authenticated => apply settles_get_is_authenticated
  | |- settles (put_is_authenticated _) => apply settles_put_is_authenticated
  | |- settles is_connected => apply settles_is_connected
  | |- settles (put_connected _) => apply settles_put_connected
  | |- settles (for_firstM _ _) => apply settles_for_firstM; intros ?
  | |- settles (match ?x with _ => _ end) => destruct x
  | |- settles (if ?b then _ else _) => destruct b
  | |- settles _ => solve [auto with settles_db]
  end.

Ltac settles_auto := repeat settles_step.

Lemma settles_send_message peer body : settles (send_message peer body).
Proof. unfold send_message. settles_auto. Qed.

Lemma settles_sent_id v : settles (sent_id v).
Proof. unfold sent_id. settles_auto. Qed.

#[local] Hint Resolve settles_send_message settles_sent_id : settles_db.

Lemma settles_upload_to_storage_channel m : settles (_upload_to_storage_channel m).
Proof. unfold _upload_to_storage_channel. settles_auto. Qed.

Lemma settles_upload_media_group_to_storage_channel l :
  settles (_upload_media_group_to_storage_channel l).
Proof. unfold _upload_media_group_to_storage_channel. settles_auto. Qed.

Lemma settles_upload_twitter_to_storage_channel m :
  settles (_upload_twitter_to_storage_channel m).
Proof. unfold _upload_twitter_to_storage_channel. settles_auto. Qed.

#[local] Hint Resolve settles_upload_to_storage_channel
  settles_upload_media_group_to_storage_channel
  settles_upload_twitter_to_storage_channel : settles_db.

Lemma settles_recover_session : settles _recover_session.
Proof. unfold _recover_session. settles_auto. Qed.

Lemma settles_instagram_attempt url attempt : settles (instagram_attempt cfg url attempt).
Proof. unfold instagram_attempt. settles_auto. Qed.

Lemma settles_facebook_round url T : settles (facebook_round cfg url T).
Proof. unfold facebook_round. settles_auto. Qed.

#[local] Hint Resolve settles_recover_session settles_instagram_attempt
  settles_facebook_round : settles_db.

Lemma settles_facebook_recover_and_retry url T :
  settles (facebook_recover_and_retry cfg url T).
Proof. unfold facebook_recover_and_retry. settles_auto. Qed.

#[local] Hint Resolve settles_facebook_recover_and_retry : settles_db.

Lemma settles_process_instagram_url url : settles (process_instagram_url cfg url).
Proof. unfold process_instagram_url. settles_auto. Qed.

Lemma settles_process_tiktok_url url T : settles (process_tiktok_url cfg url T).
Proof. unfold process_tiktok_url. settles_auto. Qed.

Lemma settles_process_facebook_url url T : settles (process_facebook_url cfg url T).
Proof. unfold process_facebook_url. settles_auto. Qed.

Lemma settles_process_twitter_url url T pre :
  settles (process_twitter_url cfg url None T pre).
Proof. unfold process_twitter_url. settles_auto. Qed.

Lemma settles_next_fault : settles Database.next_fault.
Proof. intros w. unfold Database.next_fault. destruct (db_faults w); discriminate. Qed.

Lemma settles_fail_when b : settles (Database.fail_when b).
Proof. unfold Database.fail_when. settles_auto. Qed.

Lemma settles_get_db : settles Database.get_db.
Proof. intros w. discriminate. Qed.

Lemma settles_put_db d : settles (Database.put_db d).
Proof. intros w. discriminate. Qed.

#[local] Hint Resolve settles_next_fault settles_fail_when settles_get_db
  settles_put_db : settles_db.

Lemma settles_add_video u mid platform : settles (Database.add_video u mid platform).
Proof.
  unfold Database.add_video, Database.with_connection, Database.connect,
    Database.insert_video, Database._update_daily_stats,
    Database.execute, Database.commit, Database.close.
  settles_auto.
Qed.

Lemma settles_get_video u : settles (Database.get_video u).
Proof.
  unfold Database.get_video, Database.with_connection, Database.connect,
    Database.execute, Database.close.
  settles_auto.
Qed.

Lemma settles_increment_user_downloads u : settles (Database.increment_user_downloads u).
Proof.
  unfold Database.increment_user_downloads, Database.with_connection, Database.connect,
    Database.execute, Database.commit, Database.close.
  settles_auto.
Qed.

Lemma settles_get_globals : settles Handlers.get_globals.
Proof. intros w. discriminate. Qed.

Lemma settles_put_globals g : settles (Handlers.put_globals g).
Proof. intros w. discriminate. Qed.

#[local] Hint Resolve settles_get_globals settles_put_globals : settles_db.

Lemma settles_update_request h f : settles (Handlers.update_request h f).
Proof. unfold Handlers.update_request. settles_auto. Qed.

Lemma settles_set_current_processing_user u :
  settles (Handlers.set_current_processing_user u).
Proof. unfold Handlers.set_current_processing_user. settles_auto. Qed.

Lemma settles_get_request h : settles (Handlers.get_request h).
Proof. unfold Handlers.get_request. settles_auto. Qed.

Lemma settles_reply body : settles (Handlers.reply body).
Proof. unfold Handlers.reply. settles_auto. Qed.

#[local] Hint Resolve settles_update_request settles_set_current_processing_user
  settles_get_request settles_reply settles_process_instagram_url
  settles_process_tiktok_url settles_process_facebook_url settles_process_twitter_url
  settles_add_video settles_get_video settles_increment_user_downloads : settles_db.

Lemma settles_dispatch req : settles (Handlers.dispatch cfg req).
Proof. unfold Handlers.dispatch. settles_auto. Qed.

Lemma settles_send_processed_result h : settles (Handlers.send_processed_result h).
Proof. unfold Handlers.send_processed_result. settles_auto. Qed.

#[local] Hint Resolve settles_dispatch settles_send_processed_result : settles_db.

Lemma settles_worker_process h : settles (Handlers.worker_process cfg h).
Proof.
  unfold Handlers.worker_process, Handlers.deliver, Handlers.delete_loading_message,
    Handlers.report_error.
  settles_auto.
Qed.

#[local] Hint Resolve settles_worker_process : settles_db.

Lemma settles_worker_finish h : settles (Handlers.worker_finish cfg h).
Proof. unfold Handlers.worker_finish. settles_auto. Qed.

(** The second half of a turn of the worker always returns: whatever
    the processing of the request did, the loop goes on. *)
Lemma worker_complete_returns (i h : nat) (w : world) :
  exists w', Handlers.worker_complete cfg i h w = (Ret tt, w').
Proof.
  unfold Handlers.worker_complete.
  destruct (try_except_returns (Handlers.worker_finish cfg h) (fun _ => sleep 1) w
              (settles_worker_finish h)) as (a & w1 & Hf).
  { intros e w1. eexists. eexists. reflexivity. }
  rewrite (bind_Ret _ _ w w1 a Hf). eexists. reflexivity.
Qed.

End Settling.

(* ------------------------------------------------------------------ *)
(** ** The queue and its worker *)

Section Queue.

Import Handlers.
Variable cfg : config.

Lemma update_nth_length {A} (f : A -> A) (l : list A) : forall n,
  List.length (update_nth n f l) = List.length l.
Proof.
  induction l as [|x l IH]; intros [|n]; cbn [update_nth List.length]; auto.
Qed.

Lemma same_queue_refl w : same_queue w w.
Proof. unfold same_queue. auto. Qed.

Lemma same_queue_trans w1 w2 w3 : same_queue w1 w2 -> same_queue w2 w3 -> same_queue w1 w3.
Proof. unfold same_queue. intros (? & ? & ? & ?) (? & ? & ? & ?). repeat split; congruence. Qed.

Lemma worker_finish_same_queue (h : nat) : keeps same_queue (worker_finish cfg h).
Proof.
  apply keeps_worker_finish;
    try exact same_queue_refl; try exact same_queue_trans;
    try (intros; apply keeps_add_video); try (intros; apply keeps_increment_user_downloads);
    try exact same_queue_refl; try exact same_queue_trans;
    unfold same_queue, keeps; try (intros; cbn; repeat split; reflexivity).
  intros n f w. cbn. repeat split; try reflexivity. apply update_nth_length.
Qed.

(** What a submission does to the globals. *)
Lemma queue_processing_request_spec user ct u ut (w : world) :
  worker_tasks (handlers (snd (queue_processing_request user ct u ut w)))
  = (if processing_workers_started (handlers w) then worker_tasks (handlers w)
     else worker_tasks (handlers w) ++ [None])
  /\ processing_workers_started (handlers (snd (queue_processing_request user ct u ut w)))
     = true
  /\ List.length (requests (handlers (snd (queue_processing_request user ct u ut w))))
     = S (List.length (requests (handlers w)))
  /\ match fst (queue_processing_request user ct u ut w) with
     | Ret h =>
         h = List.length (requests (handlers w))
         /\ processing_queue (handlers (snd (queue_processing_request user ct u ut w)))
            = processing_queue (handlers w) ++ [h]
     | _ =>
         processing_queue (handlers (snd (queue_processing_request user ct u ut w)))
         = processing_queue (handlers w)
     end.
Proof.
  destruct w as [auth conn clk scr lg d f [rq q cur started tasks]].
  cbn [handlers processing_workers_started worker_tasks requests processing_queue].
  unfold queue_processing_request, start_processing_workers, reply, update_request,
    is_private, get_globals, put_globals, request, bind, ret.
  cbn [handlers processing_workers_started worker_tasks requests processing_queue
       script set_handlers add_log set_script negb chat_type fst snd].
  destruct started, (String.eqb ct "private"), q as [|h0 q],
    scr as [|[v|e] [|[v2|e2] rest]];
    cbn; rewrite ?update_nth_length, ?length_app; cbn;
    repeat split; try reflexivity; try lia.
Qed.

(** What taking a request does to the globals. *)
Lemma worker_dequeue_spec (i : nat) (w : world) :
  match fst (worker_dequeue i w) with
  | Ret h =>
      processing_queue (handlers w)
      = h :: processing_queue (handlers (snd (worker_dequeue i w)))
      /\ worker_tasks (handlers (snd (worker_dequeue i w)))
         = update_nth i (fun _ => Some h) (worker_tasks (handlers w))
      /\ processing_workers_started (handlers (snd (worker_dequeue i w)))
         = processing_workers_started (handlers w)
      /\ requests (handlers (snd (worker_dequeue i w))) = requests (handlers w)
  | _ => True
  end.
Proof.
  destruct w as [auth conn clk scr lg d f [rq q cur started tasks]].
  unfold worker_dequeue, worker_take, queue_get, get_request,
    set_current_processing_user, set_task, get_globals, put_globals, bind, ret, pending.
  cbn [handlers processing_workers_started worker_tasks requests processing_queue
       set_handlers fst snd].
  destruct q as [|h q]; [exact I|].
  cbn [handlers processing_workers_started worker_tasks requests processing_queue
       set_handlers fst snd].
  destruct (nth_error rq h); cbn; [|exact I]. repeat split; reflexivity.
Qed.

(** What running the held request to the end does to the globals. *)
Lemma worker_complete_spec (i h : nat) (w : world) :
  processing_queue (handlers (snd (worker_complete cfg i h w)))
  = processing_queue (handlers w)
  /\ worker_tasks (handlers (snd (worker_complete cfg i h w)))
     = update_nth i (fun _ => None) (worker_tasks (handlers w))
  /\ processing_workers_started (handlers (snd (worker_complete cfg i h w)))
     = processing_workers_started (handlers w)
  /\ List.length (requests (handlers (snd (worker_complete cfg i h w))))
     = List.length (requests (handlers w)).
Proof.
  unfold worker_complete.
  destruct (try_except_returns (worker_finish cfg h) (fun _ => sleep 1) w
              (settles_worker_finish cfg h)) as (a & w1 & Hf).
  { intros e w1. eexists. eexists. reflexivity. }
  assert (Hk : keeps same_queue (try_except (worker_finish cfg h) (fun _ => sleep 1))).
  { apply keeps_try_except; try exact same_queue_trans;
      [apply worker_finish_same_queue|].
    intros e w0. unfold same_queue. cbn. repeat split; reflexivity. }
  assert (Hsame : same_queue w w1).
  { specialize (Hk w). rewrite Hf in Hk. exact Hk. }
  rewrite (bind_Ret _ _ w w1 a Hf).
  destruct Hsame as (Hq & Ht & Hs & Hl).
  unfold set_task, get_globals, put_globals, bind. cbn.
  rewrite Hq, Ht, Hs, Hl. repeat split; reflexivity.
Qed.

Lemma submitted_app t1 t2 : submitted (t1 ++ t2) = submitted t1 ++ submitted t2.
Proof. apply flat_map_app. Qed.

Lemma begun_app t1 t2 : begun (t1 ++ t2) = begun t1 ++ begun t2.
Proof. apply flat_map_app. Qed.

Lemma ended_app t1 t2 : ended (t1 ++ t2) = ended t1 ++ ended t2.
Proof. apply flat_map_app. Qed.

Lemma In_submitted h t : In (Submit h) t <-> In h (submitted t).
Proof.
  unfold submitted. rewrite in_flat_map. split.
  - intros H. exists (Submit h). split; [assumption|left; reflexivity].
  - intros (l & Hl & Hh). destruct l; cbn in Hh; try contradiction.
    destruct Hh as [<-|[]]. assumption.
Qed.

Lemma In_begun h t : In (Begin h) t <-> In h (begun t).
Proof.
  unfold begun. rewrite in_flat_map. split.
  - intros H. exists (Begin h). split; [assumption|left; reflexivity].
  - intros (l & Hl & Hh). destruct l; cbn in Hh; try contradiction.
    destruct Hh as [<-|[]]. assumption.
Qed.

Lemma In_ended h t : In (End h) t <-> In h (ended t).
Proof.
  unfold ended. rewrite in_flat_map. split.
  - intros H. exists (End h). split; [assumption|left; reflexivity].
  - intros (l & Hl & Hh). destruct l; cbn in Hh; try contradiction.
    destruct Hh as [<-|[]]. assumption.
Qed.

Lemma precedes_app_l {A} (x y : A) t t' : precedes x y t -> precedes x y (t ++ t').
Proof.
  intros (t1 & t2 & t3 & ->). exists t1, t2, (t3 ++ t').
  rewrite <- !app_assoc. cbn. rewrite <- app_assoc. reflexivity.
Qed.

Lemma precedes_snoc {A} (x z : A) t : In x t -> precedes x z (t ++ [z]).
Proof.
  intros Hin. apply in_split in Hin. destruct Hin as (t1 & t2 & ->).
  exists t1, t2, []. rewrite <- app_assoc. reflexivity.
Qed.

Lemma precedes_snoc_inv {A} (x y z : A) t :
  precedes x y (t ++ [z]) -> precedes x y t \/ (y = z /\ In x t).
Proof.
  intros (t1 & t2 & t3 & Heq).
  destruct t3 as [|c t3] using rev_ind.
  - right.
    replace (t1 ++ x :: t2 ++ [y]) with ((t1 ++ x :: t2) ++ [y]) in Heq
      by (rewrite <- app_assoc; reflexivity).
    apply app_inj_tail in Heq. destruct Heq as [-> ->].
    split; [reflexivity|]. apply in_or_app. right. left. reflexivity.
  - left. clear IHt3.
    replace (t1 ++ x :: t2 ++ y :: t3 ++ [c])
      with ((t1 ++ x :: t2 ++ y :: t3) ++ [c]) in Heq
      by (rewrite <- !app_assoc; cbn; rewrite <- app_assoc; reflexivity).
    apply app_inj_tail in Heq. destruct Heq as [-> _].
    exists t1, t2, t3. reflexivity.
Qed.

Lemma precedes_submitted a b t :
  precedes (Submit a) (Submit b) t ->
  exists l1 l2 l3, submitted t = l1 ++ a :: l2 ++ b :: l3.
Proof.
  intros (t1 & t2 & t3 & ->).
  exists (submitted t1), (submitted t2), (submitted t3).
  rewrite submitted_app. cbn [submitted flat_map].
  change (flat_map _ (t2 ++ Submit b :: t3)) with (submitted (t2 ++ Submit b :: t3)).
  rewrite submitted_app. reflexivity.
Qed.

(** In a list without repetition an element has one place. *)
Lemma NoDup_split_unique {A} (x : A) : forall l1 l2 l1' l2',
  NoDup (l1 ++ x :: l2) -> l1 ++ x :: l2 = l1' ++ x :: l2' -> l1 = l1'.
Proof.
  induction l1 as [|y l1 IH]; intros l2 l1' l2' Hnd Heq.
  - destruct l1' as [|y' l1']; [reflexivity|].
    cbn in Heq. injection Heq as <- Heq. exfalso.
    cbn in Hnd. inversion Hnd as [|? ? Hnotin _]; subst.
    apply Hnotin. apply in_or_app. right. left. reflexivity.
  - destruct l1' as [|y' l1'].
    + cbn in Heq. injection Heq as -> Heq. exfalso.
      cbn in Hnd. inversion Hnd as [|? ? Hnotin _]; subst.
      apply Hnotin. apply in_or_app. right. left. reflexivity.
    + cbn in Heq. injection Heq as <- Heq. f_equal.
      cbn in Hnd. inversion Hnd; subst. eapply IH; eassumption.
Qed.

Lemma single_task_waiting (tasks : list (option nat)) (i : nat) :
  (List.length tasks <= 1)%nat -> nth_error tasks i = Some None ->
  tasks = [None] /\ i = 0%nat.
Proof.
  destruct tasks as [|t0 [|t1 tasks]]; cbn; intros Hlen Hnth; try lia.
  - destruct i; discriminate.
  - destruct i as [|i]; cbn in Hnth; [injection Hnth as ->; auto|].
    destruct i; discriminate.
Qed.

Lemma single_task_holding (tasks : list (option nat)) (i h : nat) :
  (List.length tasks <= 1)%nat -> nth_error tasks i = Some (Some h) ->
  tasks = [Some h] /\ i = 0%nat.
Proof.
  destruct tasks as [|t0 [|t1 tasks]]; cbn; intros Hlen Hnth; try lia.
  - destruct i; discriminate.
  - destruct i as [|i]; cbn in Hnth; [injection Hnth as ->; auto|].
    destruct i; discriminate.
Qed.

Lemma running_snoc_waiting (g : globals) tasks :
  worker_tasks g = tasks ++ [None] ->
  running g = flat_map (fun task => match task with Some h => [h] | None => [] end) tasks.
Proof.
  intros Ht. unfold running. rewrite Ht, flat_map_app. cbn. apply app_nil_r.
Qed.

Lemma invariant_submit (g g' : globals) (t : list label) :
  queue_invariant g t ->
  worker_tasks g'
  = (if processing_workers_started g then worker_tasks g else worker_tasks g ++ [None]) ->
  processing_workers_started g' = true ->
  List.length (requests g') = S (List.length (requests g)) ->
  processing_queue g' = processing_queue g ++ [List.length (requests g)] ->
  queue_invariant g' (t ++ [Submit (List.length (requests g))]).
Proof.
  intros (I1 & I2 & I3 & I4 & I5 & I6) Ht Hs Hl Hq.
  unfold queue_invariant.
  rewrite submitted_app, begun_app, ended_app. cbn [submitted begun ended flat_map].
  rewrite !app_nil_r, Hq, Hl.
  assert (Hrun : running g' = running g).
  { destruct (processing_workers_started g).
    - unfold running. rewrite Ht. reflexivity.
    - rewrite (running_snoc_waiting g' _ Ht). reflexivity. }
  repeat split.
  - rewrite I1, app_assoc. reflexivity.
  - rewrite Hrun. exact I2.
  - rewrite Ht. destruct (processing_workers_started g); [exact I3|].
    rewrite (I4 eq_refl). cbn. lia.
  - congruence.
  - apply Forall_app. split.
    + eapply Forall_impl; [|exact I5]. cbn. intros; lia.
    + constructor; [lia|constructor].
  - apply NoDup_app; [exact I6|repeat constructor; intros []|].
    intros h Hh [<-|[]]. rewrite Forall_forall in I5. specialize (I5 _ Hh). lia.
Qed.

Lemma invariant_submit_failed (g g' : globals) (t : list label) :
  queue_invariant g t ->
  worker_tasks g'
  = (if processing_workers_started g then worker_tasks g else worker_tasks g ++ [None]) ->
  processing_workers_started g' = true ->
  List.length (requests g') = S (List.length (requests g)) ->
  processing_queue g' = processing_queue g ->
  queue_invariant g' t.
Proof.
  intros (I1 & I2 & I3 & I4 & I5 & I6) Ht Hs Hl Hq.
  unfold queue_invariant. rewrite Hq, Hl.
  assert (Hrun : running g' = running g).
  { destruct (processing_workers_started g).
    - unfold running. rewrite Ht. reflexivity.
    - rewrite (running_snoc_waiting g' _ Ht). reflexivity. }
  repeat split; try assumption.
  - rewrite Hrun. exact I2.
  - rewrite Ht. destruct (processing_workers_started g); [exact I3|].
    rewrite (I4 eq_refl). cbn. lia.
  - congruence.
  - eapply Forall_impl; [|exact I5]. cbn. intros; lia.
Qed.

Lemma invariant_begin (g g' : globals) (t : list label) (i h : nat) :
  queue_invariant g t ->
  nth_error (worker_tasks g) i = Some None ->
  processing_queue g = h :: processing_queue g' ->
  worker_tasks g' = update_nth i (fun _ => Some h) (worker_tasks g) ->
  processing_workers_started g' = processing_workers_started g ->
  requests g' = requests g ->
  queue_invariant g' (t ++ [Begin h]).
Proof.
  intros (I1 & I2 & I3 & I4 & I5 & I6) Hi Hq Ht Hs Hr.
  destruct (single_task_waiting _ _ I3 Hi) as [Htasks ->].
  unfold queue_invariant.
  rewrite submitted_app, begun_app, ended_app. cbn [submitted begun ended flat_map].
  rewrite !app_nil_r, Hr, Hs.
  unfold running in *. rewrite Ht, Htasks in *. cbn in I2 |- *.
  rewrite app_nil_r in I2.
  repeat split; try assumption.
  - rewrite I1, Hq, <- app_assoc. reflexivity.
  - rewrite I2. reflexivity.
  - intros Hfalse. specialize (I4 Hfalse). discriminate.
Qed.

Lemma invariant_end (g g' : globals) (t : list label) (i h : nat) :
  queue_invariant g t ->
  nth_error (worker_tasks g) i = Some (Some h) ->
  processing_queue g' = processing_queue g ->
  worker_tasks g' = update_nth i (fun _ => None) (worker_tasks g) ->
  processing_workers_started g' = processing_workers_started g ->
  List.length (requests g') = List.length (requests g) ->
  queue_invariant g' (t ++ [End h]).
Proof.
  intros (I1 & I2 & I3 & I4 & I5 & I6) Hi Hq Ht Hs Hl.
  destruct (single_task_holding _ _ _ I3 Hi) as [Htasks ->].
  unfold queue_invariant.
  rewrite submitted_app, begun_app, ended_app. cbn [submitted begun ended flat_map].
  rewrite !app_nil_r, Hq, Hl, Hs.
  unfold running in *. rewrite Ht, Htasks in *. cbn in I2 |- *.
  repeat split; try assumption.
  - rewrite app_nil_r. exact I2.
  - intros Hfalse. specialize (I4 Hfalse). discriminate.
Qed.

Lemma fifo_submit (g : globals) (t : list label) :
  queue_invariant g t -> fifo_order t ->
  fifo_order (t ++ [Submit (List.length (requests g))]).
Proof.
  intros (I1 & I2 & I3 & I4 & I5 & I6) Hfifo a b Hprec Hbegin.
  apply in_app_or in Hbegin. destruct Hbegin as [Hbegin|[Hbegin|[]]]; [|discriminate].
  apply precedes_snoc_inv in Hprec. destruct Hprec as [Hprec|[Hb _]].
  - apply precedes_app_l, Hfifo; assumption.
  - injection Hb as ->. exfalso.
    apply In_begun in Hbegin.
    assert (Hin : In (List.length (requests g)) (submitted t))
      by (rewrite I1; apply in_or_app; left; assumption).
    rewrite Forall_forall in I5. specialize (I5 _ Hin). lia.
Qed.

Lemma fifo_begin (g : globals) (t : list label) (i h : nat) (q : list nat) :
  queue_invariant g t ->
  nth_error (worker_tasks g) i = Some None ->
  processing_queue g = h :: q ->
  fifo_order t ->
  fifo_order (t ++ [Begin h]).
Proof.
  intros (I1 & I2 & I3 & I4 & I5 & I6) Hi Hq Hfifo a b Hprec Hbegin.
  apply precedes_snoc_inv in Hprec. destruct Hprec as [Hprec|[Hb _]]; [|discriminate].
  apply in_app_or in Hbegin. destruct Hbegin as [Hbegin|[Hbegin|[]]].
  - apply precedes_app_l, Hfifo; assumption.
  - injection Hbegin as ->. apply precedes_snoc, In_ended.
    destruct (single_task_waiting _ _ I3 Hi) as [Htasks _].
    unfold running in I2. rewrite Htasks in I2. cbn in I2. rewrite app_nil_r in I2.
    rewrite <- I2.
    destruct (precedes_submitted a b t Hprec) as (l1 & l2 & l3 & Hsub).
    assert (Heq : begun t = l1 ++ a :: l2).
    { apply (NoDup_split_unique b (begun t) q (l1 ++ a :: l2) l3).
      - rewrite <- Hq, <- I1. exact I6.
      - rewrite <- Hq, <- I1, Hsub, <- app_assoc. reflexivity. }
    rewrite Heq. apply in_or_app. right. left. reflexivity.
Qed.

Lemma fifo_end (t : list label) (h : nat) : fifo_order t -> fifo_order (t ++ [End h]).
Proof.
  intros Hfifo a b Hprec Hbegin.
  apply precedes_snoc_inv in Hprec. destruct Hprec as [Hprec|[Hb _]]; [|discriminate].
  apply in_app_or in Hbegin. destruct Hbegin as [Hbegin|[Hbegin|[]]]; [|discriminate].
  apply precedes_app_l, Hfifo; assumption.
Qed.

Lemma run_action_preserves (a : action) (w : world) (t : list label) :
  queue_invariant (handlers w) t -> fifo_order t ->
  queue_invariant (handlers (fst (run_action cfg a (w, t)))) (snd (run_action cfg a (w, t)))
  /\ fifo_order (snd (run_action cfg a (w, t))).
Proof.
  intros Hinv Hfifo. destruct a as [user ct u ut|i|i|f]; cbn [run_action].
  - pose proof (queue_processing_request_spec user ct u ut w) as (Ht & Hs & Hl & Hr).
    destruct (queue_processing_request user ct u ut w) as [[h|e|] w'];
      cbn [fst snd] in *.
    + destruct Hr as [-> Hq]. split.
      * apply (invariant_submit (handlers w)); assumption.
      * apply (fifo_submit (handlers w)); assumption.
    + split; [|assumption]. apply (invariant_submit_failed (handlers w)); assumption.
    + split; [|assumption]. apply (invariant_submit_failed (handlers w)); assumption.
  - destruct (nth_error (worker_tasks (handlers w)) i) as [[h0|]|] eqn:Hi;
      cbn [fst snd]; try (split; assumption).
    pose proof (worker_dequeue_spec i w) as Hspec.
    destruct (worker_dequeue i w) as [[h|e|] w']; cbn [fst snd] in *;
      try (split; assumption).
    destruct Hspec as (Hq & Ht & Hs & Hr). split.
    + apply (invariant_begin (handlers w) (handlers w') t i h); assumption.
    + apply (fifo_begin (handlers w) t i h (processing_queue (handlers w'))); assumption.
  - destruct (nth_error (worker_tasks (handlers w)) i) as [[h|]|] eqn:Hi;
      cbn [fst snd]; try (split; assumption).
    pose proof (worker_complete_spec i h w) as (Hq & Ht & Hs & Hl). split.
    + apply (invariant_end (handlers w) _ t i h); assumption.
    + apply fifo_end; assumption.
  - cbn [fst snd]. split; assumption.
Qed.

Lemma run_schedule_preserves (s : list action) (w0 : world) :
  handlers w0 = initial_globals ->
  queue_invariant (handlers (fst (run_schedule cfg s w0))) (snd (run_schedule cfg s w0))
  /\ fifo_order (snd (run_schedule cfg s w0)).
Proof.
  intros Hinit. induction s as [|a s IH] using rev_ind.
  - cbn. rewrite Hinit. split.
    + unfold queue_invariant. cbn. repeat split; auto; constructor.
    + intros a b (t1 & t2 & t3 & Heq). destruct t1; discriminate.
  - unfold run_schedule in *. rewrite fold_left_app. cbn [fold_left].
    destruct (fold_left _ s (w0, [])) as [w t]. cbn [fst snd] in IH.
    destruct IH as [Hinv Hfifo]. apply run_action_preserves; assumption.
Qed.


End Queue.


Example two_submissions_trace :
  snd (Handlers.run_schedule example_config two_submissions
         (fresh_world [Gives VNone; Gives VNone; Gives VNone]))
  = [Handlers.Submit 0; Handlers.Submit 1; Handlers.Begin 0; Handlers.End 0;
     Handlers.Begin 1].
Proof. reflexivity. Qed.

(* ------------------------------------------------------------------ *)
(** ** Faults in the worker *)

Section WorkerFaults.

Import Handlers.
Variable cfg : config.

(** When the processing of a request returns, the completion signal is
    set and [current_processing_user] is cleared. *)
Lemma completion_set_when_processing_returns (h : nat) (w w1 : world) :
  worker_process cfg h w = (Ret tt, w1) ->
  requests (handlers (snd (worker_finish cfg h w)))
  = update_nth h set_completed (requests (handlers w1))
  /\ current_processing_user (handlers (snd (worker_finish cfg h w))) = None.
Proof.
  intros Hp. unfold worker_finish. rewrite (bind_Ret _ _ w w1 tt Hp).
  split; reflexivity.
Qed.

(** When it raises, which only the notice of the inner handler can make
    it do, the turn ends after a second's pause with the requests as the
    processing left them: the completion signal is not touched. *)
Lemma completion_skipped_when_processing_raises (i h : nat) (e : exn) (w w1 : world) :
  worker_process cfg h w = (Raise e, w1) ->
  fst (worker_complete cfg i h w) = Ret tt
  /\ requests (handlers (snd (worker_complete cfg i h w))) = requests (handlers w1)
  /\ current_processing_user (handlers (snd (worker_complete cfg i h w)))
     = current_processing_user (handlers w1)
  /\ clock (snd (worker_complete cfg i h w)) = clock w1 + 1.
Proof.
  intros Hp. unfold worker_complete, worker_finish.
  rewrite (bind_Ret _ _ w (set_clock (clock w1 + Z.max 0 1) w1) tt).
  - repeat split; reflexivity.
  - rewrite (try_except_Raise _ _ w w1 e); [reflexivity|]. apply bind_Raise, Hp.
Qed.

End WorkerFaults.

(** C3, at the failing input.  The first request's job fails and both
    notices to its user raise: the worker goes on and completes the
    second request, the fault is recorded in the first request's
    [error], but the first request's completion signal is never set,
    and after its turn [current_processing_user] still names its user. *)
Theorem worker_skips_completion_when_notice_fails :
  fst (Handlers.process_queue_worker example_config 2 0 blocked_user_world) = Ret tt
  /\ map completed
       (requests (handlers (snd (Handlers.process_queue_worker example_config 2 0
                                   blocked_user_world))))
     = [false; true]
  /\ map error
       (requests (handlers (snd (Handlers.process_queue_worker example_config 2 0
                                   blocked_user_world))))
     = [Some "Forbidden: bot was blocked by the user"; None]
  /\ current_processing_user
       (handlers (snd (Handlers.process_queue_worker example_config 1 0 blocked_user_world)))
     = Some 7.
Proof. vm_compute. repeat split; reflexivity. Qed.

(* ------------------------------------------------------------------ *)
(** ** Cache entries *)

Section CacheEntries.

Import Handlers Database.
Variable cfg : config.

Lemma try_except_bind {A B} (m : M A) (k : A -> M B) (h : exn -> M B) (w : world) :
  try_except (bind m k) h w
  = match m w with
    | (Ret a, w1) => try_except (k a) h w1
    | (Raise e, w1) => h e w1
    | (Pending, w1) => (Pending, w1)
    end.
Proof. unfold try_except, bind. destruct (m w) as [[a|e|] w1]; reflexivity. Qed.

Lemma same_videos_refl w : same_videos w w.
Proof. reflexivity. Qed.

Lemma same_videos_trans w1 w2 w3 : same_videos w1 w2 -> same_videos w2 w3 -> same_videos w1 w3.
Proof. unfold same_videos. congruence. Qed.

Lemma same_cache_refl w : same_cache w w.
Proof. split; reflexivity. Qed.

Lemma same_cache_trans w1 w2 w3 : same_cache w1 w2 -> same_cache w2 w3 -> same_cache w1 w3.
Proof. unfold same_cache. intros [? ?] [? ?]. split; congruence. Qed.

(** The job of a request leaves the database alone. *)
Lemma dispatch_same_cache req : keeps same_cache (dispatch cfg req).
Proof.
  apply keeps_dispatch;
    try exact same_cache_refl; try exact same_cache_trans;
    intros; split; reflexivity.
Qed.

(** What an insert does to the cache table. *)
Lemma add_video_videos u n p (w : world) :
  videos (db (snd (add_video u n p w)))
  = videos (db w) ++
    match select_video u (db w), pending_fault w with
    | None, NoFault | None, FailClose => [mkVideo u n p (clock w)]
    | _, _ => []
    end.
Proof.
  destruct w as [auth conn clk scr lg d fs g].
  unfold pending_fault. cbn [db db_faults hd clock].
  destruct fs as [|f fs]; [|destruct f];
    cbv -[select_video app];
    destruct (select_video u d); rewrite ?app_nil_r; reflexivity.
Qed.

Lemma increment_user_downloads_same_videos u :
  keeps same_videos (increment_user_downloads u).
Proof.
  intros w. destruct w as [auth conn clk scr lg d fs g].
  destruct fs as [|f fs]; [|destruct f]; reflexivity.
Qed.

(** Discharges the closure properties of [same_videos]. *)
Ltac videos_closure :=
  try exact same_videos_refl; try exact same_videos_trans;
  try (intros; apply increment_user_downloads_same_videos);
  try (intros; intros ?; reflexivity);
  try (intros; reflexivity).

Lemma after_add_video_same_videos h req :
  keeps same_videos (increment_user_downloads (user_id req) ;;; send_processed_result h).
Proof. apply keeps_after_add_video; videos_closure. Qed.

Lemma reply_same_videos body : keeps same_videos (reply body).
Proof. apply keeps_reply; videos_closure. Qed.

Lemma delete_loading_message_same_videos h : keeps same_videos (delete_loading_message h).
Proof. apply keeps_delete_loading_message; videos_closure. Qed.

Lemma report_error_same_videos h e : keeps same_videos (report_error h e).
Proof. apply keeps_report_error; videos_closure. Qed.

(** What delivering a job's result does to the cache table. *)
Lemma deliver_videos h req sid (w : world) :
  videos (db (snd (deliver h req sid w)))
  = videos (db w) ++ cached_rows req (Ret sid) w.
Proof.
  unfold deliver, cached_rows. destruct (Userbot.id_or_none sid) as [n|].
  - pose proof (add_video_videos (url req) n (url_type req) w) as Hadd.
    destruct (add_video_returns (url req) n (url_type req) w) as (b & w3 & Ha).
    rewrite Ha in Hadd. cbn [snd] in Hadd.
    rewrite (bind_Ret _ _ w w3 b Ha).
    rewrite (after_add_video_same_videos h req w3). exact Hadd.
  - rewrite (reply_same_videos _ w), app_nil_r. reflexivity.
Qed.

(** What one request's processing does to the cache table. *)
Lemma worker_process_videos h req (w : world) :
  nth_error (requests (handlers w)) h = Some req ->
  videos (db (snd (worker_process cfg h w)))
  = videos (db w)
    ++ cached_rows req (fst (dispatch cfg req w)) (snd (dispatch cfg req w)).
Proof.
  intros Hreq. unfold worker_process.
  rewrite try_except_bind.
  assert (Hget : get_request h w = (Ret req, w)).
  { unfold get_request, bind, get_globals. rewrite Hreq. reflexivity. }
  rewrite Hget, try_except_bind.
  pose proof (dispatch_same_cache req w) as [Hdb Hfaults].
  destruct (dispatch cfg req w) as [[sid|e|] w1]; cbn [fst snd] in *.
  - rewrite try_except_bind.
    change (update_request h (set_result sid) w1)
      with (Ret tt,
            set_handlers
              (mkGlobals (update_nth h (set_result sid) (requests (handlers w1)))
                 (processing_queue (handlers w1)) (current_processing_user (handlers w1))
                 (processing_workers_started (handlers w1)) (worker_tasks (handlers w1)))
              w1).
    cbv iota beta. set (w2 := set_handlers _ w1).
    rewrite try_except_bind.
    pose proof (deliver_videos h req sid w2) as Hdeliver.
    change (cached_rows req (Ret sid) w2) with (cached_rows req (Ret sid) w1) in Hdeliver.
    change (videos (db w2)) with (videos (db w1)) in Hdeliver.
    rewrite Hdb in Hdeliver at 1.
    destruct (deliver h req sid w2) as [[[]|e|] w3]; cbn [snd] in Hdeliver.
    + pose proof (keeps_try_except same_videos same_videos_trans
                    (delete_loading_message h) (report_error h)
                    (delete_loading_message_same_videos h)
                    (report_error_same_videos h) w3) as Hk.
      unfold same_videos in Hk. rewrite Hk. exact Hdeliver.
    + rewrite (report_error_same_videos h e w3). exact Hdeliver.
    + exact Hdeliver.
  - rewrite (report_error_same_videos h e w1), Hdb, app_nil_r. reflexivity.
  - cbn [snd cached_rows]. rewrite Hdb, app_nil_r. reflexivity.
Qed.

Lemma id_or_none_Some sid n :
  Userbot.id_or_none sid = Some n -> sid = Some n /\ n <> 0.
Proof.
  unfold Userbot.id_or_none. destruct sid as [m|]; [|discriminate].
  destruct (m =? 0) eqn:Hm; [discriminate|].
  intros [= <-]. split; [reflexivity|]. apply Z.eqb_neq, Hm.
Qed.

Lemma find_none_filter {A} (f : A -> bool) (l : list A) :
  find f l = None -> filter f l = [].
Proof.
  induction l as [|x l IH]; cbn; [reflexivity|].
  destruct (f x); [discriminate|exact IH].
Qed.

(** A lookup for a URL that has a row returns the row's reference. *)
Lemma get_video_hit u row (w : world) :
  select_video u (db w) = Some row -> pending_fault w = NoFault ->
  get_video u w
  = (Ret (Some (channel_message_id row, timestamp row)),
     set_db_faults (tl (db_faults w)) w).
Proof.
  destruct w as [auth conn clk scr lg d fs g].
  unfold pending_fault. cbn [db db_faults hd tl]. intros Hrow Hfault.
  destruct fs as [|f fs]; [|cbn in Hfault; subst f];
    cbv -[select_video]; rewrite Hrow; reflexivity.
Qed.

(** A URL that has a row is answered from the cache: no call goes out
    through the user session, nothing is queued, and the database stays
    as it is. *)
Lemma handle_text_hit user ct u ut row (w : world) :
  one_of ut ["instagram"; "tiktok"; "facebook"; "twitter"] = true ->
  select_video u (db w) = Some row -> pending_fault w = NoFault ->
  match fst (handle_text user ct u ut w) with
  | Ret r => r = SentFromCache (channel_message_id row)
  | Raise _ => True
  | Pending => False
  end
  /\ session_calls (log (snd (handle_text user ct u ut w))) = session_calls (log w)
  /\ handlers (snd (handle_text user ct u ut w)) = handlers w
  /\ db (snd (handle_text user ct u ut w)) = db w.
Proof.
  intros Hone Hrow Hfault. unfold handle_text. rewrite Hone.
  rewrite (bind_Ret _ _ w _ _ (get_video_hit u row w Hrow Hfault)).
  destruct w as [auth conn clk scr lg d fs g].
  cbn [db_faults set_db_faults tl].
  destruct scr as [|[v|e] [|[v2|e2] rest]]; cbn; repeat split.
Qed.

(** An insert leaves the rows already there in place. *)
Lemma add_video_keeps_entry u row u' n p (w : world) :
  select_video u (db w) = Some row ->
  select_video u (db (snd (add_video u' n p w))) = Some row.
Proof.
  unfold select_video. intros Hrow.
  rewrite add_video_videos, find_app_first. fold (select_video u (db w)).
  unfold select_video. rewrite Hrow. reflexivity.
Qed.


End CacheEntries.


Example success_is_cached_and_completed :
  videos (db (snd (Handlers.worker_finish example_config 0 success_world)))
  = [mkVideo "https://instagram.com/p/a" 500 "instagram" 2]
  /\ map completed (requests (handlers (snd (Handlers.worker_finish example_config 0
                                              success_world)))) = [true]
  /\ map result (requests (handlers (snd (Handlers.worker_finish example_config 0
                                           success_world)))) = [Some 500].
Proof. vm_compute. repeat split; reflexivity. Qed.

(* ------------------------------------------------------------------ *)
(** ** What a wait hands back *)

Section PollResults.

Import Userbot.
Variable cfg : config.

(** The scan keeps the wanted messages, in the order listed. *)
Lemma scan_media_wanted bot wm msgs : forall acc,
  scan_media cfg bot wm msgs acc = acc ++ filter (wanted_media cfg bot wm) msgs.
Proof.
  induction msgs as [|m msgs IH]; intros acc; cbn [scan_media filter].
  - rewrite app_nil_r. reflexivity.
  - unfold wanted_media at 1.
    destruct (wm <? id m); cbn [andb].
    + destruct (String.eqb bot (youtube_bot_username cfg)
                && negb (is_video m || is_audio m))%bool; cbn [negb andb].
      * apply IH.
      * destruct (is_video m || is_photo m || is_audio m)%bool.
        -- rewrite IH, <- app_assoc. reflexivity.
        -- apply IH.
    + apply IH.
Qed.

Lemma scan_twitter_wanted wm msgs : forall acc,
  scan_twitter wm msgs acc
  = (fst acc ++ filter (wanted_tweet wm) msgs, snd acc ++ filter (failure_notice wm) msgs).
Proof.
  induction msgs as [|m msgs IH]; intros [media_messages text_messages];
    cbn [scan_twitter filter fst snd].
  - rewrite !app_nil_r. reflexivity.
  - unfold wanted_tweet at 1, failure_notice at 1, is_link_preview.
    destruct (wm <? id m); cbn [andb]; [|apply IH].
    destruct (media m) eqn:Hmedia; cbn [negb andb]; try apply IH.
    + destruct (is_video m || is_photo m)%bool; cbn [negb andb fst snd].
      * rewrite IH. cbn [fst snd]. rewrite <- app_assoc. reflexivity.
      * destruct (String.eqb (message_text m) ""); cbn [negb andb].
        -- apply IH.
        -- destruct (Text.any_in failure_words (Text.lower (message_text m))).
           ++ rewrite IH. cbn [fst snd]. rewrite <- app_assoc. reflexivity.
           ++ apply IH.
    + destruct (is_video m || is_photo m)%bool; cbn [negb andb fst snd].
      * rewrite IH. cbn [fst snd]. rewrite <- app_assoc. reflexivity.
      * destruct (String.eqb (message_text m) ""); cbn [negb andb]; apply IH.
Qed.

Lemma insert_by_id_ascending m l : ascending l -> ascending (insert_by_id m l).
Proof.
  induction l as [|y l IH]; cbn [insert_by_id ascending].
  - intros _. split; [intros ? []|exact I].
  - intros [Hy Hl]. destruct (id m <=? id y) eqn:Hle.
    + apply Z.leb_le in Hle. cbn [ascending]. split; [|split; assumption].
      intros z [<-|Hz]; [exact Hle|]. specialize (Hy z Hz). lia.
    + apply Z.leb_gt in Hle. cbn [ascending]. split; [|apply IH, Hl].
      intros z Hz. apply insert_by_id_in in Hz. destruct Hz as [->|Hz]; [lia|].
      apply Hy, Hz.
Qed.

Lemma sort_by_id_ascending l : ascending (sort_by_id l).
Proof.
  induction l as [|m l IH]; cbn [sort_by_id]; [exact I|].
  apply insert_by_id_ascending, IH.
Qed.

Lemma last_cons {A} (l : list A) : forall (y d : A), last (y :: l) d = last l y.
Proof.
  induction l as [|a l IH]; intros y d; [reflexivity|].
  change (last (y :: a :: l) d) with (last (a :: l) d). rewrite !IH. reflexivity.
Qed.

(** The last message of an ascending list has the greatest id. *)
Lemma ascending_last l : forall m,
  ascending (m :: l) -> forall x, In x (m :: l) -> id x <= id (last l m).
Proof.
  induction l as [|y l IH]; intros m [Hm Hl] x Hx.
  - destruct Hx as [<-|[]]. cbn. lia.
  - rewrite last_cons.
    destruct Hx as [<-|Hx].
    + specialize (IH y Hl y (or_introl eq_refl)). specialize (Hm y (or_introl eq_refl)). lia.
    + apply (IH y Hl x Hx).
Qed.

Lemma last_in {A} (l : list A) : forall d, In (last l d) (d :: l).
Proof.
  induction l as [|y l IH]; intros d; [left; reflexivity|].
  rewrite last_cons. right. apply IH.
Qed.

Lemma rev_head_last {A} (l : list A) (d : A) : rev (d :: l) = last l d :: rev (removelast (d :: l)).
Proof.
  revert d. induction l as [|y l IH]; intros d; [reflexivity|].
  rewrite last_cons.
  change (removelast (d :: y :: l)) with (d :: removelast (y :: l)).
  cbn [rev]. cbn [rev] in IH. rewrite IH. reflexivity.
Qed.

(** [choose] on a list that is not empty is [pick]. *)
Lemma choose_pick return_all (ms : list message) (w : world) f :
  pick return_all ms = Some f -> choose return_all ms w = (Ret f, w).
Proof.
  destruct ms as [|m ms]; [discriminate|]. cbn [pick]. intros [= <-].
  unfold choose. destruct return_all; [reflexivity|].
  rewrite rev_head_last. reflexivity.
Qed.

(** What the guarded poll of [_wait_for_video_response] returns is read
    off the answer at the head of the script. *)
Lemma poll_video_answer bot wm return_all (w : world) :
  exists w1,
    try_except (poll_video cfg bot wm return_all) (fun _ => ret None) w
    = (Ret (pick return_all
              (sort_by_id (filter (wanted_media cfg bot wm)
                             (listed 10 (hd (Gives VNone) (script w)))))), w1)
    /\ clock w1 = clock w
    /\ script w1 = tl (script w)
    /\ log w1 = GetMessages bot 10 :: log w.
Proof.
  unfold try_except, poll_video, get_messages, bind, request.
  destruct (script w) as [|[v|e] rest] eqn:Hs; cbn [hd listed].
  - eexists. split; [reflexivity|]. cbn. rewrite Hs. auto.
  - destruct v as [|b|m|l|p]; cbn [listed];
      try (eexists; (split; [reflexivity|]); cbn; auto).
    cbn [as_messages ret]. rewrite scan_media_wanted. cbn [app].
    destruct (filter (wanted_media cfg bot wm) (firstn 10 l)) as [|m ms] eqn:Hf.
    + eexists. split; [reflexivity|]. cbn. auto.
    + destruct (pick return_all (sort_by_id (m :: ms))) as [f|] eqn:Hp.
      * rewrite (choose_pick _ _ _ f Hp). eexists. split; [reflexivity|]. cbn. auto.
      * exfalso. destruct (sort_by_id (m :: ms)) eqn:Hsort; [|discriminate].
        apply (sort_by_id_nonempty (m :: ms)); [discriminate|exact Hsort].
  - eexists. split; [reflexivity|]. cbn. auto.
Qed.

(** What the loop of [_wait_for_video_response] finds is what one of
    the scripted answers holds. *)
Lemma wait_video_loop_answer bot wm T return_all start : forall fuel w f w',
  wait_video_loop cfg fuel bot wm T return_all start w = (Ret (Some f), w') ->
  exists answer,
    In answer (script w)
    /\ pick return_all (sort_by_id (filter (wanted_media cfg bot wm) (listed 10 answer)))
       = Some f.
Proof.
  induction fuel as [|fuel IH]; intros w f w' Hrun; [discriminate|].
  cbn [wait_video_loop] in Hrun.
  rewrite (bind_Ret time _ w w (clock w) eq_refl) in Hrun.
  destruct (clock w - start <? T); [|discriminate].
  destruct (poll_video_answer bot wm return_all w) as (w1 & Hp & _ & Hs & _).
  rewrite (bind_Ret _ _ w w1 _ Hp) in Hrun.
  destruct (pick return_all _) as [f1|] eqn:Hpick.
  - injection Hrun as <- <-.
    destruct (script w) as [|answer rest]; [discriminate|].
    exists answer. split; [left; reflexivity|exact Hpick].
  - rewrite (bind_Ret (sleep 3) _ w1 (set_clock (clock w1 + Z.max 0 3) w1) tt eq_refl) in Hrun.
    destruct (IH _ _ _ Hrun) as (answer & Hin & Ha).
    exists answer. split; [|exact Ha].
    cbn [script set_clock] in Hin. rewrite Hs in Hin.
    destruct (script w); [destruct Hin|right; exact Hin].
Qed.

Lemma wait_for_video_response_answer bot wm T return_all (w : world) f w' :
  _wait_for_video_response cfg bot wm T return_all w = (Ret (Some f), w') ->
  exists answer,
    In answer (script w)
    /\ pick return_all (sort_by_id (filter (wanted_media cfg bot wm) (listed 10 answer)))
       = Some f.
Proof.
  unfold _wait_for_video_response.
  rewrite (bind_Ret time _ w w (clock w) eq_refl).
  apply wait_video_loop_answer.
Qed.

(** What [pick] gives of an ascending list. *)
Lemma pick_spec return_all (ms : list message) f :
  ascending ms -> pick return_all ms = Some f ->
  match f with
  | All l => return_all = true /\ l = ms
  | Single m => return_all = false /\ In m ms /\ forall x, In x ms -> id x <= id m
  end.
Proof.
  intros Hasc. destruct ms as [|m ms]; [discriminate|]. cbn [pick].
  destruct return_all; intros [= <-]; [split; reflexivity|].
  split; [reflexivity|]. split; [apply last_in|]. apply ascending_last, Hasc.
Qed.

(** X1.  Whatever [_wait_for_video_response] returns was read in one
    poll: every message returned is among the first ten of one scripted
    answer and passed the scan (newer than the watermark, of a wanted
    class).  With [return_all] the result is ascending in id and holds
    every such message of that poll; without it, no such message of
    that poll has a greater id than the one returned.  The wait never
    raises and never hangs. *)
Theorem wait_returns_newest_media_of_one_poll (bot : string) (wm T : Z)
    (return_all : bool) (w : world) :
  match fst (_wait_for_video_response cfg bot wm T return_all w) with
  | Ret (Some f) =>
      exists answer,
        In answer (script w)
        /\ (forall x, In x (found_messages f) ->
                      In x (listed 10 answer) /\ wanted_media cfg bot wm x = true)
        /\ match f with
           | All l =>
               return_all = true /\ ascending l
               /\ forall x, In x (listed 10 answer) -> wanted_media cfg bot wm x = true ->
                            In x l
           | Single m =>
               return_all = false
               /\ forall x, In x (listed 10 answer) -> wanted_media cfg bot wm x = true ->
                            id x <= id m
           end
  | Ret None => True
  | Raise _ => False
  | Pending => False
  end.
Proof.
  destruct (wait_for_video_response_spec cfg bot wm T return_all w) as (r & w' & Hr & _).
  rewrite Hr. cbn [fst]. destruct r as [f|]; [|exact I].
  destruct (wait_for_video_response_answer bot wm T return_all w f w' Hr)
    as (answer & Hin & Hpick).
  exists answer. split; [exact Hin|].
  pose proof (pick_spec return_all _ f (sort_by_id_ascending _) Hpick) as Hf.
  assert (Hmem : forall x, In x (sort_by_id (filter (wanted_media cfg bot wm)
                                               (listed 10 answer)))
                           <-> In x (listed 10 answer) /\ wanted_media cfg bot wm x = true).
  { intros x. rewrite sort_by_id_in, filter_In. reflexivity. }
  destruct f as [m|l].
  - destruct Hf as (-> & Hm & Hmax). split.
    + intros x [<-|[]]. apply Hmem, Hm.
    + split; [reflexivity|]. intros x Hx Hw. apply Hmax, Hmem. split; assumption.
  - destruct Hf as (-> & ->). split.
    + intros x Hx. apply Hmem, Hx.
    + split; [reflexivity|]. split; [apply sort_by_id_ascending|].
      intros x Hx Hw. apply Hmem. split; assumption.
Qed.

Lemma pick_found return_all (ms : list message) f :
  pick return_all ms = Some f -> forall x, In x (found_messages f) -> In x ms.
Proof.
  destruct ms as [|m ms]; [discriminate|]. cbn [pick].
  destruct return_all; intros [= <-] x Hx; cbn [found_messages] in Hx.
  - exact Hx.
  - destruct Hx as [<-|[]]. apply last_in.
Qed.

(** X2.  Every message [_wait_for_video_response] returns is a video, a
    photo or an audio, and from the YouTube responder it is a video or
    an audio: a photo of that responder is never returned. *)
Theorem wait_returns_media_classes (bot : string) (wm T : Z) (return_all : bool)
    (w : world) :
  match fst (_wait_for_video_response cfg bot wm T return_all w) with
  | Ret (Some f) =>
      Forall (fun m => (is_video m || is_photo m || is_audio m)%bool = true
                       /\ (bot = youtube_bot_username cfg ->
                           (is_video m || is_audio m)%bool = true))
             (found_messages f)
  | _ => True
  end.
Proof.
  destruct (wait_for_video_response_spec cfg bot wm T return_all w) as (r & w' & Hr & _).
  rewrite Hr. cbn [fst]. destruct r as [f|]; [|exact I].
  destruct (wait_for_video_response_answer bot wm T return_all w f w' Hr)
    as (answer & _ & Hpick).
  apply Forall_forall. intros x Hx.
  apply (pick_found _ _ _ Hpick) in Hx.
  apply sort_by_id_in, filter_In in Hx. destruct Hx as [_ Hw].
  unfold wanted_media in Hw.
  apply andb_true_iff in Hw. destruct Hw as [Hw Hclass].
  apply andb_true_iff in Hw. destruct Hw as [_ Hyt].
  split; [exact Hclass|]. intros ->.
  rewrite String.eqb_refl in Hyt. cbn [andb] in Hyt.
  apply negb_true_iff in Hyt. apply negb_false_iff in Hyt. exact Hyt.
Qed.

(* ---------------------------------------------------------------- *)

(** What the guarded poll of [_wait_for_twitter_response] returns. *)
Lemma poll_twitter_answer bot wm return_all (w : world) :
  exists w1,
    try_except (poll_twitter bot wm return_all) (fun _ => ret None) w
    = (Ret (match pick return_all
                    (sort_by_id (filter (wanted_tweet wm)
                                   (listed 20 (hd (Gives VNone) (script w))))) with
            | Some f => Some (Some f)
            | None =>
                match filter (failure_notice wm)
                        (listed 20 (hd (Gives VNone) (script w))) with
                | [] => None
                | _ :: _ => Some None
                end
            end), w1)
    /\ clock w1 = clock w
    /\ script w1 = tl (script w)
    /\ log w1 = GetMessages bot 20 :: log w.
Proof.
  unfold try_except, poll_twitter, get_messages, bind, request.
  destruct (script w) as [|[v|e] rest] eqn:Hs; cbn [hd listed].
  - eexists. split; [reflexivity|]. cbn. rewrite Hs. auto.
  - destruct v as [|b|m|l|p]; cbn [listed];
      try (eexists; (split; [reflexivity|]); cbn; auto).
    cbn [as_messages ret]. rewrite scan_twitter_wanted. cbn [app fst snd].
    destruct (filter (wanted_tweet wm) (firstn 20 l)) as [|m ms] eqn:Hf.
    + cbn [sort_by_id pick].
      destruct (filter (failure_notice wm) (firstn 20 l));
        (eexists; split; [reflexivity|]; cbn; auto).
    + destruct (pick return_all (sort_by_id (m :: ms))) as [f|] eqn:Hp.
      * rewrite (choose_pick _ _ _ f Hp). eexists. split; [reflexivity|]. cbn. auto.
      * exfalso. destruct (sort_by_id (m :: ms)) eqn:Hsort; [|discriminate].
        apply (sort_by_id_nonempty (m :: ms)); [discriminate|exact Hsort].
  - eexists. split; [reflexivity|]. cbn. auto.
Qed.

Lemma wait_twitter_loop_answer bot wm T return_all poll_interval start :
  forall fuel w f w',
  wait_twitter_loop fuel bot wm T return_all poll_interval start w = (Ret (Some f), w') ->
  exists answer,
    In answer (script w)
    /\ pick return_all (sort_by_id (filter (wanted_tweet wm) (listed 20 answer))) = Some f.
Proof.
  induction fuel as [|fuel IH]; intros w f w' Hrun; [discriminate|].
  cbn [wait_twitter_loop] in Hrun.
  rewrite (bind_Ret time _ w w (clock w) eq_refl) in Hrun.
  destruct (clock w - start <? T); [|discriminate].
  destruct (poll_twitter_answer bot wm return_all w) as (w1 & Hp & _ & Hs & _).
  rewrite (bind_Ret _ _ w w1 _ Hp) in Hrun.
  destruct (pick return_all _) as [f1|] eqn:Hpick.
  - injection Hrun as <- <-.
    destruct (script w) as [|answer rest]; [discriminate|].
    exists answer. split; [left; reflexivity|exact Hpick].
  - destruct (filter (failure_notice wm) _); [|discriminate].
    rewrite (bind_Ret (sleep poll_interval) _ w1
               (set_clock (clock w1 + Z.max 0 poll_interval) w1) tt eq_refl) in Hrun.
    destruct (IH _ _ _ Hrun) as (answer & Hin & Ha).
    exists answer. split; [|exact Ha].
    cbn [script set_clock] in Hin. rewrite Hs in Hin.
    destruct (script w); [destruct Hin|right; exact Hin].
Qed.

(** X3.  Whatever [_wait_for_twitter_response] returns was read in one
    poll of twenty messages: the messages returned with [return_all]
    are ascending in id, and every message returned is a video or a
    photo of that poll that is not a link preview.  The wait never
    raises. *)
Theorem twitter_wait_returns_files_only (bot : string) (wm T : Z) (return_all : bool)
    (poll_interval : Z) (w : world) :
  match fst (_wait_for_twitter_response bot wm T return_all poll_interval w) with
  | Ret (Some f) =>
      exists answer,
        In answer (script w)
        /\ ascending (found_messages f)
        /\ forall x, In x (found_messages f) ->
             In x (listed 20 answer)
             /\ media x <> MediaWebPage
             /\ (is_video x || is_photo x)%bool = true
  | Ret None => True
  | Raise _ => False
  | Pending => True
  end.
Proof.
  unfold _wait_for_twitter_response.
  rewrite (bind_Ret time _ w w (clock w) eq_refl).
  pose proof (wait_twitter_loop_safe bot wm T return_all poll_interval (clock w)
                (S (Z.to_nat T)) w) as Hsafe.
  destruct (wait_twitter_loop _ _ _ _ _ _ _ _) as [[[f|]| |] w'] eqn:Hrun; cbn [fst] in *;
    try exact I; try exact Hsafe.
  destruct (wait_twitter_loop_answer _ _ _ _ _ _ _ _ _ _ Hrun) as (answer & Hin & Hpick).
  exists answer. split; [exact Hin|]. split.
  - pose proof (pick_spec return_all _ f (sort_by_id_ascending _) Hpick) as Hf.
    destruct f as [m|l]; cbn [found_messages].
    + split; [intros ? []|exact I].
    + destruct Hf as [_ ->]. apply sort_by_id_ascending.
  - intros x Hx. apply (pick_found _ _ _ Hpick) in Hx.
    apply sort_by_id_in, filter_In in Hx. destruct Hx as [Hl Hw].
    unfold wanted_tweet, is_link_preview in Hw.
    apply andb_true_iff in Hw. destruct Hw as [Hw Hclass].
    apply andb_true_iff in Hw. destruct Hw as [_ Hprev].
    split; [exact Hl|]. split; [|exact Hclass].
    intros Hm. rewrite Hm in Hprev. discriminate.
Qed.

(** X4.  With a positive timeout, when the first poll of
    [_wait_for_twitter_response] holds no wanted media but a text
    above the watermark that tells of a failure, the wait returns
    [None] at once: the poll is its only call and the clock has not
    moved. *)
Theorem twitter_failure_notice_ends_wait (bot : string) (wm T : Z) (return_all : bool)
    (poll_interval : Z) (w : world) (l : list message) (rest : list reply) :
  0 < T ->
  script w = Gives (VMessages l) :: rest ->
  filter (wanted_tweet wm) (firstn 20 l) = [] ->
  filter (failure_notice wm) (firstn 20 l) <> [] ->
  _wait_for_twitter_response bot wm T return_all poll_interval w
  = (Ret None, add_log (GetMessages bot 20) (set_script rest w)).
Proof.
  intros HT Hs Hmedia Htext.
  unfold _wait_for_twitter_response.
  rewrite (bind_Ret time _ w w (clock w) eq_refl).
  cbn [wait_twitter_loop].
  rewrite (bind_Ret time _ w w (clock w) eq_refl).
  replace (clock w - clock w <? T) with true by (symmetry; apply Z.ltb_lt; lia).
  unfold try_except, poll_twitter, get_messages, bind, request. rewrite Hs.
  cbn [as_messages ret]. rewrite scan_twitter_wanted. cbn [app fst snd].
  rewrite Hmedia.
  destruct (filter (failure_notice wm) (firstn 20 l)); [contradiction|reflexivity].
Qed.

(* ---------------------------------------------------------------- *)

(** What the guarded poll of [_wait_for_format_message] returns. *)
Lemma poll_format_answer bot wm (w : world) :
  exists w1,
    try_except (poll_format bot wm) (fun _ => sleep 2 ;;; ret None) w
    = (Ret (find (fun m => ((wm <? id m) && has_data_button m)%bool)
                 (listed 10 (hd (Gives VNone) (script w)))), w1)
    /\ clock w <= clock w1 <= clock w + 2
    /\ (find (fun m => ((wm <? id m) && has_data_button m)%bool)
             (listed 10 (hd (Gives VNone) (script w))) = None -> clock w1 = clock w + 2)
    /\ script w1 = tl (script w).
Proof.
  unfold try_except, poll_format, get_messages, bind, request, sleep.
  destruct (script w) as [|[v|e] rest] eqn:Hs; cbn [hd listed find].
  - eexists. split; [reflexivity|]. cbn. rewrite Hs. repeat split; lia.
  - destruct v as [|b|m|l|p]; cbn [listed find];
      try (eexists; (split; [reflexivity|]); cbn; repeat split; lia).
    cbn [as_messages ret].
    destruct (find _ (firstn 10 l)) as [m|];
      (eexists; split; [reflexivity|]; cbn; repeat split; try lia; try discriminate).
  - eexists. split; [reflexivity|]. cbn. repeat split; lia.
Qed.

Lemma wait_format_loop_spec bot wm T start : forall fuel w,
  Z.max 0 (T - (clock w - start)) < Z.of_nat fuel ->
  exists r w',
    wait_format_loop fuel bot wm T start w = (Ret r, w')
    /\ (forall m, r = Some m ->
        exists answer,
          In answer (script w)
          /\ find (fun m => ((wm <? id m) && has_data_button m)%bool) (listed 10 answer)
             = Some m)
    /\ (Forall (quiet_format wm) (script w) ->
        r = None /\ clock w <= clock w' <= Z.max (clock w) (start + T + 1)).
Proof.
  induction fuel as [|fuel IH]; intros w Hfuel; [simpl in Hfuel; lia|].
  cbn [wait_format_loop].
  rewrite (bind_Ret time _ w w (clock w) eq_refl).
  destruct (clock w - start <? T) eqn:Hnow.
  - apply Z.ltb_lt in Hnow.
    destruct (poll_format_answer bot wm w) as (w1 & Hp & Hc & Hc2 & Hs).
    rewrite (bind_Ret _ _ w w1 _ Hp).
    destruct (find _ (listed 10 (hd (Gives VNone) (script w)))) as [m|] eqn:Hfind.
    + exists (Some m), w1. split; [reflexivity|]. split.
      * intros m' [= <-]. destruct (script w) as [|answer rest]; [discriminate|].
        exists answer. split; [left; reflexivity|exact Hfind].
      * intros Hquiet. exfalso.
        destruct (script w) as [|answer rest]; [discriminate|].
        inversion Hquiet as [|? ? Hq _]; subst. unfold quiet_format in Hq.
        cbn [hd] in Hfind. rewrite Hfind in Hq. discriminate.
    + specialize (Hc2 eq_refl).
      destruct (IH w1) as (r & w' & Hl & Ha & Hq); [lia|].
      exists r, w'. split; [exact Hl|]. split.
      * intros m Hm. destruct (Ha m Hm) as (answer & Hin & Hf).
        exists answer. split; [|exact Hf]. rewrite Hs in Hin.
        destruct (script w); [destruct Hin|right; exact Hin].
      * intros Hquiet. destruct Hq as [-> Hclock].
        { rewrite Hs. apply Forall_tl, Hquiet. }
        split; [reflexivity|]. lia.
  - apply Z.ltb_ge in Hnow. exists None, w. split; [reflexivity|]. split.
    + discriminate.
    + intros _. split; [reflexivity|]. lia.
Qed.

Lemma wait_for_format_message_spec bot wm T (w : world) :
  exists r w',
    _wait_for_format_message bot wm T w = (Ret r, w')
    /\ (forall m, r = Some m ->
        exists answer,
          In answer (script w)
          /\ find (fun m => ((wm <? id m) && has_data_button m)%bool) (listed 10 answer)
             = Some m)
    /\ (Forall (quiet_format wm) (script w) ->
        r = None /\ 0 <= clock w' - clock w < Z.max 0 T + 2).
Proof.
  unfold _wait_for_format_message.
  rewrite (bind_Ret time _ w w (clock w) eq_refl).
  destruct (wait_format_loop_spec bot wm T (clock w) (S (Z.to_nat T)) w)
    as (r & w' & Hl & Ha & Hq); [lia|].
  exists r, w'. split; [exact Hl|]. split; [exact Ha|].
  intros Hquiet. destruct (Hq Hquiet) as [-> Hclock]. split; [reflexivity|]. lia.
Qed.

(** X5.  The message [_wait_for_format_message] returns is newer than
    the watermark and has a button with data, and in the listing of
    one poll (the first ten messages of one answer) no message before
    it is both.  The wait never raises and never hangs. *)
Theorem format_message_is_first_keyboard_above_watermark (bot : string) (wm T : Z)
    (w : world) :
  match fst (_wait_for_format_message bot wm T w) with
  | Ret (Some m) =>
      wm < id m /\ has_data_button m = true
      /\ exists answer before after,
           In answer (script w)
           /\ listed 10 answer = before ++ m :: after
           /\ forall x, In x before -> wm < id x -> has_data_button x = false
  | Ret None => True
  | Raise _ => False
  | Pending => False
  end.
Proof.
  destruct (wait_for_format_message_spec bot wm T w) as (r & w' & Hr & Ha & _).
  rewrite Hr. cbn [fst]. destruct r as [m|]; [|exact I].
  destruct (Ha m eq_refl) as (answer & Hin & Hfind).
  pose proof (find_some _ _ Hfind) as [_ Htest].
  apply andb_true_iff in Htest. destruct Htest as [Hid Hkb]. apply Z.ltb_lt in Hid.
  split; [exact Hid|]. split; [exact Hkb|].
  exists answer.
  revert Hfind. generalize (listed 10 answer). intros l.
  induction l as [|y l IH]; [discriminate|]. cbn [find].
  destruct ((wm <? id y) && has_data_button y)%bool eqn:Hy.
  - intros [= ->]. exists [], l. split; [exact Hin|]. split; [reflexivity|]. intros ? [].
  - intros Hfind. destruct (IH Hfind) as (before & after & _ & Hl & Hb).
    exists (y :: before), after. split; [exact Hin|]. split; [rewrite Hl; reflexivity|].
    intros x [<-|Hx] Hwm.
    + apply Z.ltb_lt in Hwm. rewrite Hwm in Hy. exact Hy.
    + apply Hb; assumption.
Qed.


End PollResults.

Lemma twitter_failure_notice_ends_wait_witness :
  Userbot._wait_for_twitter_response "twittervid_bot" 5 90 false 5
    (fresh_world [Gives (VMessages failure_answer)])
  = (Ret None, add_log (GetMessages "twittervid_bot" 20)
                 (set_script [] (fresh_world [Gives (VMessages failure_answer)]))).
Proof.
  apply (twitter_failure_notice_ends_wait "twittervid_bot" 5 90 false 5
           (fresh_world [Gives (VMessages failure_answer)]) failure_answer []).
  - lia.
  - reflexivity.
  - reflexivity.
  - vm_compute. discriminate.
Defined.


(* ------------------------------------------------------------------ *)
(** ** Clicking a button, archiving a file *)

Section Clicks.

Import Userbot.

Lemma click_scan_hit cb (l : list button) :
  for_first (click_target cb) l = Ret (Some tt) ->
  exists x, In x l /\ data x = Token cb.
Proof.
  induction l as [|b l IH]; cbn [for_first]; [discriminate|].
  unfold click_target at 1, has_data, decode.
  destruct (data b) as [| |s] eqn:Hd; cbn [res_bind].
  - intros H. destruct (IH H) as (x & Hx & Hdx). exists x. split; [right|]; assumption.
  - discriminate.
  - destruct (String.eqb s cb) eqn:Hs.
    + intros _. apply String.eqb_eq in Hs. subst s. exists b. split; [left; reflexivity|exact Hd].
    + intros H. destruct (IH H) as (x & Hx & Hdx). exists x. split; [right|]; assumption.
Qed.

(** The scan of a keyboard for the button comes to an end. *)
Lemma click_scan_settles cb (l : list button) : for_first (click_target cb) l <> Pending.
Proof.
  induction l as [|b l IH]; [discriminate|].
  cbn [for_first]. unfold click_target at 1, has_data, decode.
  destruct (data b); cbn [res_bind]; try discriminate; auto.
  destruct (String.eqb s cb); [discriminate|auto].
Qed.

Lemma click_inline_button_returns (m : message) (cb : string) (w : world) :
  exists b w', _click_inline_button m cb w = (Ret b, w').
Proof.
  unfold _click_inline_button, try_except, bind, lift.
  destruct (reply_markup m) as [rows|]; [|eexists; eexists; reflexivity].
  destruct (for_first _ rows) as [[[]|]|e|] eqn:Hfor;
    try (eexists; eexists; reflexivity).
  - unfold request. destruct (script w) as [|[v|e] rest]; eexists; eexists; reflexivity.
  - exfalso. rewrite for_first_concat in Hfor. exact (click_scan_settles cb _ Hfor).
Qed.

(** An album upload that returns an id has just sent the files. *)
Lemma media_group_upload_log (media_messages : list message) (w w' : world) (n : Z) :
  _upload_media_group_to_storage_channel media_messages w = (Ret (Some n), w') ->
  exists items older, log w' = SendFile items :: older.
Proof.
  unfold _upload_media_group_to_storage_channel, try_except, bind.
  destruct (filter has_media media_messages) as [|f fs]; [discriminate|].
  unfold request. destruct (script w) as [|[v|e] rest]; try discriminate.
  destruct v as [|b|sent|sent|p]; cbn [truthy]; try discriminate.
  - destruct b; discriminate.
  - intros [= _ <-]. eexists. eexists. reflexivity.
  - destruct sent as [|s0 sent]; cbn [List.length Nat.eqb negb]; [discriminate|].
    intros H. assert (Hw : w' = add_log (SendFile (List.length (firstn 10 (f :: fs))))
                                   (set_script rest w)).
    { revert H. destruct (rev (s0 :: sent)); intros [= _ <-]; reflexivity. }
    subst w'. eexists. eexists. reflexivity.
  - destruct (negb (String.eqb p "")); discriminate.
Qed.

(** X7.  [_click_inline_button] always returns a boolean.  [True] means
    that the keyboard has a button whose data decode to the callback
    data and that the click, the one call made, was answered with a
    value.  With [False] at most the click was made.  When no button
    of the message carries the callback data the result is [False] and
    no call is made. *)
Theorem click_inline_button_spec (m : message) (cb : string) (w : world) :
  exists b w',
    _click_inline_button m cb w = (Ret b, w')
    /\ (b = true ->
        (exists rows x, reply_markup m = Some rows /\ In x (List.concat rows)
                        /\ data x = Token cb)
        /\ exists v rest, script w = Gives v :: rest
                          /\ w' = add_log (Click (id m) cb) (set_script rest w))
    /\ (b = false ->
        w' = w \/ w' = add_log (Click (id m) cb) (set_script (tl (script w)) w))
    /\ ((forall rows x, reply_markup m = Some rows -> In x (List.concat rows) ->
                        data x <> Token cb) ->
        b = false /\ w' = w).
Proof.
  destruct w as [auth conn clk scr lg d fl g].
  unfold _click_inline_button, try_except, bind, lift.
  destruct (reply_markup m) as [rows|] eqn:Hrows.
  - rewrite for_first_concat.
    destruct (for_first (click_target cb) (List.concat rows)) as [[[]|]|e|] eqn:Hscan.
    + destruct (click_scan_hit cb _ Hscan) as (x & Hx & Hdx).
      unfold request. cbn [script]. destruct scr as [|[v|e] rest]; cbn [ret].
      * exists false. eexists. split; [reflexivity|]. split; [discriminate|]. split.
        -- intros _. right. reflexivity.
        -- intros Hnone. exfalso. apply (Hnone rows x eq_refl Hx Hdx).
      * exists true. eexists. split; [reflexivity|]. split.
        -- intros _. split; [exists rows, x; auto|]. exists v, rest. split; reflexivity.
        -- split; [discriminate|].
           intros Hnone. exfalso. apply (Hnone rows x eq_refl Hx Hdx).
      * exists false. eexists. split; [reflexivity|]. split; [discriminate|]. split.
        -- intros _. right. reflexivity.
        -- intros Hnone. exfalso. apply (Hnone rows x eq_refl Hx Hdx).
    + eexists false, _. split; [reflexivity|]. split; [discriminate|]. split; auto.
    + eexists false, _. split; [reflexivity|]. split; [discriminate|]. split; auto.
    + (* the scan of a keyboard always comes to an end *)
      exfalso. clear -Hscan. induction (List.concat rows) as [|b l IH]; [discriminate|].
      cbn [for_first] in Hscan. unfold click_target at 1, has_data, decode in Hscan.
      destruct (data b); cbn [res_bind] in Hscan; try discriminate; auto.
      destruct (String.eqb s cb); [discriminate|auto].
  - eexists false, _. split; [reflexivity|]. split; [discriminate|]. split; auto.
Qed.

(** X8.  [_upload_media_group_to_storage_channel] never raises.  With no
    message that has media it returns [None] and makes no call;
    otherwise it makes exactly one call, a [send_file] of at least one
    and at most ten files.  An id it returns is the id of the last
    message the call handed back (of the message, when it handed back
    a single one). *)
Theorem media_group_upload_spec (media_messages : list message) (w : world) :
  exists r w',
    _upload_media_group_to_storage_channel media_messages w = (Ret r, w')
    /\ match filter has_media media_messages with
       | [] => r = None /\ w' = w
       | media_files =>
           log w' = SendFile (Nat.min 10 (List.length media_files)) :: log w
           /\ script w' = tl (script w)
           /\ (1 <= Nat.min 10 (List.length media_files) <= 10)%nat
       end
    /\ (forall n, r = Some n ->
        exists v, hd_error (script w) = Some (Gives v)
                  /\ match v with
                     | VMessages sent => exists d, id (last sent d) = n /\ sent <> []
                     | VMessage sent => id sent = n
                     | _ => False
                     end).
Proof.
  unfold _upload_media_group_to_storage_channel, try_except, bind.
  destruct (filter has_media media_messages) as [|f fs] eqn:Hfiles.
  - exists None, w. split; [reflexivity|]. split; [split; reflexivity|discriminate].
  - assert (Hlen : List.length (firstn 10 (f :: fs))
                   = Nat.min 10 (List.length (f :: fs))).
    { apply length_firstn. }
    rewrite Hlen.
    assert (Hbound : (1 <= Nat.min 10 (List.length (f :: fs)) <= 10)%nat).
    { cbn [List.length]. lia. }
    unfold request. destruct (script w) as [|[v|e] rest] eqn:Hs; cbn [hd_error tl].
    + exists None. eexists. split; [reflexivity|]. cbn. rewrite Hs.
      split; [auto|discriminate].
    + destruct v as [|b|sent|sent|p]; cbn [truthy].
      * exists None. eexists. split; [reflexivity|]. cbn. split; [auto|discriminate].
      * destruct b.
        -- exists None. eexists. split; [reflexivity|]. cbn. split; [auto|discriminate].
        -- exists None. eexists. split; [reflexivity|]. cbn. split; [auto|discriminate].
      * exists (Some (id sent)). eexists. split; [reflexivity|]. cbn. split; [auto|].
        intros n [= <-]. exists (VMessage sent). split; reflexivity.
      * destruct sent as [|s0 sent]; cbn [List.length Nat.eqb negb].
        -- exists None. eexists. split; [reflexivity|]. cbn. split; [auto|discriminate].
        -- rewrite rev_head_last.
           exists (Some (id (last sent s0))). eexists. split; [reflexivity|]. cbn.
           split; [auto|].
           intros n [= <-]. exists (VMessages (s0 :: sent)). split; [reflexivity|].
           exists s0. rewrite last_cons. split; [reflexivity|discriminate].
      * destruct (negb (String.eqb p "")).
        -- exists None. eexists. split; [reflexivity|]. cbn. split; [auto|discriminate].
        -- exists None. eexists. split; [reflexivity|]. cbn. split; [auto|discriminate].
    + exists None. eexists. split; [reflexivity|]. cbn. split; [auto|discriminate].
Qed.

(** X9.  Of the media found the Facebook and Twitter jobs choose the newest video:
    no message after the chosen one is a video, and the chosen one is
    a video unless the list holds none, in which case it is the last
    message.  Nothing is chosen only of an empty list. *)
Theorem choose_video_prefers_newest_video (media_messages : list message) :
  match choose_video media_messages with
  | None => media_messages = []
  | Some chosen =>
      exists older newer,
        media_messages = older ++ chosen :: newer
        /\ forallb (fun m => negb (is_video m)) newer = true
        /\ (is_video chosen = true
            \/ (newer = [] /\ forallb (fun m => negb (is_video m)) media_messages = true))
  end.
Proof.
  unfold choose_video.
  induction media_messages as [|m l IH] using rev_ind.
  - reflexivity.
  - rewrite rev_app_distr. cbn [rev app find hd_error].
    destruct (is_video m) eqn:Hm.
    + exists l, []. split; [reflexivity|]. split; [reflexivity|]. left. exact Hm.
    + destruct (find is_video (rev l)) as [c|] eqn:Hfind.
      * destruct IH as (older & newer & Hl & Hnewer & Hc).
        exists older, (newer ++ [m]). split.
        -- rewrite Hl, <- app_assoc. reflexivity.
        -- split.
           ++ rewrite forallb_app, Hnewer. cbn. rewrite Hm. reflexivity.
           ++ left. apply (find_some _ _ Hfind).
      * exists l, []. split; [reflexivity|]. split; [reflexivity|]. right.
        split; [reflexivity|]. rewrite forallb_app. cbn. rewrite Hm. cbn.
        rewrite andb_true_r. apply forallb_forall. intros x Hx.
        apply negb_true_iff.
        apply (find_none _ _ Hfind). apply -> in_rev. exact Hx.
Qed.

End Clicks.

(* ------------------------------------------------------------------ *)
(** ** Jobs seen from the worker *)

Section Jobs.

Import Userbot.
Variable cfg : config.

Lemma settles_lift {A} (r : res A) : r <> Pending -> settles (lift r).
Proof. intros Hr w. exact Hr. Qed.

Lemma settles_wait_for_format_message bot wm T :
  settles (_wait_for_format_message bot wm T).
Proof.
  intros w. destruct (wait_for_format_message_spec bot wm T w) as (r & w' & Hr & _).
  rewrite Hr. discriminate.
Qed.

Lemma settles_click_inline_button m cb : settles (_click_inline_button m cb).
Proof.
  intros w. destruct (click_inline_button_returns m cb w) as (b & w' & Hr).
  rewrite Hr. discriminate.
Qed.

Create HintDb job_db.

#[local] Hint Resolve settles_wait_for_format_message settles_click_inline_button
  settles_wait_for_video_response settles_send_message settles_sent_id
  settles_upload_to_storage_channel settles_upload_media_group_to_storage_channel
  settles_upload_twitter_to_storage_channel settles_recover_session
  settles_instagram_attempt settles_facebook_round
  settles_facebook_recover_and_retry : job_db.
#[local] Hint Extern 1 (settles (_wait_for_twitter_response _ _ _ _ _)) =>
  apply settles_wait_for_twitter_response; lia : job_db.

(** Takes a goal [settles m] apart along the structure of a job. *)
Ltac job_settles :=
  repeat match goal with
  | |- settles (bind _ _) => apply settles_bind; [|intros ?]
  | |- settles (try_except _ _) => apply settles_try_except; [|intros ?]
  | |- settles (ret _) => apply settles_ret
  | |- settles (raise _) => apply settles_raise
  | |- settles (sleep _) => apply settles_sleep
  | |- settles (match ?x with _ => _ end) => destruct x
  | |- settles (if ?b then _ else _) => destruct b
  | |- settles _ => solve [auto with job_db]
  end.

(** A job guarded by [except Exception: return None] returns. *)
Lemma guarded_job_returns (body : M (option Z)) (w : world) :
  settles body ->
  exists r w',
    (auth <- get_is_authenticated ;;
     if negb auth then ret None else try_except body (fun _ => ret None)) w
    = (Ret r, w').
Proof.
  intros Hbody. unfold bind, get_is_authenticated.
  destruct (negb (is_authenticated w)); [exists None, w; reflexivity|].
  apply try_except_returns; [exact Hbody|].
  intros e w1. exists None, w1. reflexivity.
Qed.

Lemma settles_try_body {A} (m : M A) (h : exn -> M A) :
  settles (try_except m h) -> settles m.
Proof.
  intros H w. specialize (H w). unfold try_except in H.
  destruct (m w) as [[a|e|] w1]; cbn [fst] in *; try discriminate. exact H.
Qed.

Lemma instagram_attempt_returns url attempt (w : world) :
  exists r w', instagram_attempt cfg url attempt w = (Ret r, w').
Proof.
  unfold instagram_attempt.
  apply try_except_returns.
  - apply (settles_try_body _ _ (settles_instagram_attempt cfg url attempt)).
  - intros e w1. destruct e; unfold bind, sleep, ret;
      try (destruct (attempt <? 2 - 1)); eexists; eexists; reflexivity.
Qed.

Lemma settles_job_twitter url cb T pre : settles (process_twitter_url cfg url cb T pre).
Proof.
  unfold process_twitter_url.
  apply settles_bind; [apply settles_get_is_authenticated|intros auth].
  job_settles.
Qed.

Lemma settles_job_youtube url cb T : settles (process_youtube_url cfg url cb T).
Proof.
  unfold process_youtube_url.
  apply settles_bind; [apply settles_get_is_authenticated|intros auth].
  job_settles.
Qed.

(** X10.  Each of the five jobs returns a value, an id or [None], in
    every world and for every argument: no exception leaves a job and
    no job hangs. *)
Theorem jobs_always_return (url : string) (T : Z) (cb : option string)
    (pre : option Z) (w : world) :
  (exists r w', process_instagram_url cfg url w = (Ret r, w'))
  /\ (exists r w', process_tiktok_url cfg url T w = (Ret r, w'))
  /\ (exists r w', process_facebook_url cfg url T w = (Ret r, w'))
  /\ (exists r w', process_twitter_url cfg url cb T pre w = (Ret r, w'))
  /\ (exists r w', process_youtube_url cfg url cb T w = (Ret r, w')).
Proof.
  split; [|split; [|split; [|split]]].
  - unfold process_instagram_url, bind, get_is_authenticated.
    destruct (negb (is_authenticated w)); [exists None, w; reflexivity|].
    cbn [for_firstM]. unfold bind.
    destruct (instagram_attempt_returns url 0 w) as (r0 & w0 & H0). rewrite H0.
    destruct r0 as [r0|]; [eexists; eexists; reflexivity|].
    destruct (instagram_attempt_returns url 1 w0) as (r1 & w1 & H1). rewrite H1.
    destruct r1 as [r1|]; eexists; eexists; reflexivity.
  - apply guarded_job_returns. job_settles.
  - unfold process_facebook_url.
    rewrite (bind_Ret get_is_authenticated _ w w (is_authenticated w) eq_refl).
    destruct (negb (is_authenticated w)); [exists None, w; reflexivity|].
    apply try_except_returns; [job_settles|].
    intros e w1.
    assert (Hretry : exists r w2, facebook_recover_and_retry cfg url T w1 = (Ret r, w2)).
    { unfold facebook_recover_and_retry. apply try_except_returns; [job_settles|].
      intros e' w2. exists None, w2. reflexivity. }
    destruct e; try exact Hretry; try (exists None, w1; reflexivity).
    destruct (_ && _)%bool; [exact Hretry|exists None, w1; reflexivity].
  - apply guarded_job_returns. job_settles.
  - apply guarded_job_returns. job_settles.
Qed.

(* ---------------------------------------------------------------- *)

Lemma bind_inv {A B} (m : M A) (k : A -> M B) (w w' : world) (b : B) :
  bind m k w = (Ret b, w') -> exists a w1, m w = (Ret a, w1) /\ k a w1 = (Ret b, w').
Proof.
  unfold bind. destruct (m w) as [[a|e|] w1]; try discriminate.
  intros H. exists a, w1. split; [reflexivity|exact H].
Qed.

Lemma try_except_inv {A} (m : M A) (h : exn -> M A) (w w' : world) (a : A) :
  try_except m h w = (Ret a, w') ->
  m w = (Ret a, w') \/ exists e w1, m w = (Raise e, w1) /\ h e w1 = (Ret a, w').
Proof.
  unfold try_except. destruct (m w) as [[a0|e|] w1]; try discriminate.
  - intros H. left. exact H.
  - intros H. right. exists e, w1. split; [reflexivity|exact H].
Qed.

Lemma archives_ret_none : archives (ret None).
Proof. intros w n w' H. discriminate H. Qed.

Lemma archives_raise e : archives (raise e).
Proof. intros w n w' H. discriminate H. Qed.

Lemma archives_bind {A} (m : M A) (k : A -> M (option Z)) :
  (forall a, archives (k a)) -> archives (bind m k).
Proof.
  intros Hk w n w' H. destruct (bind_inv _ _ _ _ _ H) as (a & w1 & _ & Hka).
  apply (Hk a w1 n w' Hka).
Qed.

Lemma archives_try_except (m : M (option Z)) (h : exn -> M (option Z)) :
  archives m -> (forall e, archives (h e)) -> archives (try_except m h).
Proof.
  intros Hm Hh w n w' H. destruct (try_except_inv _ _ _ _ _ H) as [Hr|(e & w1 & _ & Hr)].
  - apply (Hm w n w' Hr).
  - apply (Hh e w1 n w' Hr).
Qed.

Lemma archives_upload (u : M (option Z)) :
  uploads u -> archives (storage_message_id <- u ;; ret (id_or_none storage_message_id)).
Proof.
  intros Hu w n w' H. destruct (bind_inv _ _ _ _ _ H) as (sid & w1 & Hup & Hret).
  unfold ret in Hret. injection Hret as Hid <-.
  destruct sid as [k|]; [|discriminate]. cbn [id_or_none] in Hid.
  destruct (k =? 0) eqn:Hk; [discriminate|]. injection Hid as <-.
  split; [apply Z.eqb_neq, Hk|]. apply (Hu w k w1 Hup).
Qed.

Lemma sent_id_inv v (w w' : world) n :
  sent_id v w = (Ret (Some n), w') -> w' = w.
Proof.
  unfold sent_id. destruct (truthy v); [|discriminate].
  destruct v; cbn; try discriminate. intros [= _ <-]. reflexivity.
Qed.

Lemma request_log c (w w' : world) v :
  request c w = (Ret v, w') -> log w' = c :: log w.
Proof.
  unfold request. destruct (script w) as [|[v0|e] rest]; try discriminate.
  intros [= _ <-]. reflexivity.
Qed.

Lemma uploads_upload_to_storage_channel m : uploads (_upload_to_storage_channel m).
Proof.
  intros w n w' H. unfold _upload_to_storage_channel in H.
  destruct (try_except_inv _ _ _ _ _ H) as [Hr|(e & w1 & _ & Hr)]; [|discriminate].
  destruct (bind_inv _ _ _ _ _ Hr) as (u & w1 & _ & Hrest).
  destruct (bind_inv _ _ _ _ _ Hrest) as (v & w2 & Hsend & Hid).
  apply sent_id_inv in Hid. subst w'.
  exists 1%nat, (log w1). apply (request_log _ _ _ _ Hsend).
Qed.

Lemma uploads_upload_twitter_to_storage_channel m :
  uploads (_upload_twitter_to_storage_channel m).
Proof.
  intros w n w' H. unfold _upload_twitter_to_storage_channel in H.
  destruct (try_except_inv _ _ _ _ _ H) as [Hr|(e & w1 & _ & Hr)]; [|discriminate].
  destruct (media m); try discriminate;
    (destruct (photo m || video m || has_document m)%bool; [|discriminate]);
    destruct (bind_inv _ _ _ _ _ Hr) as (v & w2 & Hsend & Hid);
    apply sent_id_inv in Hid; subst w';
    exists 1%nat, (log w); apply (request_log _ _ _ _ Hsend).
Qed.

Lemma uploads_upload_media_group_to_storage_channel l :
  uploads (_upload_media_group_to_storage_channel l).
Proof.
  intros w n w' H. exact (media_group_upload_log l w w' n H).
Qed.

(** Takes a goal [archives m] apart along the structure of a job. *)
Ltac job_archives :=
  repeat match goal with
  | |- archives (storage_message_id <- _ ;; ret (id_or_none storage_message_id)) =>
      apply archives_upload;
      first [apply uploads_upload_to_storage_channel
            |apply uploads_upload_twitter_to_storage_channel
            |apply uploads_upload_media_group_to_storage_channel]
  | |- archives (bind _ _) => apply archives_bind; intros ?
  | |- archives (try_except _ _) => apply archives_try_except; [|intros ?]
  | |- archives (ret None) => apply archives_ret_none
  | |- archives (raise _) => apply archives_raise
  | |- archives (match ?x with _ => _ end) => destruct x
  | |- archives (if ?b then _ else _) => destruct b
  end.

Lemma archives_facebook_round url T : archives (facebook_round cfg url T).
Proof. unfold facebook_round. job_archives. Qed.

Lemma instagram_attempt_archives url attempt (w w' : world) n :
  instagram_attempt cfg url attempt w = (Ret (Some (Some n)), w') ->
  n <> 0 /\ exists items older, log w' = SendFile items :: older.
Proof.
  unfold instagram_attempt. intros H.
  destruct (try_except_inv _ _ _ _ _ H) as [Hr|(e & w1 & _ & Hr)].
  - destruct (bind_inv _ _ _ _ _ Hr) as (m0 & w1 & _ & H1). clear Hr.
    destruct (bind_inv _ _ _ _ _ H1) as (u & w2 & _ & H2). clear H1.
    destruct (bind_inv _ _ _ _ _ H2) as (sent & w3 & _ & H3). clear H2.
    destruct (bind_inv _ _ _ _ _ H3) as (found & w4 & _ & H4). clear H3.
    destruct found as [[m|[|first [|second more]]]|].
    + discriminate.
    + destruct (bind_inv _ _ _ _ _ H4) as (u' & w5 & _ & H5). discriminate.
    + destruct (bind_inv _ _ _ _ _ H4) as (sid & w5 & Hup & Hret).
      unfold ret in Hret. injection Hret as Hid <-.
      destruct sid as [k|]; [|discriminate]. cbn [id_or_none] in Hid.
      destruct (k =? 0) eqn:Hk; [discriminate|]. injection Hid as <-.
      split; [apply Z.eqb_neq, Hk|].
      apply (uploads_upload_to_storage_channel first w4 k w5 Hup).
    + destruct (bind_inv _ _ _ _ _ H4) as (sid & w5 & Hup & Hret).
      unfold ret in Hret. injection Hret as Hid <-.
      destruct sid as [k|]; [|discriminate]. cbn [id_or_none] in Hid.
      destruct (k =? 0) eqn:Hk; [discriminate|]. injection Hid as <-.
      split; [apply Z.eqb_neq, Hk|].
      apply (uploads_upload_media_group_to_storage_channel _ w4 k w5 Hup).
    + destruct (bind_inv _ _ _ _ _ H4) as (u' & w5 & _ & H5). discriminate.
  - destruct e; try discriminate;
      destruct (bind_inv _ _ _ _ _ Hr) as (u' & w5 & _ & H5); discriminate.
Qed.

(** X11.  When a job returns an id, the id is not 0 and the last call
    the job made is the [send_file] into the storage channel. *)
Theorem job_result_is_archived (url : string) (T : Z) (cb : option string)
    (pre : option Z) :
  archives (process_instagram_url cfg url)
  /\ archives (process_tiktok_url cfg url T)
  /\ archives (process_facebook_url cfg url T)
  /\ archives (process_twitter_url cfg url cb T pre)
  /\ archives (process_youtube_url cfg url cb T).
Proof.
  split; [|split; [|split; [|split]]].
  - intros w n w' H. unfold process_instagram_url in H.
    destruct (bind_inv _ _ _ _ _ H) as (auth & w0 & _ & H0). clear H.
    destruct (negb auth); [discriminate|].
    destruct (bind_inv _ _ _ _ _ H0) as (r & w1 & Hloop & Hret). clear H0.
    destruct r as [[k|]|]; try discriminate. injection Hret as <- <-.
    cbn [for_firstM] in Hloop.
    destruct (bind_inv _ _ _ _ _ Hloop) as (r0 & w2 & Hfirst & Hnext). clear Hloop.
    destruct r0 as [r0|].
    + injection Hnext as -> <-. apply (instagram_attempt_archives _ _ _ _ _ Hfirst).
    + destruct (bind_inv _ _ _ _ _ Hnext) as (r1 & w3 & Hsecond & Hlast). clear Hnext.
      destruct r1 as [r1|]; [|discriminate].
      injection Hlast as -> <-. apply (instagram_attempt_archives _ _ _ _ _ Hsecond).
  - unfold process_tiktok_url. job_archives.
  - unfold process_facebook_url, facebook_recover_and_retry.
    pose proof archives_facebook_round as Hround.
    job_archives; apply Hround.
  - unfold process_twitter_url. job_archives.
  - unfold process_youtube_url. job_archives.
Qed.

End Jobs.

(* ------------------------------------------------------------------ *)
(** ** Delivery and the download counters *)

Section Delivery.

Import Handlers Database.
Variable cfg : config.

Lemma same_db_refl w : same_db w w.
Proof. reflexivity. Qed.

Lemma same_db_trans w1 w2 w3 : same_db w1 w2 -> same_db w2 w3 -> same_db w1 w3.
Proof. unfold same_db. congruence. Qed.

Lemma silent_refl w : silent w w.
Proof. repeat split. Qed.

Lemma silent_trans w1 w2 w3 : silent w1 w2 -> silent w2 w3 -> silent w1 w3.
Proof. unfold silent. intros (? & ? & ?) (? & ? & ?). repeat split; congruence. Qed.

Lemma log_grows_refl w : log_grows w w.
Proof. exists []. reflexivity. Qed.

Lemma log_grows_trans w1 w2 w3 : log_grows w1 w2 -> log_grows w2 w3 -> log_grows w1 w3.
Proof.
  intros [l1 H1] [l2 H2]. exists (l2 ++ l1). rewrite H2, H1, app_assoc. reflexivity.
Qed.

Lemma update_request_log_grows h f : keeps log_grows (update_request h f).
Proof. intros w. exists []. reflexivity. Qed.

Lemma update_request_same_db h f : keeps same_db (update_request h f).
Proof. intros w. reflexivity. Qed.

(** The database operations make no call and touch no global. *)
Lemma add_video_silent u n p : keeps silent (add_video u n p).
Proof.
  apply keeps_add_video;
    [exact silent_refl|exact silent_trans|intros; repeat split|intros; repeat split].
Qed.

Lemma increment_user_downloads_silent u : keeps silent (increment_user_downloads u).
Proof.
  apply keeps_increment_user_downloads;
    [exact silent_refl|exact silent_trans|intros; repeat split|intros; repeat split].
Qed.

Lemma increment_user_downloads_returns u (w : world) :
  exists w', increment_user_downloads u w = (Ret tt, w').
Proof.
  destruct w as [auth conn clk scr lg d fs g].
  destruct fs as [|f fs]; [|destruct f]; eexists; reflexivity.
Qed.

(** The insert into [videos] leaves the [users] table alone. *)
Lemma add_video_same_users u n p : keeps same_users (add_video u n p).
Proof.
  intros w. destruct w as [auth conn clk scr lg d fs g]. unfold same_users.
  destruct fs as [|f fs]; [|destruct f];
    cbv -[select_video app]; destruct (select_video u d); reflexivity.
Qed.

(** What the counting of a download does to the [users] table. *)
Lemma increment_user_downloads_users u (w : world) :
  users (db (snd (increment_user_downloads u w)))
  = match pending_fault w with
    | NoFault | FailClose => map (bump u) (users (db w))
    | _ => users (db w)
    end.
Proof.
  destruct w as [auth conn clk scr lg d fs g]. unfold pending_fault.
  destruct fs as [|f fs]; [|destruct f]; reflexivity.
Qed.

(** Discharges the closure properties of the relations above. *)
Ltac closure :=
  first [exact same_db_refl | exact same_db_trans
        | exact log_grows_refl | exact log_grows_trans
        | intros; apply update_request_log_grows
        | intros; apply update_request_same_db
        | intros; reflexivity
        | intros; exists []; reflexivity
        | intros ? ?; eexists [_]; reflexivity ].

Lemma reply_same_db body : keeps same_db (reply body).
Proof. apply keeps_reply; closure. Qed.

Lemma send_processed_result_same_db h : keeps same_db (send_processed_result h).
Proof. apply keeps_send_processed_result; closure. Qed.

Lemma delete_loading_message_same_db h : keeps same_db (delete_loading_message h).
Proof. apply keeps_delete_loading_message; closure. Qed.

Lemma report_error_same_db h e : keeps same_db (report_error h e).
Proof. apply keeps_report_error; closure. Qed.

Lemma dispatch_same_db req : keeps same_db (dispatch cfg req).
Proof. apply keeps_dispatch; closure. Qed.

Lemma reply_log_grows body : keeps log_grows (reply body).
Proof. apply keeps_reply; closure. Qed.

Lemma delete_loading_message_log_grows h : keeps log_grows (delete_loading_message h).
Proof. apply keeps_delete_loading_message; closure. Qed.

Lemma report_error_log_grows h e : keeps log_grows (report_error h e).
Proof. apply keeps_report_error; closure. Qed.

(** The end of the inner [try] of the worker, whatever it does, only
    adds to the log and leaves the database alone. *)
Lemma worker_tail (h : nat) (r : res unit) (w : world) :
  let w' := snd (match r with
                 | Ret _ => try_except (delete_loading_message h) (report_error h) w
                 | Raise e => report_error h e w
                 | Pending => (Pending, w)
                 end) in
  log_grows w w' /\ same_db w w'.
Proof.
  destruct r as [[]|e|]; cbn zeta.
  - split.
    + apply (keeps_try_except log_grows log_grows_trans _ _
               (delete_loading_message_log_grows h) (report_error_log_grows h)).
    + apply (keeps_try_except same_db same_db_trans _ _
               (delete_loading_message_same_db h) (report_error_same_db h)).
  - split; [apply report_error_log_grows|apply report_error_same_db].
  - split; [apply log_grows_refl|apply same_db_refl].
Qed.

Lemma try_except_result {A} (m : M A) (h : exn -> M A) (w : world) :
  try_except m h w
  = match fst (m w) with
    | Raise e => h e (snd (m w))
    | _ => m w
    end.
Proof. unfold try_except. destruct (m w) as [[a|e|] w1]; reflexivity. Qed.

(** The processing of a request, once the job has returned [sid]. *)
Lemma worker_process_after_job h req sid (w w1 : world) :
  nth_error (requests (handlers w)) h = Some req ->
  dispatch cfg req w = (Ret sid, w1) ->
  let w2 := set_handlers
              (mkGlobals (update_nth h (set_result sid) (requests (handlers w1)))
                 (processing_queue (handlers w1)) (current_processing_user (handlers w1))
                 (processing_workers_started (handlers w1)) (worker_tasks (handlers w1)))
              w1 in
  worker_process cfg h w
  = match deliver h req sid w2 with
    | (Ret _, w3) => try_except (delete_loading_message h) (report_error h) w3
    | (Raise e, w3) => report_error h e w3
    | (Pending, w3) => (Pending, w3)
    end.
Proof.
  intros Hreq Hjob w2. unfold worker_process.
  rewrite try_except_bind.
  assert (Hget : get_request h w = (Ret req, w)).
  { unfold get_request, bind, get_globals. rewrite Hreq. reflexivity. }
  rewrite Hget, try_except_bind, Hjob, try_except_bind.
  change (update_request h (set_result sid) w1) with (Ret tt, w2).
  cbv iota beta. rewrite try_except_bind. reflexivity.
Qed.

Lemma nth_error_update_nth {A} (f : A -> A) (l : list A) : forall n x,
  nth_error l n = Some x -> nth_error (update_nth n f l) n = Some (f x).
Proof.
  induction l as [|y l IH]; intros [|n] x; cbn; try discriminate.
  - intros [= ->]. reflexivity.
  - apply IH.
Qed.

(** Sending the result asks for the copy of the stored message first. *)
Lemma send_processed_result_log h req' n (w : world) :
  get_request h w = (Ret req', w) -> result req' = Some n ->
  exists later, log (snd (send_processed_result h w)) = later ++ BotCopyMessage n :: log w.
Proof.
  intros Hget Hres. unfold send_processed_result.
  rewrite (bind_Ret _ _ w w _ Hget), Hres, try_except_bind.
  unfold request at 1.
  destruct (script w) as [|[v|e] rest].
  - destruct (reply_log_grows "processed, but could not be sent"
                (add_log (BotCopyMessage n) w)) as [l Hl].
    exists l. exact Hl.
  - exists []. reflexivity.
  - destruct (reply_log_grows "processed, but could not be sent"
                (add_log (BotCopyMessage n) (set_script rest w))) as [l Hl].
    exists l. exact Hl.
Qed.

(** X12.  When the job of the request a worker holds returns the id [n]
    (not 0), the worker asks for the copy of message [n] to the user
    after the job's calls, whatever the database does with the insert
    and the count. *)
Theorem delivery_survives_cache_failure (h : nat) (req : ProcessingRequest)
    (sid : option Z) (n : Z) (w w1 : world) :
  nth_error (requests (handlers w)) h = Some req ->
  dispatch cfg req w = (Ret sid, w1) ->
  Userbot.id_or_none sid = Some n ->
  exists later,
    log (snd (worker_process cfg h w)) = later ++ BotCopyMessage n :: log w1.
Proof.
  intros Hreq Hjob Hid.
  rewrite (worker_process_after_job h req sid w w1 Hreq Hjob). cbv zeta.
  set (w2 := set_handlers _ w1).
  assert (Hreq1 : exists req1, nth_error (requests (handlers w1)) h = Some req1).
  { pose proof (keeps_dispatch cfg same_queue same_queue_refl same_queue_trans) as Hk.
    assert (Hlen : List.length (requests (handlers w1)) = List.length (requests (handlers w))).
    { specialize (Hk ltac:(intros; repeat split) ltac:(intros; repeat split)
                     ltac:(intros; repeat split) ltac:(intros; repeat split)
                     ltac:(intros; repeat split) req w).
      rewrite Hjob in Hk. apply Hk. }
    destruct (nth_error (requests (handlers w1)) h) as [req1|] eqn:H1; [eauto|].
    apply nth_error_None in H1. assert (Hsome : nth_error (requests (handlers w)) h <> None)
      by congruence.
    apply nth_error_Some in Hsome. lia. }
  destruct Hreq1 as [req1 Hreq1].
  destruct (id_or_none_Some sid n Hid) as [-> Hn].
  unfold deliver. rewrite Hid.
  destruct (add_video_returns (url req) n (url_type req) w2) as (b & w3 & Hadd).
  pose proof (add_video_silent (url req) n (url_type req) w2) as (Hl3 & _ & Hg3).
  rewrite Hadd in Hl3, Hg3. cbn [snd] in Hl3, Hg3.
  rewrite (bind_Ret _ _ w2 w3 b Hadd).
  destruct (increment_user_downloads_returns (user_id req) w3) as (w4 & Hinc).
  pose proof (increment_user_downloads_silent (user_id req) w3) as (Hl4 & _ & Hg4).
  rewrite Hinc in Hl4, Hg4. cbn [snd] in Hl4, Hg4.
  rewrite (bind_Ret _ _ w3 w4 tt Hinc).
  assert (Hget : get_request h w4 = (Ret (set_result (Some n) req1), w4)).
  { unfold get_request, bind, get_globals. rewrite Hg4, Hg3. unfold w2.
    cbn [handlers set_handlers requests].
    rewrite (nth_error_update_nth _ _ _ _ Hreq1). reflexivity. }
  assert (Hlog4 : log w4 = log w1).
  { rewrite Hl4, Hl3. reflexivity. }
  destruct (send_processed_result_log h _ n w4 Hget eq_refl) as [l1 Hl1].
  destruct (send_processed_result h w4) as [r5 w5]. cbn [snd] in Hl1.
  destruct (worker_tail h r5 w5) as [[l2 Hl2] _].
  exists (l2 ++ l1).
  destruct r5 as [[]|e5|]; cbn [snd] in Hl2 |- *;
    rewrite Hl2, Hl1, Hlog4, <- app_assoc; reflexivity.
Qed.

Lemma worker_process_job_fails h req (w : world) :
  nth_error (requests (handlers w)) h = Some req ->
  match dispatch cfg req w with
  | (Ret _, _) => True
  | (Raise e, w1) => worker_process cfg h w = report_error h e w1
  | (Pending, w1) => worker_process cfg h w = (Pending, w1)
  end.
Proof.
  intros Hreq. unfold worker_process.
  rewrite try_except_bind.
  assert (Hget : get_request h w = (Ret req, w)).
  { unfold get_request, bind, get_globals. rewrite Hreq. reflexivity. }
  rewrite Hget, try_except_bind.
  destruct (dispatch cfg req w) as [[sid|e|] w1]; [exact I|reflexivity|reflexivity].
Qed.

Lemma add_video_db_faults u n p (w : world) :
  db_faults (snd (add_video u n p w)) = tl (db_faults w).
Proof.
  destruct w as [auth conn clk scr lg d fs g].
  destruct fs as [|f fs]; [|destruct f];
    cbv -[select_video app]; destruct (select_video u d); reflexivity.
Qed.

(** X13.  The processing of a request leaves the [users] table as it is
    or adds one download to the rows of the request's user.  It leaves
    the table as it is when the job raises or returns no id; it adds
    the download when the job returns an id and no database fault is
    to come. *)
Theorem download_counter_moves_on_success (h : nat) (req : ProcessingRequest)
    (w : world) :
  nth_error (requests (handlers w)) h = Some req ->
  (users (db (snd (worker_process cfg h w))) = users (db w)
   \/ users (db (snd (worker_process cfg h w)))
      = map (bump (user_id req)) (users (db w)))
  /\ (match fst (dispatch cfg req w) with
      | Ret sid => Userbot.id_or_none sid = None
      | _ => True
      end ->
      users (db (snd (worker_process cfg h w))) = users (db w))
  /\ (forall sid n,
        fst (dispatch cfg req w) = Ret sid -> Userbot.id_or_none sid = Some n ->
        db_faults w = [] ->
        users (db (snd (worker_process cfg h w)))
        = map (bump (user_id req)) (users (db w))).
Proof.
  intros Hreq.
  pose proof (dispatch_same_cache cfg req w) as [Hdb1 Hfaults1].
  pose proof (worker_process_job_fails h req w Hreq) as Hfail.
  destruct (dispatch cfg req w) as [[sid|e|] w1] eqn:Hjob; cbn [fst snd] in *.
  - rewrite (worker_process_after_job h req sid w w1 Hreq Hjob). cbv zeta.
    set (w2 := set_handlers _ w1).
    assert (Hdb2 : db w2 = db w) by exact Hdb1.
    assert (Hfaults2 : db_faults w2 = db_faults w) by exact Hfaults1.
    unfold deliver.
    destruct (Userbot.id_or_none sid) as [n|] eqn:Hid.
    + destruct (add_video_returns (url req) n (url_type req) w2) as (b & w3 & Hadd).
      pose proof (add_video_same_users (url req) n (url_type req) w2) as Hu3.
      pose proof (add_video_db_faults (url req) n (url_type req) w2) as Hf3.
      rewrite Hadd in Hu3, Hf3. unfold same_users in Hu3. cbn [snd] in Hu3, Hf3.
      rewrite (bind_Ret _ _ w2 w3 b Hadd).
      destruct (increment_user_downloads_returns (user_id req) w3) as (w4 & Hinc).
      pose proof (increment_user_downloads_users (user_id req) w3) as Hu4.
      rewrite Hinc in Hu4. cbn [snd] in Hu4.
      rewrite (bind_Ret _ _ w3 w4 tt Hinc).
      pose proof (send_processed_result_same_db h w4) as Hd5.
      destruct (send_processed_result h w4) as [r5 w5]. cbn [snd] in Hd5.
      destruct (worker_tail h r5 w5) as [_ Hd6].
      assert (Husers : users (db (snd match r5 with
                                      | Ret _ => try_except (delete_loading_message h)
                                                   (report_error h) w5
                                      | Raise e => report_error h e w5
                                      | Pending => (Pending, w5)
                                      end))
                       = match pending_fault w3 with
                         | NoFault | FailClose => map (bump (user_id req)) (users (db w))
                         | _ => users (db w)
                         end).
      { cbv zeta in Hd6. unfold same_db in Hd6, Hd5. rewrite Hd6, Hd5, Hu4, Hu3, Hdb2.
        reflexivity. }
      split; [|split].
      * rewrite Husers. destruct (pending_fault w3); auto.
      * discriminate.
      * intros sid' n' [= <-] _ Hnone. rewrite Husers.
        unfold pending_fault. rewrite Hf3, Hfaults2, Hnone. reflexivity.
    + pose proof (reply_same_db "could not be processed" w2) as Hd3.
      destruct (reply "could not be processed" w2) as [r3 w3]. cbn [snd] in Hd3.
      destruct (worker_tail h r3 w3) as [_ Hd4]. cbv zeta in Hd4.
      unfold same_db in Hd3, Hd4.
      assert (Husers : users (db (snd match r3 with
                                      | Ret _ => try_except (delete_loading_message h)
                                                   (report_error h) w3
                                      | Raise e => report_error h e w3
                                      | Pending => (Pending, w3)
                                      end)) = users (db w)).
      { rewrite Hd4, Hd3, Hdb2. reflexivity. }
      split; [left; exact Husers|]. split; [intros _; exact Husers|].
      intros sid' n' [= <-] Hn. congruence.
  - rewrite Hfail. pose proof (report_error_same_db h e w1) as Hd. unfold same_db in Hd.
    rewrite Hd, Hdb1. split; [left; reflexivity|]. split; [reflexivity|discriminate].
  - rewrite Hfail. cbn [snd]. rewrite Hdb1.
    split; [left; reflexivity|]. split; [reflexivity|discriminate].
Qed.

End Delivery.

Lemma delivery_survives_cache_failure_witness :
  exists later,
    log (snd (Handlers.worker_process example_config 0 failing_cache_world))
    = later ++ BotCopyMessage 500
        :: log (snd (Handlers.dispatch example_config
                       (mkRequest 7 "private" "https://instagram.com/p/a" "instagram"
                          true false None None) failing_cache_world)).
Proof.
  apply (delivery_survives_cache_failure example_config 0
           (mkRequest 7 "private" "https://instagram.com/p/a" "instagram"
              true false None None)
           (Some 500) 500 failing_cache_world).
  - reflexivity.
  - vm_compute. reflexivity.
  - reflexivity.
Defined.

Lemma download_counter_moves_on_success_witness :
  users (db (snd (Handlers.worker_process example_config 0 success_world)))
  = map (bump 7) (users (db success_world)).
Proof.
  refine (proj2 (proj2 (download_counter_moves_on_success example_config 0
                          (mkRequest 7 "private" "https://instagram.com/p/a" "instagram"
                             true false None None) success_world eq_refl))
            (Some 500) 500 _ _ _).
  - vm_compute. reflexivity.
  - reflexivity.
  - reflexivity.
Defined.

(* ------------------------------------------------------------------ *)
(** ** Submissions and the request in progress *)

Section Submissions.

Import Handlers.
Variable cfg : config.

Lemma update_nth_snoc {A} (f : A -> A) (l : list A) (x : A) :
  update_nth (List.length l) f (l ++ [x]) = l ++ [f x].
Proof.
  induction l as [|y l IH]; cbn [List.length app update_nth]; [reflexivity|].
  rewrite IH. reflexivity.
Qed.

(** X14.  [queue_processing_request] marks the workers started and
    leaves [current_processing_user] alone.  When its notices (the
    loading message, and the queue position in a private chat with
    requests waiting) are all answered, it returns the new request,
    which is put at the back of the queue with its loading message
    set, and the notices are the calls it made.  When a notice fails
    it raises, and the request is never queued. *)
Theorem request_queued_after_notices (user : Z) (ct u ut : string) (w : world) :
  processing_workers_started
    (handlers (snd (queue_processing_request user ct u ut w))) = true
  /\ current_processing_user (handlers (snd (queue_processing_request user ct u ut w)))
     = current_processing_user (handlers w)
  /\ if (Nat.leb (List.length (notices ct (handlers w))) (List.length (script w))
         && forallb gives (firstn (List.length (notices ct (handlers w))) (script w)))%bool
     then
       fst (queue_processing_request user ct u ut w)
       = Ret (List.length (requests (handlers w)))
       /\ processing_queue (handlers (snd (queue_processing_request user ct u ut w)))
          = processing_queue (handlers w) ++ [List.length (requests (handlers w))]
       /\ requests (handlers (snd (queue_processing_request user ct u ut w)))
          = requests (handlers w) ++ [mkRequest user ct u ut true false None None]
       /\ log (snd (queue_processing_request user ct u ut w))
          = rev (notices ct (handlers w)) ++ log w
     else
       (exists e, fst (queue_processing_request user ct u ut w) = Raise e)
       /\ processing_queue (handlers (snd (queue_processing_request user ct u ut w)))
          = processing_queue (handlers w)
       /\ exists sent,
            requests (handlers (snd (queue_processing_request user ct u ut w)))
            = requests (handlers w) ++ [mkRequest user ct u ut sent false None None].
Proof.
  destruct w as [auth conn clk scr lg d fs g].
  destruct g as [reqs q cpu started tasks].
  unfold queue_processing_request, start_processing_workers, update_request, reply,
    request, notices, is_private, bind, get_globals, put_globals, ret.
  cbn [handlers processing_workers_started requests processing_queue
       current_processing_user worker_tasks chat_type script negb set_handlers
       add_log set_script log snd fst].
  destruct started; cbn [negb];
    destruct (String.eqb ct "private") eqn:Hct;
    cbn [handlers processing_workers_started requests processing_queue
         current_processing_user worker_tasks chat_type script negb set_handlers
         add_log set_script log snd fst];
    destruct q as [|q0 q]; cbn [List.length Nat.ltb Nat.leb andb];
    destruct scr as [|[v|e] [|[v2|e2] rest]];
    cbn [List.length Nat.ltb Nat.leb andb firstn forallb gives handlers
         processing_workers_started requests processing_queue
         current_processing_user worker_tasks chat_type script negb set_handlers
         add_log set_script log snd fst rev app];
    rewrite ?update_nth_snoc;
    repeat split; eauto; try (eexists; reflexivity).
Qed.

(** A submission leaves the stored requests and the user in progress
    as they are. *)
Lemma queue_processing_request_store (user : Z) (ct u ut : string) (w : world) :
  current_processing_user (handlers (snd (queue_processing_request user ct u ut w)))
  = current_processing_user (handlers w)
  /\ exists new,
       requests (handlers (snd (queue_processing_request user ct u ut w)))
       = requests (handlers w) ++ [new].
Proof.
  destruct w as [auth conn clk scr lg d fs g].
  destruct g as [reqs q cpu started tasks].
  unfold queue_processing_request, start_processing_workers, update_request, reply,
    request, is_private, bind, get_globals, put_globals, ret.
  cbn [handlers processing_workers_started requests processing_queue
       current_processing_user worker_tasks chat_type script negb set_handlers
       add_log set_script log snd fst].
  destruct started; cbn [negb];
    destruct (String.eqb ct "private") eqn:Hct;
    cbn [handlers processing_workers_started requests processing_queue
         current_processing_user worker_tasks chat_type script negb set_handlers
         add_log set_script log snd fst];
    destruct q as [|q0 q]; cbn [List.length Nat.ltb Nat.leb andb];
    destruct scr as [|[v|e] [|[v2|e2] rest]];
    cbn [List.length Nat.ltb Nat.leb andb handlers
         processing_workers_started requests processing_queue
         current_processing_user worker_tasks chat_type script negb set_handlers
         add_log set_script log snd fst];
    rewrite ?update_nth_snoc;
    (split; [reflexivity|eexists; reflexivity]).
Qed.

(** The worker that takes a request names its user. *)
Lemma worker_dequeue_user (i h : nat) (w w' : world) :
  worker_dequeue i w = (Ret h, w') ->
  requests (handlers w') = requests (handlers w)
  /\ exists req, nth_error (requests (handlers w)) h = Some req
                 /\ current_processing_user (handlers w') = Some (user_id req).
Proof.
  destruct w as [auth conn clk scr lg d fs g].
  destruct g as [reqs q cpu started tasks].
  unfold worker_dequeue, worker_take, queue_get, get_request,
    set_current_processing_user, set_task, bind, get_globals, put_globals, ret, pending.
  cbn [handlers processing_workers_started requests processing_queue
       current_processing_user worker_tasks set_handlers snd fst].
  destruct q as [|h0 q]; [discriminate|].
  cbn [handlers processing_workers_started requests processing_queue
       current_processing_user worker_tasks set_handlers snd fst].
  destruct (nth_error reqs h0) as [req|] eqn:Hreq; [|discriminate].
  cbn [handlers processing_workers_started requests processing_queue
       current_processing_user worker_tasks set_handlers snd fst].
  intros [= <- <-]. cbn [handlers requests current_processing_user].
  split; [reflexivity|]. exists req. split; [exact Hreq|reflexivity].
Qed.

Lemma nth_error_snoc_old {A} (l : list A) (x y : A) (n : nat) :
  nth_error l n = Some y -> nth_error (l ++ [x]) n = Some y.
Proof.
  intros H. rewrite nth_error_app1; [exact H|].
  apply nth_error_Some. congruence.
Qed.

Lemma run_action_tracks (a : action) (w : world) (t : list label) :
  queue_invariant (handlers w) t -> tracks_request (handlers w) ->
  tracks_request (handlers (fst (run_action cfg a (w, t)))).
Proof.
  intros (_ & _ & Hlen & Hstart & _) Htr.
  destruct a as [user ct u ut|i|i|f]; cbn [run_action].
  - pose proof (queue_processing_request_spec user ct u ut w) as (Ht & _).
    destruct (queue_processing_request_store user ct u ut w) as (Hcpu & new & Hreqs).
    assert (Hgoal : tracks_request
                      (handlers (snd (queue_processing_request user ct u ut w)))).
    { intros h Hh.
      assert (Hrun : In h (running (handlers w))).
      { destruct (processing_workers_started (handlers w)).
        - unfold running in *. rewrite Ht in Hh. exact Hh.
        - rewrite (running_snoc_waiting _ _ Ht) in Hh. exact Hh. }
      destruct (Htr h Hrun) as (req & Hreq & Huser).
      exists req. rewrite Hreqs, Hcpu. split; [|exact Huser].
      apply nth_error_snoc_old, Hreq. }
    destruct (queue_processing_request user ct u ut w) as [[h|e|] w'];
      cbn [fst snd] in *; exact Hgoal.
  - destruct (nth_error (worker_tasks (handlers w)) i) as [[h0|]|] eqn:Hi;
      cbn [fst]; try exact Htr.
    pose proof (worker_dequeue_spec i w) as Hspec.
    destruct (worker_dequeue i w) as [[h|e|] w'] eqn:Hdq; cbn [fst snd] in *;
      try exact Htr.
    destruct Hspec as (_ & Htasks & _ & _).
    destruct (worker_dequeue_user i h w w' Hdq) as (Hreqs & req & Hreq & Huser).
    destruct (single_task_waiting _ i Hlen Hi) as [Hone ->].
    intros h' Hh'. unfold running in Hh'. rewrite Htasks, Hone in Hh'.
    cbn in Hh'. destruct Hh' as [<-|[]].
    exists req. rewrite Hreqs. split; assumption.
  - destruct (nth_error (worker_tasks (handlers w)) i) as [[h|]|] eqn:Hi;
      cbn [fst]; try exact Htr.
    pose proof (worker_complete_spec cfg i h w) as (_ & Htasks & _).
    destruct (single_task_holding _ i h Hlen Hi) as [Hone ->].
    intros h' Hh'. unfold running in Hh'. rewrite Htasks, Hone in Hh'.
    cbn in Hh'. destruct Hh'.
  - cbn [fst]. exact Htr.
Qed.

(** X15.  In every interleaving of submissions, worker steps and other
    activity from the initial state, whenever a worker task holds a
    request, [current_processing_user] is the user of that request. *)
Theorem current_user_is_the_one_in_progress (s : list action) (w0 : world) :
  handlers w0 = initial_globals ->
  forall h,
    In h (running (handlers (fst (run_schedule cfg s w0)))) ->
    exists req,
      nth_error (requests (handlers (fst (run_schedule cfg s w0)))) h = Some req
      /\ current_processing_user (handlers (fst (run_schedule cfg s w0)))
         = Some (user_id req).
Proof.
  intros Hinit. change (tracks_request (handlers (fst (run_schedule cfg s w0)))).
  induction s as [|a s IH] using rev_ind.
  - cbn. rewrite Hinit. intros h [].
  - pose proof (run_schedule_preserves cfg s w0 Hinit) as [Hinv _].
    unfold run_schedule in *. rewrite fold_left_app. cbn [fold_left].
    destruct (fold_left _ s (w0, [])) as [w t]. cbn [fst snd] in IH, Hinv.
    apply run_action_tracks; assumption.
Qed.

End Submissions.

Lemma current_user_is_the_one_in_progress_witness :
  exists req,
    nth_error (requests (handlers (fst (Handlers.run_schedule example_config two_submissions
                                          (fresh_world [Gives VNone; Gives VNone; Gives VNone])))))
              1
    = Some req
    /\ current_processing_user
         (handlers (fst (Handlers.run_schedule example_config two_submissions
                           (fresh_world [Gives VNone; Gives VNone; Gives VNone]))))
       = Some (user_id req).
Proof.
  apply (current_user_is_the_one_in_progress example_config two_submissions
           (fresh_world [Gives VNone; Gives VNone; Gives VNone]) eq_refl 1%nat).
  vm_compute. left. reflexivity.
Defined.

(* ------------------------------------------------------------------ *)
(** ** Captions *)

Section Captions.

Import Userbot.

Lemma split_nonempty (sep : ascii) (s : string) : Text.split sep s <> [].
Proof.
  destruct s as [|c r]; cbn [Text.split]; [discriminate|].
  destruct (Ascii.eqb c sep); [discriminate|].
  destruct (Text.split sep r); discriminate.
Qed.

Lemma concat_cons2 (sep x : string) (y : string) (l : list string) :
  String.concat sep (x :: y :: l) = (x ++ sep ++ String.concat sep (y :: l))%string.
Proof. reflexivity. Qed.

Lemma string_app_assoc (a b c : string) : ((a ++ b) ++ c = a ++ (b ++ c))%string.
Proof. induction a as [|x a IH]; cbn; [reflexivity|]. rewrite IH. reflexivity. Qed.

Lemma string_app_nil_r (a : string) : (a ++ "" = a)%string.
Proof. induction a as [|x a IH]; cbn; [reflexivity|]. rewrite IH. reflexivity. Qed.

(** [sep.join(s.split(sep)) == s] *)
Lemma concat_split (sep : ascii) (s : string) :
  String.concat (String sep "") (Text.split sep s) = s.
Proof.
  induction s as [|c r IH]; cbn [Text.split]; [reflexivity|].
  destruct (Ascii.eqb c sep) eqn:Hc.
  - apply Ascii.eqb_eq in Hc. subst c.
    pose proof (split_nonempty sep r) as Hne.
    destruct (Text.split sep r) as [|l ls]; [congruence|].
    rewrite concat_cons2, IH. reflexivity.
  - pose proof (split_nonempty sep r) as Hne.
    destruct (Text.split sep r) as [|l ls]; [congruence|].
    destruct ls as [|l2 ls].
    + cbn in IH |- *. rewrite IH. reflexivity.
    + rewrite concat_cons2 in IH. rewrite concat_cons2.
      cbn [append] in IH |- *. rewrite IH. reflexivity.
Qed.

Lemma concat_snoc (sep : string) (l : list string) (x : string) :
  l <> [] ->
  String.concat sep (l ++ [x]) = (String.concat sep l ++ sep ++ x)%string.
Proof.
  induction l as [|a l IH]; [congruence|]. intros _.
  destruct l as [|b l].
  - reflexivity.
  - change ((a :: b :: l) ++ [x]) with (a :: (b :: l) ++ [x]).
    cbn [app]. rewrite !concat_cons2.
    change (b :: l ++ [x]) with ((b :: l) ++ [x]).
    rewrite IH by discriminate. rewrite !string_app_assoc. reflexivity.
Qed.

(** No piece of a split holds the separator. *)
Lemma split_pieces (sep : ascii) (s piece : string) :
  In piece (Text.split sep s) ->
  forall c, In c (list_ascii_of_string piece) -> c <> sep.
Proof.
  revert piece. induction s as [|c r IH]; cbn [Text.split]; intros piece Hin.
  - destruct Hin as [<-|[]]. intros c [].
  - destruct (Ascii.eqb c sep) eqn:Hc.
    + destruct Hin as [<-|Hin]; [intros c' []|apply IH, Hin].
    + pose proof (split_nonempty sep r) as Hne.
      destruct (Text.split sep r) as [|l ls]; [congruence|].
      destruct Hin as [<-|Hin].
      * intros c' [<-|Hc']; [apply Ascii.eqb_neq, Hc|].
        apply (IH l); [left; reflexivity|exact Hc'].
      * apply IH. right. exact Hin.
Qed.

Lemma last_in_list {A} (l : list A) (d : A) : l <> [] -> In (last l d) l.
Proof.
  induction l as [|a l IH]; [congruence|]. intros _.
  destruct l as [|b l]; [left; reflexivity|].
  right. apply IH. discriminate.
Qed.

(** X16.  An empty caption becomes the credit line.  Any other caption
    is its text up to and including the last line feed, then its last
    line, and [_modify_twitter_caption] keeps the former as it is; the
    last line is dropped when, stripped of white space, it holds an
    [@], [via] or [by] (in any case), and kept otherwise; then come an
    empty line and the credit line. *)
Theorem modified_caption_keeps_all_but_an_attribution (original_caption : string) :
  if String.eqb original_caption "" then _modify_twitter_caption original_caption = credit
  else
    exists head last_line,
      original_caption = (head ++ last_line)%string
      /\ (forall c, In c (list_ascii_of_string last_line) -> c <> Text.LF)
      /\ (head = "" \/ exists h, head = (h ++ String Text.LF "")%string)
      /\ _modify_twitter_caption original_caption
         = (head
            ++ (if names_a_source (Text.strip last_line) then "" else
                  last_line ++ String Text.LF "")
            ++ String Text.LF credit)%string.
Proof.
  unfold _modify_twitter_caption, Text.split_lines.
  destruct (String.eqb original_caption "") eqn:He; [reflexivity|].
  pose proof (concat_split Text.LF original_caption) as Hjoin.
  pose proof (split_pieces Text.LF original_caption) as Hpieces.
  pose proof (split_nonempty Text.LF original_caption) as Hne.
  destruct (Text.split Text.LF original_caption) as [|l0 ls] eqn:Hsplit; [congruence|].
  set (lines := l0 :: ls) in *.
  assert (Hlast : In (last lines "") lines) by (apply last_in_list; exact Hne).
  assert (Hdec : lines = removelast lines ++ [last lines ""])
    by (apply app_removelast_last; exact Hne).
  destruct (removelast lines) as [|i0 init] eqn:Hinit.
  - exists "", (last lines ""). cbn [app] in Hdec.
    split; [rewrite <- Hjoin, Hdec; reflexivity|].
    split; [apply Hpieces, Hlast|]. split; [left; reflexivity|].
    destruct (names_a_source (Text.strip (last lines ""))).
    + reflexivity.
    + rewrite Hdec at 1. cbn. rewrite string_app_assoc. reflexivity.
  - exists (String.concat (String Text.LF "") (i0 :: init) ++ String Text.LF "")%string,
           (last lines "").
    split.
    { rewrite <- Hjoin. rewrite Hdec at 1.
      rewrite concat_snoc by discriminate. rewrite string_app_assoc. reflexivity. }
    split; [apply Hpieces, Hlast|]. split; [right; eexists; reflexivity|].
    destruct (names_a_source (Text.strip (last lines ""))).
    + rewrite concat_snoc by discriminate. rewrite !string_app_assoc. reflexivity.
    + rewrite concat_snoc by discriminate. rewrite Hdec at 1.
      rewrite concat_snoc by discriminate. rewrite !string_app_assoc. reflexivity.
Qed.

End Captions.

Example attribution_line_is_replaced :
  Userbot._modify_twitter_caption ("Look at this" ++ String Text.LF "via @twittervid_bot")
  = ("Look at this" ++ String Text.LF (String Text.LF Userbot.credit))%string.
Proof. vm_compute. reflexivity. Qed.

Example line_with_by_is_dropped :
  Userbot._modify_twitter_caption "Goodbye for now" = String Text.LF Userbot.credit.
Proof. vm_compute. reflexivity. Qed.

Example plain_caption_is_kept :
  Userbot._modify_twitter_caption "Sunset" 
  = ("Sunset" ++ String Text.LF (String Text.LF Userbot.credit))%string.
Proof. vm_compute. reflexivity. Qed.

(* ------------------------------------------------------------------ *)
(** ** Format choices *)

Section Choices.

Import Userbot Handlers.
Variable cfg : config.

Lemma dict_get_set_same {V} k (v : V) d : dict_get k (dict_set k v d) = Some v.
Proof. unfold dict_get, dict_set. cbn. rewrite Z.eqb_refl. reflexivity. Qed.

Lemma dict_get_set_other {V} k k' (v : V) d :
  k' <> k -> dict_get k' (dict_set k v d) = dict_get k' d.
Proof.
  intros Hk. unfold dict_get, dict_set. cbn [find fst].
  destruct (Z.eqb_spec k k') as [->|_]; [congruence|].
  induction d as [|[k0 v0] d IH]; [reflexivity|].
  cbn [filter fst find]. destruct (Z.eqb_spec k0 k) as [->|Hk0]; cbn [negb].
  - destruct (Z.eqb_spec k k') as [->|_]; [congruence|]. exact IH.
  - cbn [find fst]. destruct (k0 =? k'); [reflexivity|exact IH].
Qed.

Lemma readable_app (l1 l2 : list button) :
  readable (l1 ++ l2)
  = if all_read l1 then readable l1 ++ readable l2 else readable l1.
Proof.
  induction l1 as [|b l1 IH]; [reflexivity|].
  cbn [app readable all_read forallb]. fold (all_read l1).
  destruct (data b); cbn [andb]; [exact IH|reflexivity|].
  rewrite IH. destruct (all_read l1); reflexivity.
Qed.

Lemma holds_snoc st l cb t :
  holds st l ->
  holds (mkScan (button_texts st ++ [t]) (dict_set (idx st) (cb, t) (button_map st))
                (idx st + 1))
        (l ++ [(cb, t)]).
Proof.
  intros (Ht & Hi & Hm). unfold holds. cbn [button_texts idx button_map].
  split; [|split].
  - rewrite Ht, map_app. reflexivity.
  - rewrite Hi, length_app. cbn [List.length]. lia.
  - intros k. destruct (Z.eq_dec k (idx st)) as [->|Hk].
    + rewrite dict_get_set_same, Hi.
      destruct (Z.ltb_spec (Z.of_nat (List.length l)) 0) as [Hneg|_]; [lia|].
      rewrite Nat2Z.id, nth_error_app2, Nat.sub_diag by lia. reflexivity.
    + rewrite dict_get_set_other by exact Hk. rewrite Hm.
      destruct (Z.ltb_spec k 0) as [Hneg|Hpos]; [reflexivity|].
      destruct (Nat.lt_ge_cases (Z.to_nat k) (List.length l)) as [Hlt|Hge].
      * rewrite nth_error_app1 by exact Hlt. reflexivity.
      * assert (Hnone : nth_error l (Z.to_nat k) = None) by (apply nth_error_None; exact Hge).
        rewrite Hnone. symmetry. apply nth_error_None.
        rewrite length_app. cbn [List.length]. lia.
Qed.

(** The loop over one row. *)
Lemma scan_buttons_spec (buttons : list button) (st : button_scan) l :
  holds st l ->
  holds (snd (scan_buttons buttons st)) (l ++ readable buttons)
  /\ if all_read buttons then fst (scan_buttons buttons st) = Ret tt
     else exists e, fst (scan_buttons buttons st) = Raise e.
Proof.
  revert st l. induction buttons as [|b rest IH]; intros st l Hst.
  - cbn. rewrite app_nil_r. split; [exact Hst|reflexivity].
  - cbn [scan_buttons readable all_read forallb]. fold (all_read rest).
    unfold has_data, decode.
    destruct (data b) as [| |cb] eqn:Hd; cbn [andb].
    + apply IH, Hst.
    + cbn. rewrite app_nil_r. split; [exact Hst|eexists; reflexivity].
    + destruct (IH _ _ (holds_snoc st l cb (text b) Hst)) as [Hh Hr].
      rewrite <- app_assoc in Hh. split; [exact Hh|exact Hr].
Qed.

(** The loop over the rows. *)
Lemma scan_rows_spec (rows : keyboard) (st : button_scan) l :
  holds st l ->
  holds (snd (scan_rows rows st)) (l ++ readable (List.concat rows)).
Proof.
  revert st l. induction rows as [|row rows IH]; intros st l Hst.
  - cbn. rewrite app_nil_r. exact Hst.
  - cbn [scan_rows List.concat]. rewrite readable_app.
    destruct (scan_buttons_spec row st l Hst) as [Hh Hr].
    destruct (scan_buttons row st) as [r st1]. cbn [fst snd] in *.
    destruct (all_read row).
    + rewrite Hr, app_assoc. apply IH, Hh.
    + destruct Hr as [e ->]. exact Hh.
Qed.

(** What [store_twitter_request] returns and what it stores. *)
Lemma store_twitter_request_spec (user_id : Z) (url : string)
    (format_message : message) (self : stores) :
  exists button_map,
    fst (store_twitter_request user_id url format_message self)
    = map snd (choices format_message)
    /\ get_stored_twitter_request user_id
         (snd (store_twitter_request user_id url format_message self))
       = Some (url, format_message, button_map)
    /\ forall k, dict_get k button_map
                 = if k <? 0 then None
                   else nth_error (choices format_message) (Z.to_nat k).
Proof.
  unfold store_twitter_request, choices, get_stored_twitter_request.
  cbn [fst snd twitter_requests].
  assert (Hstart : holds (mkScan [] [] 0) []).
  { repeat split. intros k. cbn. destruct (k <? 0); [reflexivity|].
    destruct (Z.to_nat k); reflexivity. }
  assert (Hscan : holds match reply_markup format_message with
                        | None => mkScan [] [] 0
                        | Some rows => snd (scan_rows rows (mkScan [] [] 0))
                        end
                        match reply_markup format_message with
                        | None => []
                        | Some rows => readable (List.concat rows)
                        end).
  { destruct (reply_markup format_message) as [rows|]; [|exact Hstart].
    apply (scan_rows_spec rows _ [] Hstart). }
  destruct Hscan as (Htexts & _ & Hm).
  eexists. rewrite dict_get_set_same. split; [exact Htexts|]. split; [reflexivity|exact Hm].
Qed.

(** X17.  [store_twitter_request] returns the texts of the buttons that
    carry data, in keyboard order, up to the first button whose data
    cannot be decoded; what it stores for the user is the URL, the
    message and a map that takes [k] to the data and text of the
    [k]-th of these buttons, counted from 0, and has no other key.
    The requests stored for other users, and the YouTube requests,
    stay as they are. *)
Theorem stored_twitter_request_mirrors_keyboard (user_id : Z) (url : string)
    (format_message : message) (self : stores) :
  let texts := fst (store_twitter_request user_id url format_message self) in
  let self' := snd (store_twitter_request user_id url format_message self) in
  texts = map snd (choices format_message)
  /\ (exists button_map,
        get_stored_twitter_request user_id self' = Some (url, format_message, button_map)
        /\ forall k, dict_get k button_map
                     = if k <? 0 then None
                       else nth_error (choices format_message) (Z.to_nat k))
  /\ (forall other, other <> user_id ->
        get_stored_twitter_request other self' = get_stored_twitter_request other self)
  /\ youtube_requests self' = youtube_requests self.
Proof.
  cbn zeta.
  destruct (store_twitter_request_spec user_id url format_message self)
    as (button_map & Htexts & Hstored & Hmap).
  split; [exact Htexts|]. split; [exists button_map; split; assumption|]. split.
  - intros other Hother. unfold store_twitter_request, get_stored_twitter_request.
    cbn [snd twitter_requests]. apply dict_get_set_other, Hother.
  - reflexivity.
Qed.

(* ---------------------------------------------------------------- *)

Lemma mirror_rows_spec (texts : list string) : forall (i : nat) row done,
  (List.length row < 3)%nat ->
  Forall (fun r => List.length r = 3%nat) done ->
  let out := mirror_rows texts (Z.of_nat i) row done in
  List.concat (fst out) ++ snd out = List.concat done ++ row ++ numbered i texts
  /\ Forall (fun r => List.length r = 3%nat) (fst out)
  /\ (List.length (snd out) < 3)%nat.
Proof.
  induction texts as [|t rest IH]; intros i row done Hrow Hdone; cbn zeta.
  - cbn [mirror_rows numbered fst snd]. rewrite app_nil_r. auto.
  - cbn [mirror_rows numbered].
    replace (Z.of_nat i + 1) with (Z.of_nat (S i)) by lia.
    destruct (Nat.eqb_spec (List.length (row ++ [mkButton t (Token ("tw_" ++ Text.str (Z.of_nat i))%string)])) 3)
      as [H3|H3].
    + specialize (IH (S i) [] (done ++ [row ++ [mkButton t (Token ("tw_" ++ Text.str (Z.of_nat i))%string)]])).
      cbn zeta in IH. destruct IH as (Hc & Hf & Hl).
      * cbn. lia.
      * apply Forall_app. split; [exact Hdone|]. constructor; [exact H3|constructor].
      * split; [|split; assumption].
        rewrite Hc, concat_app. cbn [List.concat app]. rewrite app_nil_r, <- !app_assoc.
        reflexivity.
    + specialize (IH (S i) (row ++ [mkButton t (Token ("tw_" ++ Text.str (Z.of_nat i))%string)]) done).
      cbn zeta in IH. destruct IH as (Hc & Hf & Hl).
      * rewrite length_app in H3 |- *. cbn [List.length] in *. lia.
      * exact Hdone.
      * split; [|split; assumption]. rewrite Hc, <- !app_assoc. reflexivity.
Qed.

(** The buttons of the keyboard shown, row after row. *)
Lemma mirrored_keyboard_concat (texts : list string) :
  List.concat (mirrored_keyboard texts) = numbered 0 texts.
Proof.
  unfold mirrored_keyboard.
  destruct (mirror_rows_spec texts 0 [] [] ltac:(cbn; lia) ltac:(constructor))
    as (Hc & _ & _).
  cbn zeta in Hc. change (Z.of_nat 0) with 0 in Hc.
  destruct (mirror_rows texts 0 [] []) as [full row]. cbn [fst snd List.concat app] in Hc.
  destruct row; [rewrite app_nil_r in Hc; exact Hc|].
  rewrite concat_app. cbn [List.concat]. rewrite app_nil_r. exact Hc.
Qed.

(** X18.  The keyboard [show_twitter_formats] builds has one button for
    each text, in order, the [i]-th with callback data [tw_i]; every
    row has between one and three buttons, every row but the last has
    three, and there is no row exactly when there is no text. *)
Theorem mirrored_keyboard_shape (texts : list string) :
  List.concat (mirrored_keyboard texts) = numbered 0 texts
  /\ Forall (fun row => (1 <= List.length row <= 3)%nat) (mirrored_keyboard texts)
  /\ Forall (fun row => List.length row = 3%nat) (removelast (mirrored_keyboard texts))
  /\ (mirrored_keyboard texts = [] <-> texts = []).
Proof.
  unfold mirrored_keyboard.
  destruct (mirror_rows_spec texts 0 [] [] ltac:(cbn; lia) ltac:(constructor))
    as (Hc & Hf & Hl).
  cbn zeta in *. change (Z.of_nat 0) with 0 in *.
  destruct (mirror_rows texts 0 [] []) as [full row]. cbn [fst snd List.concat app] in *.
  assert (Hwide : Forall (fun r : list button => (1 <= List.length r <= 3)%nat) full).
  { eapply Forall_impl; [|exact Hf]. cbn. intros r Hr. lia. }
  destruct row as [|b row].
  - rewrite app_nil_r in Hc. split; [exact Hc|]. split; [exact Hwide|]. split.
    + clear -Hf. induction full as [|r full IH]; [constructor|].
      inversion Hf; subst. destruct full; [constructor|].
      cbn [removelast]. constructor; [assumption|]. apply IH. assumption.
    + split.
      * intros ->. cbn in Hc. destruct texts; [reflexivity|discriminate].
      * intros ->. cbn in Hc. destruct full as [|r full]; [reflexivity|].
        inversion Hf; subst. destruct r; [discriminate|]. discriminate.
  - split; [rewrite concat_app; cbn [List.concat]; rewrite app_nil_r; exact Hc|].
    split; [|split].
    + apply Forall_app. split; [exact Hwide|]. constructor; [|constructor].
      cbn [List.length] in *. lia.
    + rewrite removelast_last. exact Hf.
    + split.
      * intros H. destruct full; discriminate.
      * intros ->. cbn in Hc. destruct full as [|r full]; [discriminate|].
        inversion Hf; subst. destruct r; discriminate.
Qed.

(* ---------------------------------------------------------------- *)

Lemma all_digits_string_of_uint (d : Decimal.uint) :
  Text.all_digits (NilEmpty.string_of_uint d) = true.
Proof. induction d; cbn; auto. Qed.

Lemma int_of_digits_string_of_uint (d : Decimal.uint) : forall acc : nat,
  fold_left (fun acc c => 10 * acc + Text.digit_val c)
            (list_ascii_of_string (NilEmpty.string_of_uint d)) (Z.of_nat acc)
  = Z.of_nat (Nat.of_uint_acc d acc).
Proof.
  induction d; intros acc; cbn [NilEmpty.string_of_uint list_ascii_of_string fold_left
                                 Nat.of_uint_acc]; [reflexivity|..];
    rewrite <- IHd; f_equal; rewrite Nat.tail_mul_spec;
    match goal with
    | |- context [Text.digit_val ?c] =>
        let v := eval vm_compute in (Text.digit_val c) in
        change (Text.digit_val c) with v
    end; lia.
Qed.

Lemma to_uint_nonnil (n : nat) : Nat.to_uint n <> Decimal.Nil.
Proof.
  intros H. pose proof (Unsigned.of_to n) as Hn. rewrite H in Hn. cbn in Hn. subst n.
  discriminate H.
Qed.

(** [int(str(n)) == n] and [str(n).isdigit()] for [n >= 0] *)
Lemma str_roundtrip (n : nat) :
  Text.isdigit (Text.str (Z.of_nat n)) = true
  /\ Text.py_int (Text.str (Z.of_nat n)) = Some (Z.of_nat n).
Proof.
  unfold Text.str, Text.isdigit, Text.py_int.
  destruct (Z.ltb_spec (Z.of_nat n) 0) as [Hneg|_]; [lia|].
  rewrite Nat2Z.id.
  pose proof (to_uint_nonnil n) as Hnil.
  pose proof (all_digits_string_of_uint (Nat.to_uint n)) as Hall.
  pose proof (int_of_digits_string_of_uint (Nat.to_uint n) 0) as Hval.
  change (Nat.of_uint_acc (Nat.to_uint n) 0) with (Nat.of_uint (Nat.to_uint n)) in Hval.
  rewrite Unsigned.of_to in Hval.
  destruct (NilEmpty.string_of_uint (Nat.to_uint n)) as [|c r] eqn:Hs.
  - destruct (Nat.to_uint n); try discriminate. congruence.
  - rewrite Hall. split; [reflexivity|]. unfold Text.int_of_digits.
    change (Z.of_nat 0) with 0 in Hval. rewrite Hval. reflexivity.
Qed.

Lemma numbered_nth (texts : list string) : forall i j b,
  nth_error (numbered i texts) j = Some b ->
  exists t, nth_error texts j = Some t
            /\ b = mkButton t (Token ("tw_" ++ Text.str (Z.of_nat (i + j)))%string).
Proof.
  induction texts as [|t rest IH]; intros i [|j] b; cbn [numbered nth_error];
    try discriminate.
  - intros [= <-]. exists t. rewrite Nat.add_0_r. split; reflexivity.
  - intros H. destruct (IH (S i) j b H) as (t' & Ht & ->).
    exists t'. split; [exact Ht|].
    replace (i + S j)%nat with (S i + j)%nat by lia. reflexivity.
Qed.

(** The handler's way to the chosen button. *)
Lemma callback_reaches_selection (self : stores) (user_id : Z) (i : nat) url fm button_map
    cb t :
  get_stored_twitter_request user_id self = Some (url, fm, button_map) ->
  dict_get (Z.of_nat i) button_map = Some (cb, t) ->
  handle_twitter_format_callback cfg self ("tw_" ++ Text.str (Z.of_nat i)) user_id
  = try_except
      (safe_answer_callback_query "format chosen" ;;;
       twitter_selection cfg url cb t user_id)
      (fun _ => try_except (edit_text "unexpected error") (fun _ => ret tt)).
Proof.
  intros Hstored Hbutton. unfold handle_twitter_format_callback.
  cbn [append Text.after_first Ascii.eqb Bool.eqb].
  destruct (str_roundtrip i) as [Hdigit Hint].
  rewrite Hdigit, Hint. cbn [negb]. rewrite Hstored, Hbutton. reflexivity.
Qed.

(** X19.  Let a user be shown the keyboard built of what
    [store_twitter_request] returned.  The button at place [i] of it
    carries callback data with which [handle_twitter_format_callback]
    answers the query and goes on with the stored URL and with the
    data and text of the responder's [i]-th readable button, whose
    text is the text of the button pressed. *)
Theorem pressed_button_reaches_its_choice (user_id : Z) (url : string)
    (format_message : message) (self : stores) (i : nat) (b : button) :
  let texts := fst (store_twitter_request user_id url format_message self) in
  let self' := snd (store_twitter_request user_id url format_message self) in
  nth_error (List.concat (mirrored_keyboard texts)) i = Some b ->
  exists pressed callback_data,
    data b = Token pressed
    /\ nth_error (choices format_message) i = Some (callback_data, text b)
    /\ handle_twitter_format_callback cfg self' pressed user_id
       = try_except
           (safe_answer_callback_query "format chosen" ;;;
            twitter_selection cfg url callback_data (text b) user_id)
           (fun _ => try_except (edit_text "unexpected error") (fun _ => ret tt)).
Proof.
  cbn zeta. intros Hb.
  rewrite mirrored_keyboard_concat in Hb.
  destruct (numbered_nth _ 0 i b Hb) as (t & Ht & ->). cbn [Nat.add data text].
  destruct (store_twitter_request_spec user_id url format_message self)
    as (button_map & Htexts & Hstored & Hmap).
  rewrite Htexts in Ht. rewrite nth_error_map in Ht.
  destruct (nth_error (choices format_message) i) as [[cb t']|] eqn:Hchoice;
    [|discriminate].
  cbn [option_map snd] in Ht. injection Ht as <-.
  exists ("tw_" ++ Text.str (Z.of_nat i))%string, cb.
  split; [reflexivity|]. split; [reflexivity|].
  apply (callback_reaches_selection _ _ i url format_message button_map cb t' Hstored).
  rewrite Hmap. destruct (Z.ltb_spec (Z.of_nat i) 0) as [Hneg|_]; [lia|].
  rewrite Nat2Z.id. exact Hchoice.
Qed.

End Choices.

Example four_texts_make_two_rows :
  Handlers.mirrored_keyboard ["HD"; "SD"; "Audio"; "GIF"]
  = [[mkButton "HD" (Token "tw_0"); mkButton "SD" (Token "tw_1");
      mkButton "Audio" (Token "tw_2")];
     [mkButton "GIF" (Token "tw_3")]].
Proof. vm_compute. reflexivity. Qed.

Example unreadable_button_ends_the_offer :
  fst (Userbot.store_twitter_request 7 "https://x.com/a/status/1"
         (mkMessage 12 false false false None MediaNone "Choose the quality"
            (Some [[mkButton "HD" (Token "q_hd"); mkButton "Link" NoData;
                    mkButton "SD" BadBytes; mkButton "Audio" (Token "q_a")]]))
         (Userbot.mkStores [] []))
  = ["HD"].
Proof. vm_compute. reflexivity. Qed.

Lemma pressed_button_reaches_its_choice_witness :
  exists pressed callback_data,
    data (mkButton "SD" (Token "tw_1")) = Token pressed
    /\ nth_error (choices twitter_offers) 1
       = Some (callback_data, text (mkButton "SD" (Token "tw_1")))
    /\ Handlers.handle_twitter_format_callback example_config after_twitter_offer pressed 7
       = try_except
           (Handlers.safe_answer_callback_query "format chosen" ;;;
            Handlers.twitter_selection example_config "https://x.com/a/status/1"
              callback_data (text (mkButton "SD" (Token "tw_1"))) 7)
           (fun _ => try_except (Handlers.edit_text "unexpected error") (fun _ => ret tt)).
Proof.
  apply (pressed_button_reaches_its_choice example_config 7 "https://x.com/a/status/1"
           twitter_offers (Userbot.mkStores [] []) 1 (mkButton "SD" (Token "tw_1"))).
  reflexivity.
Defined.

(* ------------------------------------------------------------------ *)
(** ** Format selections *)

Section Selections.

Import Userbot Handlers.
Variable cfg : config.

Lemma settles_edit_text body : settles (edit_text body).
Proof.
  unfold edit_text. apply settles_bind; [apply settles_request|intros; apply settles_ret].
Qed.

Lemma settles_copy_message n : settles (copy_message n).
Proof.
  unfold copy_message. apply settles_bind; [apply settles_request|intros; apply settles_ret].
Qed.

Lemma settles_safe_answer_callback_query body : settles (safe_answer_callback_query body).
Proof.
  unfold safe_answer_callback_query.
  apply settles_try_except; [|intros; apply settles_ret].
  apply settles_bind; [apply settles_request|intros; apply settles_ret].
Qed.

Lemma settles_twitter_selection url cb t user : settles (twitter_selection cfg url cb t user).
Proof.
  unfold twitter_selection.
  repeat first
    [ apply settles_get_video | apply settles_add_video
    | apply settles_increment_user_downloads | apply settles_edit_text
    | apply settles_copy_message | apply settles_reply | apply settles_ret
    | apply (settles_job_twitter cfg)
    | apply settles_bind; [|intros ?]
    | apply settles_try_except; [|intros ?]
    | match goal with
      | |- settles (match ?x with _ => _ end) => destruct x
      end ].
Qed.

(** X20.  [handle_twitter_format_callback] returns in every world, for
    every callback data and whatever is stored: no exception leaves
    it, and it does not hang. *)
Theorem twitter_selection_handler_never_raises (self : stores) (data : string)
    (user_id : Z) (w : world) :
  exists w', handle_twitter_format_callback cfg self data user_id w = (Ret tt, w').
Proof.
  assert (H : exists (a : unit) w',
             handle_twitter_format_callback cfg self data user_id w = (Ret a, w')).
  { unfold handle_twitter_format_callback. apply try_except_returns.
    - repeat first
        [ apply settles_twitter_selection | apply settles_edit_text
        | apply settles_safe_answer_callback_query | apply settles_raise
        | apply settles_bind; [|intros ?]
        | match goal with
          | |- settles (match ?x with _ => _ end) => destruct x
          | |- settles (if ?b then _ else _) => destruct b
          end ].
    - intros e w1. apply try_except_returns; [apply settles_edit_text|].
      intros e' w2. exists tt, w2. reflexivity. }
  destruct H as ([] & w' & H). exists w'. exact H.
Qed.

(* ---------------------------------------------------------------- *)

Lemma adds_trans c1 c2 w1 w2 w3 : adds c1 w1 w2 -> adds c2 w2 w3 -> adds (c2 ++ c1) w1 w3.
Proof.
  intros (Hl1 & Hd1 & Hf1) (Hl2 & Hd2 & Hf2). unfold adds.
  rewrite Hl2, Hl1, Hd2, Hd1, Hf2, Hf1, app_assoc. auto.
Qed.

Lemma adds_request c (w : world) : adds [c] w (snd (request c w)).
Proof. unfold request. destruct (script w) as [|[v|e] rest]; repeat split. Qed.

(** A notice whose failure is passed over. *)
Lemma quiet_notice_adds body (w : world) :
  exists w', try_except (edit_text body) (fun _ => ret tt) w = (Ret tt, w')
             /\ adds [BotReply body] w w'.
Proof.
  pose proof (adds_request (BotReply body) w) as Hadds.
  unfold edit_text, try_except, bind, ret.
  destruct (request (BotReply body) w) as [[v|e|] w1] eqn:Hreq; cbn [snd] in Hadds.
  - exists w1. split; [reflexivity|exact Hadds].
  - exists w1. split; [reflexivity|exact Hadds].
  - exfalso. apply (settles_request (BotReply body) w). rewrite Hreq. reflexivity.
Qed.

Lemma safe_answer_adds body (w : world) :
  exists w', safe_answer_callback_query body w = (Ret tt, w')
             /\ adds [BotReply body] w w'.
Proof. apply quiet_notice_adds. Qed.

(** The copy is asked for, and a failure is reported to the user. *)
Lemma copy_or_report_adds n body (w : world) :
  exists later,
    adds (later ++ [BotCopyMessage n]) w
         (snd (try_except (copy_message n) (fun _ => reply body) w))
    /\ forallb bot_call later = true.
Proof.
  pose proof (adds_request (BotCopyMessage n) w) as Hadds.
  unfold copy_message, try_except, bind, ret.
  destruct (request (BotCopyMessage n) w) as [[v|e|] w1] eqn:Hreq; cbn [snd] in Hadds |- *.
  - exists []. split; [exact Hadds|reflexivity].
  - exists [BotReply body]. split; [|reflexivity].
    apply (adds_trans _ _ _ _ _ Hadds). unfold reply, bind, ret.
    pose proof (adds_request (BotReply body) w1) as H1.
    destruct (request (BotReply body) w1) as [[v|e'|] w2]; exact H1.
  - exists []. split; [exact Hadds|reflexivity].
Qed.

(** X21.  When the chosen format of a tweet has a row in the cache and
    the lookup meets no fault, [handle_twitter_format_callback] makes
    calls of the bot's own only, none through the user session; among
    them is the copy of the message the row names; and the database
    is left as it was. *)
Theorem cached_twitter_format_served_by_the_bot_alone (self : stores) (user_id : Z)
    (i : nat) (url : string) (fm : message) (button_map : dict (string * string))
    (cb t : string) (row : video_row) (w : world) :
  get_stored_twitter_request user_id self = Some (url, fm, button_map) ->
  dict_get (Z.of_nat i) button_map = Some (cb, t) ->
  Database.select_video (url ++ "#" ++ Text.strip t) (db w) = Some row ->
  pending_fault w = NoFault ->
  let w' := snd (handle_twitter_format_callback cfg self
                   ("tw_" ++ Text.str (Z.of_nat i)) user_id w) in
  exists calls,
    log w' = calls ++ log w
    /\ forallb bot_call calls = true
    /\ In (BotCopyMessage (channel_message_id row)) calls
    /\ db w' = db w.
Proof.
  intros Hstored Hbutton Hrow Hfault. cbn zeta.
  rewrite (callback_reaches_selection cfg self user_id i url fm button_map cb t
             Hstored Hbutton).
  destruct (safe_answer_adds "format chosen" w) as (w1 & Hsafe & Ha1).
  rewrite (try_except_bind_Ret _ _ _ w w1 tt Hsafe).
  unfold twitter_selection.
  destruct Ha1 as (Hl1 & Hd1 & Hf1).
  assert (Hrow1 : Database.select_video (url ++ "#" ++ Text.strip t) (db w1) = Some row)
    by (rewrite Hd1; exact Hrow).
  assert (Hfault1 : pending_fault w1 = NoFault)
    by (unfold pending_fault in *; rewrite Hf1; exact Hfault).
  rewrite (try_except_bind_Ret _ _ _ w1 _ _ (get_video_hit _ row w1 Hrow1 Hfault1)).
  set (w2 := set_db_faults _ w1).
  destruct (quiet_notice_adds "sending from the cache" w2) as (w3 & Hnote & Hl3 & Hd3 & _).
  rewrite (try_except_bind_Ret _ _ _ w2 w3 tt Hnote).
  destruct (copy_or_report_adds (channel_message_id row) "could not be sent from the cache" w3)
    as (later & (Hl4 & Hd4 & _) & Hbot).
  set (copy := try_except (copy_message (channel_message_id row)) _) in *.
  assert (Hlog3 : log w3 = [BotReply "sending from the cache"; BotReply "format chosen"] ++ log w).
  { rewrite Hl3. unfold w2. cbn [log set_db_faults app]. rewrite Hl1. reflexivity. }
  assert (Hdb3 : db w3 = db w).
  { rewrite Hd3. unfold w2. cbn [db set_db_faults]. exact Hd1. }
  set (last_resort := fun _ : exn => try_except (edit_text "unexpected error") _).
  unfold try_except.
  destruct (copy w3) as [[[]|e|] w4]; cbn [snd] in *; subst last_resort; cbv beta.
  - exists ((later ++ [BotCopyMessage (channel_message_id row)])
            ++ [BotReply "sending from the cache"; BotReply "format chosen"]).
    split; [rewrite Hl4, Hlog3, <- !app_assoc; reflexivity|].
    split; [|split; [|rewrite Hd4; exact Hdb3]].
    + rewrite !forallb_app, Hbot. reflexivity.
    + apply in_or_app. left. apply in_or_app. right. left. reflexivity.
  - destruct (quiet_notice_adds "unexpected error" w4) as (w5 & Hlast & Hl5 & Hd5 & _).
    rewrite Hlast. cbn [snd].
    exists ([BotReply "unexpected error"]
            ++ (later ++ [BotCopyMessage (channel_message_id row)])
            ++ [BotReply "sending from the cache"; BotReply "format chosen"]).
    split; [rewrite Hl5, Hl4, Hlog3, <- !app_assoc; reflexivity|].
    split; [|split; [|rewrite Hd5, Hd4; exact Hdb3]].
    + cbn [app forallb bot_call andb]. rewrite !forallb_app, Hbot. reflexivity.
    + apply in_or_app. right. apply in_or_app. left. apply in_or_app. right.
      left. reflexivity.
  - exists ((later ++ [BotCopyMessage (channel_message_id row)])
            ++ [BotReply "sending from the cache"; BotReply "format chosen"]).
    split; [rewrite Hl4, Hlog3, <- !app_assoc; reflexivity|].
    split; [|split; [|rewrite Hd4; exact Hdb3]].
    + rewrite !forallb_app, Hbot. reflexivity.
    + apply in_or_app. left. apply in_or_app. right. left. reflexivity.
Qed.

Lemma bind_result {A B} (m : M A) (k : A -> M B) (w : world) :
  bind m k w
  = match m w with
    | (Ret a, w1) => k a w1
    | (Raise e, w1) => (Raise e, w1)
    | (Pending, w1) => (Pending, w1)
    end.
Proof. reflexivity. Qed.

Lemma edit_text_adds body (w : world) :
  adds [BotReply body] w (snd (edit_text body w))
  /\ (fst (edit_text body w) = Ret tt \/ exists e, fst (edit_text body w) = Raise e).
Proof.
  pose proof (adds_request (BotReply body) w) as Hadds.
  unfold edit_text, bind, ret.
  destruct (request (BotReply body) w) as [[v|e|] w1] eqn:Hreq; cbn [fst snd] in *.
  - split; [exact Hadds|left; reflexivity].
  - split; [exact Hadds|right; exists e; reflexivity].
  - exfalso. apply (settles_request (BotReply body) w). rewrite Hreq. reflexivity.
Qed.

Lemma reply_adds body (w : world) : adds [BotReply body] w (snd (reply body w)).
Proof.
  pose proof (adds_request (BotReply body) w) as Hadds.
  unfold reply, bind, ret.
  destruct (request (BotReply body) w) as [[v|e|] w1]; exact Hadds.
Qed.

Lemma copy_message_adds n (w : world) :
  adds [BotCopyMessage n] w (snd (copy_message n w)).
Proof.
  pose proof (adds_request (BotCopyMessage n) w) as Hadds.
  unfold copy_message, bind, ret.
  destruct (request (BotCopyMessage n) w) as [[v|e|] w1]; exact Hadds.
Qed.

(** The delivery of a cached file asks for the copy, once or twice, and
    may report a failure. *)
Lemma send_cached_adds chat_type n (w : world) :
  exists calls,
    adds calls w (snd (send_cached chat_type n w))
    /\ forallb bot_call calls = true
    /\ In (BotCopyMessage n) calls.
Proof.
  unfold send_cached.
  destruct (String.eqb chat_type "private").
  - destruct (copy_or_report_adds n "found in the cache, but could not be sent" w)
      as (later & Hadds & Hbot).
    exists (later ++ [BotCopyMessage n]). split; [exact Hadds|]. split.
    + rewrite forallb_app, Hbot. reflexivity.
    + apply in_or_app. right. left. reflexivity.
  - pose proof (copy_message_adds n w) as H1.
    unfold try_except at 1 2.
    destruct (copy_message n w) as [[[]|e|] w1]; cbn [snd] in *.
    + exists [BotCopyMessage n]. split; [exact H1|]. split; [reflexivity|left; reflexivity].
    + pose proof (copy_message_adds n w1) as H2.
      destruct (copy_message n w1) as [[[]|e'|] w2]; cbn [snd] in *.
      * exists ([BotCopyMessage n] ++ [BotCopyMessage n]).
        split; [apply (adds_trans _ _ _ _ _ H1 H2)|]. split; [reflexivity|left; reflexivity].
      * pose proof (reply_adds "found in the cache, but could not be sent" w2) as H3.
        exists ([BotReply "found in the cache, but could not be sent"]
                ++ [BotCopyMessage n] ++ [BotCopyMessage n]).
        split; [apply (adds_trans _ _ _ _ _ (adds_trans _ _ _ _ _ H1 H2) H3)|].
        split; [reflexivity|right; left; reflexivity].
      * exists ([BotCopyMessage n] ++ [BotCopyMessage n]).
        split; [apply (adds_trans _ _ _ _ _ H1 H2)|]. split; [reflexivity|left; reflexivity].
    + exists [BotCopyMessage n]. split; [exact H1|]. split; [reflexivity|left; reflexivity].
Qed.

(** X22.  When the chosen format of a YouTube video has a row in the
    cache and the lookup meets no fault,
    [handle_youtube_format_callback] makes calls of the bot's own
    only and leaves the database as it was; it asks for the copy of
    the message the row names, unless it raises (its notice that the
    file was found is not guarded). *)
Theorem cached_youtube_format_served_by_the_bot_alone (self : stores) (data : string)
    (user_id : Z) (chat_type selected_format url : string) (fm : message)
    (row : video_row) (w : world) :
  nth_error (Text.split "_" data) 1 = Some selected_format ->
  get_stored_youtube_request user_id self = Some (url, fm) ->
  Database.select_video (url ++ "#" ++ selected_format) (db w) = Some row ->
  pending_fault w = NoFault ->
  let out := handle_youtube_format_callback cfg self data user_id chat_type w in
  exists calls,
    log (snd out) = calls ++ log w
    /\ forallb bot_call calls = true
    /\ db (snd out) = db w
    /\ (In (BotCopyMessage (channel_message_id row)) calls
        \/ exists e, fst out = Raise e).
Proof.
  intros Hformat Hstored Hrow Hfault. cbn zeta.
  unfold handle_youtube_format_callback. rewrite Hformat.
  destruct (safe_answer_adds "format chosen" w) as (w1 & Hsafe & Hl1 & Hd1 & Hf1).
  rewrite (bind_Ret _ _ w w1 tt Hsafe), Hstored.
  assert (Hrow1 : Database.select_video (url ++ "#" ++ selected_format) (db w1) = Some row)
    by (rewrite Hd1; exact Hrow).
  assert (Hfault1 : pending_fault w1 = NoFault)
    by (unfold pending_fault in *; rewrite Hf1; exact Hfault).
  rewrite (bind_Ret _ _ w1 _ _ (get_video_hit _ row w1 Hrow1 Hfault1)).
  set (w2 := set_db_faults _ w1).
  destruct (edit_text_adds "found in the cache" w2) as ((Hl3 & Hd3 & _) & Hres).
  assert (Hlog3 : log (snd (edit_text "found in the cache" w2))
                  = [BotReply "found in the cache"; BotReply "format chosen"] ++ log w).
  { rewrite Hl3. unfold w2. cbn [log set_db_faults app]. rewrite Hl1. reflexivity. }
  assert (Hdb3 : db (snd (edit_text "found in the cache" w2)) = db w).
  { rewrite Hd3. unfold w2. cbn [db set_db_faults]. exact Hd1. }
  rewrite bind_result.
  destruct (edit_text "found in the cache" w2) as [[[]|e|] w3]; cbn [fst snd] in *.
  - destruct (send_cached_adds chat_type (channel_message_id row) w3)
      as (calls & (Hl4 & Hd4 & _) & Hbot & Hin).
    exists (calls ++ [BotReply "found in the cache"; BotReply "format chosen"]).
    split; [rewrite Hl4, Hlog3, <- app_assoc; reflexivity|].
    split; [rewrite forallb_app, Hbot; reflexivity|].
    split; [rewrite Hd4; exact Hdb3|].
    left. apply in_or_app. left. exact Hin.
  - exists [BotReply "found in the cache"; BotReply "format chosen"].
    split; [exact Hlog3|]. split; [reflexivity|]. split; [exact Hdb3|].
    right. exists e. reflexivity.
  - destruct Hres as [Hres|[e Hres]]; discriminate.
Qed.

End Selections.

Lemma cached_twitter_format_served_by_the_bot_alone_witness :
  exists calls,
    log (snd (Handlers.handle_twitter_format_callback example_config after_twitter_offer
                ("tw_" ++ Text.str (Z.of_nat 1)) 7 format_cached_world))
    = calls ++ log format_cached_world
    /\ forallb bot_call calls = true
    /\ In (BotCopyMessage 501) calls
    /\ db (snd (Handlers.handle_twitter_format_callback example_config after_twitter_offer
                  ("tw_" ++ Text.str (Z.of_nat 1)) 7 format_cached_world))
       = db format_cached_world.
Proof.
  apply (cached_twitter_format_served_by_the_bot_alone example_config after_twitter_offer
           7 1 "https://x.com/a/status/1" twitter_offers
           [(1, ("q_sd", "SD")); (0, ("q_hd", "HD"))] "q_sd" "SD"
           (mkVideo "https://x.com/a/status/1#SD" 501 "twitter" 3) format_cached_world).
  - reflexivity.
  - reflexivity.
  - reflexivity.
  - reflexivity.
Defined.

Lemma cached_youtube_format_served_by_the_bot_alone_witness :
  exists calls,
    log (snd (Handlers.handle_youtube_format_callback example_config after_youtube_offer
                "yt_720p" 7 "private" format_cached_world))
    = calls ++ log format_cached_world
    /\ forallb bot_call calls = true
    /\ db (snd (Handlers.handle_youtube_format_callback example_config after_youtube_offer
                  "yt_720p" 7 "private" format_cached_world))
       = db format_cached_world
    /\ (In (BotCopyMessage 502) calls
        \/ exists e,
             fst (Handlers.handle_youtube_format_callback example_config after_youtube_offer
                    "yt_720p" 7 "private" format_cached_world) = Raise e).
Proof.
  apply (cached_youtube_format_served_by_the_bot_alone example_config after_youtube_offer
           "yt_720p" 7 "private" "720p" "https://youtu.be/a"
           (mkMessage 13 false false false None MediaNone "Choose the format"
              (Some [three_offers "f_360" "f_480" "f_720"]))
           (mkVideo "https://youtu.be/a#720p" 502 "youtube" 4) format_cached_world).
  - reflexivity.
  - reflexivity.
  - reflexivity.
  - reflexivity.
Defined.

(* ------------------------------------------------------------------ *)
(** ** What a selection adds to the cache *)

Section CacheKeys.

Import Userbot Handlers.
Variable cfg : config.
Variables (key platform : string) (user : Z).

Lemma same_db_cached_as (w w' : world) : same_db w w' -> cached_as key platform user w w'.
Proof. unfold same_db, cached_as. intros ->. split; left; reflexivity. Qed.

Lemma cached_as_after {A B} (m : M A) (k : A -> M B) :
  keeps same_db m -> (forall a, keeps (cached_as key platform user) (k a)) ->
  keeps (cached_as key platform user) (bind m k).
Proof.
  intros Hm Hk w. specialize (Hm w). unfold bind.
  destruct (m w) as [[a|e|] w1]; cbn [snd] in *;
    try (apply same_db_cached_as; exact Hm).
  specialize (Hk a w1). unfold cached_as, same_db in *. rewrite <- Hm. exact Hk.
Qed.

Lemma cached_as_try {A} (m : M A) (h : exn -> M A) :
  keeps (cached_as key platform user) m -> (forall e, keeps same_db (h e)) ->
  keeps (cached_as key platform user) (try_except m h).
Proof.
  intros Hm Hh w. specialize (Hm w). unfold try_except.
  destruct (m w) as [[a|e|] w1]; cbn [snd] in *; try exact Hm.
  specialize (Hh e w1). unfold cached_as, same_db in *. rewrite Hh. exact Hm.
Qed.

Lemma keeps_same_db_cached_as {A} (m : M A) :
  keeps same_db m -> keeps (cached_as key platform user) m.
Proof. intros Hm w. apply same_db_cached_as, Hm. Qed.

Lemma edit_text_same_db body : keeps same_db (edit_text body).
Proof. intros w. apply (edit_text_adds body w). Qed.

Lemma copy_message_same_db n : keeps same_db (copy_message n).
Proof. intros w. apply (copy_message_adds n w). Qed.

Lemma handlers_reply_same_db body : keeps same_db (reply body).
Proof. intros w. apply (reply_adds body w). Qed.

Lemma safe_answer_same_db body : keeps same_db (safe_answer_callback_query body).
Proof.
  intros w. destruct (safe_answer_adds body w) as (w1 & -> & _ & Hd & _). exact Hd.
Qed.

Lemma get_video_same_db k : keeps same_db (Database.get_video k).
Proof.
  intros w. destruct w as [auth conn clk scr lg d fs g].
  destruct fs as [|f fs]; [|destruct f];
    cbv -[Database.select_video]; destruct (Database.select_video k d); reflexivity.
Qed.

Lemma job_twitter_same_db url cb T pre : keeps same_db (process_twitter_url cfg url cb T pre).
Proof.
  apply keeps_process_twitter_url;
    first [exact same_db_refl | exact same_db_trans | intros; reflexivity].
Qed.

Lemma job_youtube_same_db url cb T : keeps same_db (process_youtube_url cfg url cb T).
Proof.
  apply keeps_process_youtube_url;
    first [exact same_db_refl | exact same_db_trans | intros; reflexivity].
Qed.

Lemma add_video_adds_at_most_one_row u n p (w : world) :
  videos (db (snd (Database.add_video u n p w))) = videos (db w)
  \/ videos (db (snd (Database.add_video u n p w)))
     = videos (db w) ++ [mkVideo u n p (clock w)].
Proof.
  destruct w as [auth conn clk scr lg d fs g].
  destruct fs as [|f fs]; [|destruct f];
    cbv -[Database.select_video app]; destruct (Database.select_video u d); auto.
Qed.

Lemma increment_user_downloads_videos u (w : world) :
  videos (db (snd (Database.increment_user_downloads u w))) = videos (db w).
Proof.
  destruct w as [auth conn clk scr lg d fs g].
  destruct fs as [|f fs]; [|destruct f]; reflexivity.
Qed.

(** The insert and the count, and then anything that leaves the
    database alone. *)
Lemma cached_as_insert_and_count (n : Z) (rest : M unit) :
  n <> 0 -> keeps same_db rest ->
  keeps (cached_as key platform user)
        (Database.add_video key n platform ;;;
         Database.increment_user_downloads user ;;;
         rest).
Proof.
  intros Hn Hrest w.
  destruct (add_video_returns key n platform w) as (b & w1 & Hadd).
  pose proof (add_video_adds_at_most_one_row key n platform w) as Hv1.
  pose proof (add_video_same_users key n platform w) as Hu1. unfold same_users in Hu1.
  rewrite Hadd in Hv1, Hu1. cbn [snd] in Hv1, Hu1.
  rewrite (bind_Ret _ _ w w1 b Hadd).
  destruct (increment_user_downloads_returns user w1) as (w2 & Hinc).
  pose proof (increment_user_downloads_videos user w1) as Hv2.
  pose proof (increment_user_downloads_users user w1) as Hu2.
  rewrite Hinc in Hv2, Hu2. cbn [snd] in Hv2, Hu2.
  rewrite (bind_Ret _ _ w1 w2 tt Hinc).
  specialize (Hrest w2). unfold same_db in Hrest. unfold cached_as. rewrite Hrest.
  split.
  - rewrite Hv2. destruct Hv1 as [Hv1|Hv1]; [left; exact Hv1|].
    right. exists n, (clock w). split; [exact Hn|exact Hv1].
  - rewrite Hu2, Hu1. destruct (pending_fault w1); auto.
Qed.

End CacheKeys.

Section Selected.

Import Userbot Handlers.
Variable cfg : config.

(** X23.  A Twitter selection adds at most one row to [videos]: for the
    key made of the stored URL, [#] and the stripped text of the
    chosen button, on platform [twitter], with a message id that is
    not 0.  It counts at most one download, for the user who chose.
    The rest of the database stays as it was. *)
Theorem twitter_selection_caches_under_format_key (self : stores) (user_id : Z) (i : nat)
    (url : string) (fm : message) (button_map : dict (string * string)) (cb t : string)
    (w : world) :
  get_stored_twitter_request user_id self = Some (url, fm, button_map) ->
  dict_get (Z.of_nat i) button_map = Some (cb, t) ->
  cached_as (url ++ "#" ++ Text.strip t) "twitter" user_id w
    (snd (handle_twitter_format_callback cfg self ("tw_" ++ Text.str (Z.of_nat i))
            user_id w)).
Proof.
  intros Hstored Hbutton.
  rewrite (callback_reaches_selection cfg self user_id i url fm button_map cb t
             Hstored Hbutton).
  revert w. change (keeps (cached_as (url ++ "#" ++ Text.strip t) "twitter" user_id)
                      (try_except
                         (safe_answer_callback_query "format chosen" ;;;
                          twitter_selection cfg url cb t user_id)
                         (fun _ => try_except (edit_text "unexpected error")
                                              (fun _ => ret tt)))).
  apply cached_as_try.
  2:{ intros e w. destruct (quiet_notice_adds "unexpected error" w) as (w1 & -> & _ & Hd & _).
      exact Hd. }
  apply cached_as_after; [apply safe_answer_same_db|intros _].
  unfold twitter_selection.
  apply cached_as_after; [apply get_video_same_db|intros [[channel_message_id ts]|]].
  - apply keeps_same_db_cached_as.
    apply (keeps_bind same_db same_db_trans).
    + intros w. destruct (quiet_notice_adds "sending from the cache" w)
        as (w1 & -> & _ & Hd & _). exact Hd.
    + intros _ w.
      destruct (copy_or_report_adds channel_message_id "could not be sent from the cache" w)
        as (later & (_ & Hd & _) & _). exact Hd.
  - apply cached_as_after.
    { intros w. destruct (quiet_notice_adds "downloading the format" w)
        as (w1 & -> & _ & Hd & _). exact Hd. }
    intros _. apply cached_as_after; [apply job_twitter_same_db|intros sid].
    destruct (id_or_none sid) as [n|] eqn:Hid.
    + destruct (id_or_none_Some sid n Hid) as [_ Hn].
      apply cached_as_insert_and_count; [exact Hn|].
      apply (keeps_bind same_db same_db_trans).
      * intros w. destruct (quiet_notice_adds "downloaded" w) as (w1 & -> & _ & Hd & _).
        exact Hd.
      * intros _ w.
        destruct (copy_or_report_adds n "the file could not be sent" w)
          as (later & (_ & Hd & _) & _). exact Hd.
    + apply keeps_same_db_cached_as, edit_text_same_db.
Qed.

(** X24.  A YouTube selection adds at most one row to [videos]: for the
    key made of the stored URL, [#] and the format named in the
    callback data, on platform [youtube], with a message id that is
    not 0.  It counts at most one download, for the user who chose.
    The rest of the database stays as it was. *)
Theorem youtube_selection_caches_under_format_key (self : stores) (data : string)
    (user_id : Z) (chat_type selected_format url : string) (fm : message) (w : world) :
  nth_error (Text.split "_" data) 1 = Some selected_format ->
  get_stored_youtube_request user_id self = Some (url, fm) ->
  cached_as (url ++ "#" ++ selected_format) "youtube" user_id w
    (snd (handle_youtube_format_callback cfg self data user_id chat_type w)).
Proof.
  intros Hformat Hstored. unfold handle_youtube_format_callback.
  rewrite Hformat.
  revert w.
  match goal with
  | |- forall w, cached_as ?k ?p ?u w (snd (?m w)) => change (keeps (cached_as k p u) m)
  end.
  apply cached_as_after; [apply safe_answer_same_db|intros _].
  rewrite Hstored.
  apply cached_as_after; [apply get_video_same_db|intros [[channel_message_id ts]|]].
  - apply keeps_same_db_cached_as.
    apply (keeps_bind same_db same_db_trans); [apply edit_text_same_db|intros _].
    intros w. destruct (send_cached_adds chat_type channel_message_id w)
      as (calls & (_ & Hd & _) & _). exact Hd.
  - apply cached_as_try; [|intros e; apply edit_text_same_db].
    apply cached_as_after; [apply edit_text_same_db|intros _].
    destruct (find_matching_format_callback (reply_markup fm) selected_format)
      as [target|]; [|apply keeps_same_db_cached_as, edit_text_same_db].
    destruct (String.eqb target ""); [apply keeps_same_db_cached_as, edit_text_same_db|].
    apply cached_as_after; [apply job_youtube_same_db|intros sid].
    destruct (id_or_none sid) as [n|] eqn:Hid.
    + destruct (id_or_none_Some sid n Hid) as [_ Hn].
      apply cached_as_insert_and_count; [exact Hn|].
      apply (keeps_bind same_db same_db_trans); [apply edit_text_same_db|intros _].
      intros w. destruct (copy_or_report_adds n "downloaded, but could not be sent" w)
        as (later & (_ & Hd & _) & _). exact Hd.
    + apply keeps_same_db_cached_as, edit_text_same_db.
Qed.

End Selected.

Lemma twitter_selection_caches_under_format_key_witness :
  cached_as ("https://x.com/a/status/1" ++ "#" ++ Text.strip "SD") "twitter" 7
    (fresh_world [])
    (snd (Handlers.handle_twitter_format_callback example_config after_twitter_offer
            ("tw_" ++ Text.str (Z.of_nat 1)) 7 (fresh_world []))).
Proof.
  apply (twitter_selection_caches_under_format_key example_config after_twitter_offer
           7 1 "https://x.com/a/status/1" twitter_offers
           [(1, ("q_sd", "SD")); (0, ("q_hd", "HD"))] "q_sd" "SD" (fresh_world [])).
  - reflexivity.
  - reflexivity.
Defined.

Lemma youtube_selection_caches_under_format_key_witness :
  cached_as ("https://youtu.be/a" ++ "#" ++ "720p") "youtube" 7
    (fresh_world [])
    (snd (Handlers.handle_youtube_format_callback example_config after_youtube_offer
            "yt_720p" 7 "private" (fresh_world []))).
Proof.
  apply (youtube_selection_caches_under_format_key example_config after_youtube_offer
           "yt_720p" 7 "private" "720p" "https://youtu.be/a"
           (mkMessage 13 false false false None MediaNone "Choose the format"
              (Some [three_offers "f_360" "f_480" "f_720"]))
           (fresh_world [])).
  - reflexivity.
  - reflexivity.
Defined.

(* ------------------------------------------------------------------ *)
(** ** Showing the formats of a tweet *)

Create HintDb passive_db.

Section Showing.

Import Userbot Handlers.
Variable cfg : config.

Lemma passively_refl w : passively w w.
Proof. exists []. split; reflexivity. Qed.

Lemma passively_trans w1 w2 w3 : passively w1 w2 -> passively w2 w3 -> passively w1 w3.
Proof.
  intros (c1 & H1 & Hp1) (c2 & H2 & Hp2). exists (c2 ++ c1).
  rewrite H2, H1, app_assoc, forallb_app, Hp1, Hp2. split; reflexivity.
Qed.

Lemma passively_clock t w : passively w (set_clock t w).
Proof. exists []. split; reflexivity. Qed.

Lemma passively_request c : passive c = true -> keeps passively (request c).
Proof.
  intros Hc w. unfold request.
  destruct (script w) as [|[v|e] rest]; exists [c]; cbn; rewrite Hc; split; reflexivity.
Qed.

Lemma silent_passively {A} (m : M A) : keeps silent m -> keeps passively m.
Proof. intros Hm w. destruct (Hm w) as (Hl & _). exists []. split; [exact Hl|reflexivity]. Qed.

(** Takes a goal [keeps passively m] apart along the structure of [m]. *)
Ltac passive_step :=
  match goal with
  | |- keeps passively (bind _ _) =>
      apply (keeps_bind passively passively_trans); [|intros ?]
  | |- keeps passively (try_except _ _) =>
      apply (keeps_try_except passively passively_trans); [|intros ?]
  | |- keeps passively (ret _) => apply (keeps_ret passively passively_refl)
  | |- keeps passively (raise _) => apply (keeps_raise passively passively_refl)
  | |- keeps passively pending => apply (keeps_pending passively passively_refl)
  | |- keeps passively time => apply (keeps_time passively passively_refl)
  | |- keeps passively (sleep _) => apply (keeps_sleep passively passively_clock)
  | |- keeps passively (as_message _) => apply (keeps_as_message passively passively_refl)
  | |- keeps passively (as_messages _) => apply (keeps_as_messages passively passively_refl)
  | |- keeps passively get_is_authenticated =>
      apply (keeps_get_is_authenticated passively passively_refl)
  | |- keeps passively (request _) => apply passively_request; reflexivity
  | |- keeps passively (match ?x with _ => _ end) => destruct x
  | |- keeps passively (if ?b then _ else _) => destruct b
  | |- keeps passively _ => solve [auto with passive_db]
  end.

Ltac passive_auto := repeat passive_step.

Lemma passively_get_messages peer limit : keeps passively (get_messages peer limit).
Proof. unfold get_messages. passive_auto. Qed.

Lemma passively_choose return_all l : keeps passively (choose return_all l).
Proof. unfold choose. passive_auto. Qed.

Lemma passively_sent_id v : keeps passively (sent_id v).
Proof. unfold sent_id. passive_auto. Qed.

#[local] Hint Resolve passively_get_messages passively_choose passively_sent_id : passive_db.

Lemma passively_poll_format bot wm : keeps passively (poll_format bot wm).
Proof. unfold poll_format. passive_auto. Qed.

Lemma passively_wait_format_loop bot wm T start fuel :
  keeps passively (wait_format_loop fuel bot wm T start).
Proof.
  pose proof passively_poll_format.
  induction fuel as [|fuel IH]; cbn [wait_format_loop]; passive_auto.
Qed.

Lemma passively_wait_for_format_message bot wm T :
  keeps passively (_wait_for_format_message bot wm T).
Proof.
  pose proof passively_wait_format_loop. unfold _wait_for_format_message. passive_auto.
Qed.

Lemma passively_poll_twitter bot wm return_all : keeps passively (poll_twitter bot wm return_all).
Proof.
  unfold poll_twitter. passive_step; [passive_auto|].
  destruct (scan_twitter _ _ _) as [[|m ms] [|t ts]]; passive_auto.
Qed.

Lemma passively_wait_twitter_loop bot wm T return_all poll_interval start fuel :
  keeps passively (wait_twitter_loop fuel bot wm T return_all poll_interval start).
Proof.
  pose proof passively_poll_twitter.
  induction fuel as [|fuel IH]; cbn [wait_twitter_loop]; passive_auto.
Qed.

Lemma passively_wait_for_twitter_response bot wm T return_all poll_interval :
  keeps passively (_wait_for_twitter_response bot wm T return_all poll_interval).
Proof.
  pose proof passively_wait_twitter_loop. unfold _wait_for_twitter_response. passive_auto.
Qed.

Lemma passively_upload_twitter m : keeps passively (_upload_twitter_to_storage_channel m).
Proof. unfold _upload_twitter_to_storage_channel. passive_auto. Qed.

#[local] Hint Resolve passively_wait_for_format_message passively_wait_for_twitter_response
  passively_upload_twitter : passive_db.

(** The job that reuses a request already sent sends nothing more. *)
Lemma passively_job_on_sent_request url T n :
  keeps passively (process_twitter_url cfg url None T (Some n)).
Proof. unfold process_twitter_url. passive_auto. Qed.

Lemma passively_add_video u n p : keeps passively (Database.add_video u n p).
Proof. apply silent_passively, add_video_silent. Qed.

Lemma passively_increment u : keeps passively (Database.increment_user_downloads u).
Proof. apply silent_passively, increment_user_downloads_silent. Qed.

Lemma passively_reply body : keeps passively (reply body).
Proof. unfold reply. passive_auto. Qed.

Lemma passively_copy_message n : keeps passively (copy_message n).
Proof. unfold copy_message. passive_auto. Qed.

#[local] Hint Resolve passively_job_on_sent_request passively_add_video passively_increment
  passively_reply passively_copy_message : passive_db.

(** X28.  The first call of [show_twitter_formats] is the message that
    carries the URL to the responder, and whatever it does after that,
    it sends the responder nothing more and clicks no button: the job
    it falls back on reuses the request already sent. *)
Theorem show_twitter_formats_sends_once (self : stores) (user_id : Z) (url : string)
    (w : world) :
  exists calls,
    log (snd (show_twitter_formats cfg self user_id url w))
    = calls ++ SendMessage (twitter_bot_username cfg) url :: log w
    /\ forallb passive calls = true.
Proof.
  unfold show_twitter_formats.
  set (after := fun sent_msg : message => _).
  set (report := fun _ : exn => reply "the formats could not be shown").
  assert (Hafter : forall sent_msg, keeps passively (after sent_msg)).
  { intros sent_msg. unfold after. passive_auto. }
  assert (Hreport : forall e, keeps passively (report e)).
  { intros e. unfold report. passive_auto. }
  assert (Hjoin : forall w1 w2, log w1 = SendMessage (twitter_bot_username cfg) url :: log w ->
                                passively w1 w2 ->
                                exists calls,
                                  log w2 = calls ++ SendMessage (twitter_bot_username cfg) url
                                             :: log w
                                  /\ forallb passive calls = true).
  { intros w1 w2 H1 (calls & H2 & Hp). exists calls. rewrite H2, H1. split; [reflexivity|exact Hp]. }
  set (c := SendMessage (twitter_bot_username cfg) url) in *.
  unfold try_except, bind, send_message, bind, request.
  destruct (script w) as [|[v|e] rest].
  - apply (Hjoin (add_log c w)); [reflexivity|apply Hreport].
  - destruct v as [|b|m|l|p]; cbn [as_message raise ret];
      try (apply (Hjoin (add_log c (set_script rest w))); [reflexivity|apply Hreport]).
    pose proof (Hafter m (add_log c (set_script rest w))) as Hk.
    destruct (after m _) as [[[]|e|] w2]; cbn [snd] in *.
    + apply (Hjoin (add_log c (set_script rest w)) w2 eq_refl Hk).
    + apply (Hjoin (add_log c (set_script rest w))); [reflexivity|].
      apply (passively_trans _ _ _ Hk), Hreport.
    + apply (Hjoin (add_log c (set_script rest w)) w2 eq_refl Hk).
  - apply (Hjoin (add_log c (set_script rest w))); [reflexivity|apply Hreport].
Qed.

End Showing.

(* ------------------------------------------------------------------ *)
(** ** Users, statistics and the cleanup *)

Section Tables.

Import Database.

Lemma select_user_snoc user_id (d : database) :
  select_user user_id (mkDatabase (videos d) (users d ++ [mkUser user_id 0])) <> None.
Proof.
  unfold select_user. cbn [users]. induction (users d) as [|r l IH]; cbn [app find uid].
  - rewrite Z.eqb_refl. discriminate.
  - destruct (uid r =? user_id); [discriminate|exact IH].
Qed.

Lemma select_user_none user_id (d : database) :
  select_user user_id d = None -> ~ In user_id (map uid (users d)).
Proof.
  unfold select_user. intros Hnone Hin. apply in_map_iff in Hin.
  destruct Hin as (r & Hr & Hin).
  pose proof (find_none _ _ Hnone r Hin) as H. cbn in H. rewrite Hr, Z.eqb_refl in H.
  discriminate.
Qed.

(** X25.  [add_or_update_user] never raises and leaves [videos] alone.
    It leaves the rows of [users] as they are, download counts
    included, or, for a user without a row, adds one row with no
    downloads at the end.  After [True] the user has a row.  Ids that
    were distinct stay distinct. *)
Theorem add_or_update_user_registers_once (user_id : Z) (w : world) :
  let out := add_or_update_user user_id w in
  exists b,
    fst out = Ret b
    /\ videos (db (snd out)) = videos (db w)
    /\ (users (db (snd out)) = users (db w)
        \/ (select_user user_id (db w) = None
            /\ users (db (snd out)) = users (db w) ++ [mkUser user_id 0]))
    /\ (b = true -> select_user user_id (db (snd out)) <> None)
    /\ (NoDup (map uid (users (db w))) -> NoDup (map uid (users (db (snd out))))).
Proof.
  destruct w as [auth conn clk scr lg d fs g]. cbn zeta.
  assert (Hsnoc : select_user user_id d = None ->
                  NoDup (map uid (users d)) ->
                  NoDup (map uid (users d ++ [mkUser user_id 0]))).
  { intros Hnone Hnodup. rewrite map_app. cbn [map uid].
    apply NoDup_app; [exact Hnodup|repeat constructor; intros []|].
    intros x Hx [<-|[]]. exact (select_user_none _ _ Hnone Hx). }
  pose proof (select_user_snoc user_id d) as Hreg.
  destruct fs as [|f fs]; [|destruct f];
    unfold add_or_update_user, with_connection, connect, execute, commit, close,
      _update_daily_new_users, fail_when, next_fault, get_db, put_db, try_except, bind, ret,
      raise;
    cbn [db db_faults fault_eqb set_db_faults set_db fst snd];
    destruct (select_user user_id d) as [r|] eqn:Hsel;
    cbn [db db_faults fault_eqb set_db_faults set_db fst snd videos users];
    eexists; (split; [reflexivity|]); (split; [reflexivity|]);
    (split; [first [left; reflexivity | right; split; reflexivity]|]);
    (split; [first [discriminate | intros _; rewrite Hsel; discriminate
                   | intros _; exact Hreg]
            |first [intros H; exact H | apply Hsnoc; reflexivity]]).
Qed.

(* ---------------------------------------------------------------- *)

Lemma count_platform_cons p r rows :
  count_platform p (r :: rows)
  = (if String.eqb (platform r) p then 1 else 0) + count_platform p rows.
Proof.
  unfold count_platform. cbn [filter].
  destruct (String.eqb (platform r) p); cbn [List.length]; lia.
Qed.

Lemma total_indicator q (ps : list string) :
  NoDup ps ->
  total (map (fun p => if String.eqb q p then 1 else 0) ps) = if in_dec string_dec q ps then 1 else 0.
Proof.
  induction 1 as [|p ps Hnotin Hnodup IH]; [reflexivity|].
  cbn [map total fold_right]. fold (total (map (fun p => if String.eqb q p then 1 else 0) ps)).
  rewrite IH. destruct (String.eqb_spec q p) as [<-|Hne].
  - destruct (in_dec string_dec q (q :: ps)) as [_|Hn]; [|exfalso; apply Hn; left; reflexivity].
    destruct (in_dec string_dec q ps); [contradiction|reflexivity].
  - destruct (in_dec string_dec q ps) as [Hin|Hn];
      destruct (in_dec string_dec q (p :: ps)) as [Hin'|Hn']; try reflexivity.
    + exfalso. apply Hn'. right. exact Hin.
    + destruct Hin' as [->|Hin']; [congruence|contradiction].
Qed.

Lemma total_counts (ps : list string) (rows : list video_row) :
  NoDup ps -> (forall r, In r rows -> In (platform r) ps) ->
  total (map (fun p => count_platform p rows) ps) = Z.of_nat (List.length rows).
Proof.
  intros Hnodup. induction rows as [|r rows IH]; intros Hcover.
  - clear. induction ps as [|p ps IHps]; [reflexivity|].
    change (count_platform p [] + total (map (fun p => count_platform p []) ps)
            = Z.of_nat (List.length (@nil video_row))).
    rewrite IHps. reflexivity.
  - assert (Hsplit : forall l : list string,
               total (map (fun p => count_platform p (r :: rows)) l)
               = total (map (fun p => if String.eqb (platform r) p then 1 else 0) l)
                 + total (map (fun p => count_platform p rows) l)).
    { induction l as [|p l IHl]; [reflexivity|].
      cbn [map total fold_right].
      fold (total (map (fun p => count_platform p (r :: rows)) l)).
      fold (total (map (fun p => if String.eqb (platform r) p then 1 else 0) l)).
      fold (total (map (fun p => count_platform p rows) l)).
      rewrite IHl, count_platform_cons. lia. }
    rewrite Hsplit, IH, (total_indicator _ _ Hnodup).
    + destruct (in_dec string_dec (platform r) ps) as [_|Hn].
      * cbn [List.length]. lia.
      * exfalso. apply Hn, Hcover. left. reflexivity.
    + intros r' Hr'. apply Hcover. right. exact Hr'.
Qed.

Lemma stats_get_group p (rows : list video_row) :
  stats_get p (group_by_platform rows)
  = if count_platform p rows =? 0 then None else Some (count_platform p rows).
Proof.
  unfold stats_get, group_by_platform.
  assert (Hfind : forall ps,
             find (fun item : string * Z => String.eqb (fst item) p)
                  (map (fun q => (q, count_platform q rows)) ps)
             = if in_dec string_dec p ps then Some (p, count_platform p rows) else None).
  { induction ps as [|q ps IH]; [reflexivity|].
    cbn [map find fst]. destruct (String.eqb_spec q p) as [->|Hne].
    - destruct (in_dec string_dec p (p :: ps)) as [_|Hn]; [reflexivity|].
      exfalso. apply Hn. left. reflexivity.
    - rewrite IH. destruct (in_dec string_dec p ps) as [Hin|Hn];
        destruct (in_dec string_dec p (q :: ps)) as [Hin'|Hn']; try reflexivity.
      + exfalso. apply Hn'. right. exact Hin.
      + destruct Hin' as [->|Hin']; [congruence|contradiction]. }
  rewrite Hfind.
  assert (Hcount : In p (map platform rows) <-> count_platform p rows <> 0).
  { clear. unfold count_platform.
    induction rows as [|r rows IH]; cbn [map filter In List.length].
    - split; [intros []|intros H; apply H; reflexivity].
    - destruct (String.eqb_spec (platform r) p) as [Hp|Hp]; cbn [List.length].
      + split; [intros _; lia|intros _; left; exact Hp].
      + rewrite <- IH. split; [intros [H|H]; [congruence|exact H]|intros H; right; exact H]. }
  destruct (in_dec string_dec p (nodup string_dec (map platform rows))) as [Hin|Hn].
  - apply nodup_In, Hcount in Hin.
    destruct (Z.eqb_spec (count_platform p rows) 0); [contradiction|reflexivity].
  - destruct (Z.eqb_spec (count_platform p rows) 0) as [_|Hne]; [reflexivity|].
    exfalso. apply Hn, nodup_In, Hcount, Hne.
Qed.

(** X26.  [get_platform_stats] never raises, names no platform twice,
    and its counts add up to what [get_video_count] returns in the
    same world.  A platform it lists has its number of rows, which is
    positive.  Without a fault on the way it lists just the platforms
    that occur; with one it is empty. *)
Theorem platform_stats_add_up_to_the_video_count (w : world) :
  exists stats,
    fst (get_platform_stats w) = Ret stats
    /\ fst (get_video_count w) = Ret (total (map snd stats))
    /\ NoDup (map fst stats)
    /\ (forall p c, stats_get p stats = Some c ->
          0 < c /\ c = count_platform p (videos (db w)))
    /\ match pending_fault w with
       | NoFault | FailCommit =>
           forall p, stats_get p stats
                     = if count_platform p (videos (db w)) =? 0 then None
                       else Some (count_platform p (videos (db w)))
       | _ => stats = []
       end.
Proof.
  destruct w as [auth conn clk scr lg d fs g].
  assert (Hgood : total (map snd (group_by_platform (videos d)))
                  = Z.of_nat (List.length (videos d))
                  /\ NoDup (map fst (group_by_platform (videos d)))
                  /\ forall p c, stats_get p (group_by_platform (videos d)) = Some c ->
                                 0 < c /\ c = count_platform p (videos d)).
  { split; [|split].
    - unfold group_by_platform. rewrite map_map. cbn [snd].
      apply total_counts; [apply NoDup_nodup|].
      intros r Hr. apply nodup_In, in_map, Hr.
    - unfold group_by_platform. rewrite map_map. cbn [fst]. rewrite map_id.
      apply NoDup_nodup.
    - intros p c. rewrite stats_get_group.
      destruct (Z.eqb_spec (count_platform p (videos d)) 0) as [|Hne]; [discriminate|].
      intros [= <-]. split; [|reflexivity]. unfold count_platform in *. lia. }
  destruct Hgood as (Hsum & Hnodup & Hget).
  unfold pending_fault. cbn [db db_faults hd].
  destruct fs as [|f fs]; [|destruct f]; cbn [hd];
    unfold get_platform_stats, get_video_count, with_connection, connect, execute, close,
      fail_when, next_fault, get_db, try_except, bind, ret, raise;
    cbn [db db_faults fault_eqb set_db_faults fst snd];
    eexists; (split; [reflexivity|]);
    first [ split; [rewrite Hsum; reflexivity|];
            split; [exact Hnodup|]; split; [exact Hget|];
            intros p; apply stats_get_group
          | split; [reflexivity|]; split; [constructor|];
            split; [discriminate|reflexivity] ].
Qed.

(* ---------------------------------------------------------------- *)

Lemma filter_split_length {A} (f : A -> bool) (l : list A) :
  (List.length (filter f l) + List.length (filter (fun x => negb (f x)) l)
   = List.length l)%nat.
Proof.
  induction l as [|x l IH]; [reflexivity|].
  cbn [filter]. destruct (f x); cbn [negb List.length]; lia.
Qed.

Lemma filter_all {A} (l : list A) : filter (fun _ => true) l = l.
Proof. induction l as [|x l IH]; [reflexivity|]. cbn. rewrite IH. reflexivity. Qed.

Lemma filter_none {A} (l : list A) : filter (fun _ => false) l = [].
Proof. induction l as [|x l IH]; [reflexivity|exact IH]. Qed.

(** X27.  [cleanup_old_records] never raises, leaves [users] alone and
    adds no row to [videos].  A row not older than [days] days stays,
    whatever the faults.  With a negative [days] nothing is deleted
    and the result is 0.  The result never exceeds the number of rows
    deleted; without a fault it is that number, and, for [days] that
    is not negative, every row left is not older than [days] days. *)
Theorem cleanup_deletes_only_older_records (days : Z) (w : world) :
  let out := cleanup_old_records days w in
  exists deleted_count,
    fst out = Ret deleted_count
    /\ users (db (snd out)) = users (db w)
    /\ (forall r, In r (videos (db (snd out))) -> In r (videos (db w)))
    /\ (forall r, In r (videos (db w)) -> clock w - 86400 * days <= timestamp r ->
          In r (videos (db (snd out))))
    /\ (days < 0 -> db (snd out) = db w /\ deleted_count = 0)
    /\ 0 <= deleted_count
       <= Z.of_nat (List.length (videos (db w)))
          - Z.of_nat (List.length (videos (db (snd out))))
    /\ (pending_fault w = NoFault ->
        deleted_count = Z.of_nat (List.length (videos (db w)))
                        - Z.of_nat (List.length (videos (db (snd out))))
        /\ (0 <= days ->
            forall r, In r (videos (db (snd out))) ->
                      clock w - 86400 * days <= timestamp r)).
Proof.
  destruct w as [auth conn clk scr lg d fs g]. cbn zeta.
  set (cutoff := days_ago clk days).
  set (kept := filter (fun r => negb (older_than cutoff r)) (videos d)).
  assert (Hsub : forall r, In r kept -> In r (videos d)).
  { intros r Hr. apply filter_In in Hr. apply Hr. }
  assert (Hrecent : forall r, In r (videos d) -> clk - 86400 * days <= timestamp r ->
                              In r kept).
  { intros r Hr Ht. apply filter_In. split; [exact Hr|].
    unfold cutoff, days_ago, older_than. destruct (days <? 0); [reflexivity|].
    apply negb_true_iff, Z.ltb_ge. exact Ht. }
  assert (Hneg : days < 0 -> kept = videos d
                             /\ filter (older_than cutoff) (videos d) = []).
  { intros Hd. unfold kept, cutoff, days_ago.
    destruct (Z.ltb_spec days 0) as [_|]; [|lia]. cbn [older_than negb].
    split; [apply filter_all|apply filter_none]. }
  assert (Hcount : Z.of_nat (List.length (filter (older_than cutoff) (videos d)))
                   = Z.of_nat (List.length (videos d)) - Z.of_nat (List.length kept)).
  { pose proof (filter_split_length (older_than cutoff) (videos d)) as H.
    unfold kept. lia. }
  assert (Hold : 0 <= days -> forall r, In r kept -> clk - 86400 * days <= timestamp r).
  { intros Hd r Hr. apply filter_In in Hr. destruct Hr as [_ Hr].
    unfold cutoff, days_ago, older_than in Hr.
    destruct (Z.ltb_spec days 0) as [|_]; [lia|].
    apply negb_true_iff, Z.ltb_ge in Hr. exact Hr. }
  assert (Hlen : (List.length kept <= List.length (videos d))%nat).
  { pose proof (filter_split_length (older_than cutoff) (videos d)) as H.
    unfold kept. lia. }
  destruct d as [vs us]. cbn [videos users] in *.
  unfold pending_fault. cbn [db db_faults hd clock].
  destruct fs as [|f fs]; [|destruct f]; cbn [hd];
    unfold cleanup_old_records, with_connection, connect, execute, commit, close,
      fail_when, next_fault, get_db, put_db, time, try_except, bind, ret, raise;
    cbn [db db_faults fault_eqb set_db_faults set_db clock fst snd videos users];
    fold cutoff; fold kept;
    eexists; (split; [reflexivity|]); (split; [reflexivity|]);
    (split; [first [exact Hsub | intros r Hr; exact Hr]|]);
    (split; [first [exact Hrecent | intros r Hr _; exact Hr]|]);
    (split; [intros Hd; destruct (Hneg Hd) as [Hk Hz];
             first [ rewrite Hk, Hz; split; reflexivity
                   | rewrite Hk; split; reflexivity
                   | split; reflexivity ]|]);
    (split; [lia|]);
    first [ discriminate
          | intros _; split; [first [exact Hcount | lia]|];
            first [exact Hold | intros _ r Hr; exfalso; fail] ].
Qed.

End Tables.

Example negative_days_delete_nothing :
  Database.cleanup_old_records (-1) cached_world = (Ret 0, cached_world).
Proof. vm_compute. reflexivity. Qed.

Example old_row_is_deleted :
  fst (Database.cleanup_old_records 0 cached_world) = Ret 1
  /\ videos (db (snd (Database.cleanup_old_records 0 cached_world))) = [].
Proof. vm_compute. split; reflexivity. Qed.

(* ------------------------------------------------------------------ *)
(** ** The mandatory channels *)

Section MandatoryChannels.

Import Channels.

Lemma has_id_in cid (t : list channel_row) :
  existsb (has_id cid) t = true <-> In cid (map channel_id t).
Proof.
  rewrite existsb_exists, in_map_iff. unfold has_id.
  split; intros (r & H1 & H2).
  - exists r. apply String.eqb_eq in H2. split; assumption.
  - exists r. split; [exact H2|]. apply String.eqb_eq. exact H1.
Qed.

Lemma deactivated_ids cid (t : list channel_row) :
  map channel_id (map (fun r => if has_id cid r then deactivate r else r) t)
  = map channel_id t.
Proof.
  rewrite map_map. apply map_ext. intros r. destruct (has_id cid r); reflexivity.
Qed.

Lemma deactivated_active cid (t : list channel_row) :
  filter is_active (map (fun r => if has_id cid r then deactivate r else r) t)
  = filter (fun r => (is_active r && negb (has_id cid r))%bool) t.
Proof.
  induction t as [|r t IH]; [reflexivity|]. cbn [map filter].
  destruct (has_id cid r) eqn:Hid; cbn [deactivate is_active negb].
  - rewrite andb_false_r. exact IH.
  - rewrite andb_true_r. destruct (is_active r); [rewrite IH|]; reflexivity || exact IH.
Qed.

Lemma has_id_count cid (t : list channel_row) :
  Nat.ltb 0 (List.length (filter (has_id cid) t)) = existsb (has_id cid) t.
Proof.
  induction t as [|r t IH]; [reflexivity|]. cbn [filter existsb].
  destruct (has_id cid r); [reflexivity|exact IH].
Qed.

(** X29.  [add_mandatory_channel] never raises.  It leaves the table as
    it is or, for a channel id without a row, adds one active row at
    the end; after [True] the row was added.  For a channel id that
    has a row, active or not, it returns [False] and leaves the table
    as it is.  Without a fault it returns [True] exactly for a new
    channel id.  Channel ids that were distinct stay distinct. *)
Theorem add_mandatory_channel_takes_an_id_once (f : sql_fault) (cid ctype : string)
    (username title link : option string) (t : list channel_row) :
  let out := add_mandatory_channel f cid ctype username title link t in
  exists b,
    fst out = Ret b
    /\ (snd out = t
        \/ (existsb (has_id cid) t = false
            /\ snd out = t ++ [mkChannel cid ctype username title link true]))
    /\ (b = true -> snd out = t ++ [mkChannel cid ctype username title link true])
    /\ (existsb (has_id cid) t = true -> b = false /\ snd out = t)
    /\ (f = NoFault -> b = negb (existsb (has_id cid) t))
    /\ (NoDup (map channel_id t) -> NoDup (map channel_id (snd out))).
Proof.
  cbn zeta.
  assert (Hnodup : existsb (has_id cid) t = false -> NoDup (map channel_id t) ->
                   NoDup (map channel_id (t ++ [mkChannel cid ctype username title link true]))).
  { intros Hnew Hnd. rewrite map_app. cbn [map channel_id].
    apply NoDup_app; [exact Hnd|repeat constructor; intros []|].
    intros x Hx [<-|[]]. apply has_id_in in Hx. congruence. }
  destruct f;
    unfold add_mandatory_channel, with_connection, connect, execute, commit, close,
      fail_when, get_table, put_table, try_except, bind, ret, raise;
    cbn [Database.fault_eqb fst snd];
    destruct (existsb (has_id cid) t) eqn:Hdup; cbn [fst snd negb];
    eexists; (split; [reflexivity|]);
    (split; [first [left; reflexivity | right; split; reflexivity]|]);
    (split; [first [discriminate | intros _; reflexivity]|]);
    (split; [first [discriminate | intros _; split; reflexivity]|]);
    (split; [first [discriminate | intros _; reflexivity]|]);
    first [intros H; exact H | apply Hnodup; reflexivity].
Qed.

(** X30.  [remove_mandatory_channel] never raises and deletes no row:
    the channel ids of the table are the ones before, and no row
    becomes active.  Without a fault it returns [True] exactly when
    the channel id has a row, active or not.  After [True] the channel
    is not among those [get_mandatory_channels] lists, whose number
    [get_mandatory_channels_count] gives, and
    [add_mandatory_channel] for the same channel id returns [False]
    and changes nothing: a removed channel cannot be added again. *)
Theorem removed_channel_stays_in_the_table (f : sql_fault) (cid : string)
    (t : list channel_row) :
  let out := remove_mandatory_channel f cid t in
  exists b,
    fst out = Ret b
    /\ map channel_id (snd out) = map channel_id t
    /\ (forall r, In r (filter is_active (snd out)) -> In r (filter is_active t))
    /\ (f = NoFault -> b = existsb (has_id cid) t)
    /\ (b = true ->
        existsb (has_id cid) t = true
        /\ (forall f' listed,
              fst (get_mandatory_channels f' (snd out)) = Ret listed ->
              ~ In cid (map channel_id listed)
              /\ fst (get_mandatory_channels_count f' (snd out))
                 = Ret (Z.of_nat (List.length listed)))
        /\ forall f' ctype username title link,
             add_mandatory_channel f' cid ctype username title link (snd out)
             = (Ret false, snd out)).
Proof.
  cbn zeta.
  pose proof (deactivated_ids cid t) as Hids.
  pose proof (deactivated_active cid t) as Hact.
  pose proof (has_id_count cid t) as Hcount.
  set (t' := map (fun r => if has_id cid r then deactivate r else r) t) in *.
  assert (Hless : forall r, In r (filter is_active t') -> In r (filter is_active t)).
  { intros r. rewrite Hact, !filter_In. intros [Hin Hr].
    apply andb_true_iff in Hr. split; [exact Hin|apply Hr]. }
  assert (Hgone : ~ In cid (map channel_id (filter is_active t'))).
  { rewrite Hact. intros Hin. apply in_map_iff in Hin. destruct Hin as (r & Hr & Hin).
    apply filter_In in Hin. destruct Hin as [_ Hin].
    apply andb_true_iff in Hin. destruct Hin as [_ Hin].
    unfold has_id in Hin. rewrite Hr, String.eqb_refl in Hin. discriminate. }
  assert (Hdup : existsb (has_id cid) t = true -> existsb (has_id cid) t' = true).
  { intros H. apply has_id_in. rewrite Hids. apply has_id_in, H. }
  assert (Hadd : existsb (has_id cid) t = true ->
                 forall f' ctype username title link,
                   add_mandatory_channel f' cid ctype username title link t'
                   = (Ret false, t')).
  { intros H f' ctype username title link. specialize (Hdup H).
    destruct f';
      unfold add_mandatory_channel, with_connection, connect, execute, commit, close,
        fail_when, get_table, put_table, try_except, bind, ret, raise;
      cbn [Database.fault_eqb fst snd]; rewrite ?Hdup; reflexivity. }
  assert (Hlist : forall f' listed,
             fst (get_mandatory_channels f' t') = Ret listed ->
             ~ In cid (map channel_id listed)
             /\ fst (get_mandatory_channels_count f' t')
                = Ret (Z.of_nat (List.length listed))).
  { intros f' listed.
    destruct f';
      unfold get_mandatory_channels, get_mandatory_channels_count, with_connection,
        connect, execute, close, fail_when, get_table, try_except, bind, ret, raise;
      cbn [Database.fault_eqb fst snd]; intros [= <-];
      (split; [first [exact Hgone | intros []]|reflexivity]). }
  destruct f;
    unfold remove_mandatory_channel, with_connection, connect, execute, commit, close,
      fail_when, get_table, put_table, try_except, bind, ret, raise;
    cbn [Database.fault_eqb fst snd]; fold t'; rewrite ?Hcount;
    eexists; (split; [reflexivity|]);
    (split; [first [exact Hids | reflexivity]|]);
    (split; [first [exact Hless | intros r Hr; exact Hr]|]);
    (split; [first [discriminate | intros _; reflexivity]|]);
    first [ discriminate
          | intros Hb; split; [exact Hb|];
            split; [exact Hlist|apply Hadd, Hb] ].
Qed.

End MandatoryChannels.

Example removed_channel_is_refused :
  let t := [Channels.mkChannel "-1001" "channel" None None None true] in
  let removed := Channels.remove_mandatory_channel NoFault "-1001" t in
  fst removed = Ret true
  /\ fst (Channels.get_mandatory_channels NoFault (snd removed)) = Ret []
  /\ fst (Channels.add_mandatory_channel NoFault "-1001" "channel" None None None
            (snd removed)) = Ret false.
Proof. vm_compute. repeat split; reflexivity. Qed.
